(** * Insight service of the job-application tracker

    A shallow embedding of [backend/services/insightService.js] (class
    [InsightService]) together with the fragment of the JavaScript object
    model and of the SQL queries that the service relies on.

    Conventions of the embedding.
    - JavaScript numbers that hold counts and rounded percentages are
      integers ([Z]): they stay below [2 ^ 53], where binary64 holds every
      integer exactly.  Every other number is a finite double, kept as the
      rational it denotes ([Q]); [/], [*], [+] and [-] round their exact
      result to the nearest double, ties to even (module [Binary64]), in
      JavaScript and in SQLite alike.
    - Strings are byte strings (UTF-8), compared as SQLite's BINARY collation
      and, on the ASCII strings the service compares, as JavaScript's [<]/[>].
    - A JavaScript object used as a dictionary is an association list in
      insertion order.  The initial value of a [reduce], an object literal
      that carries one property only, is a constructor of its own ([Seed])
      next to the elements of the array; a property that a returned object
      may lack is an [option] field.
    - [Object.prototype] is shared by every object of the process and the
      service can write to it; it is an explicit store threaded through every
      method. *)

From Stdlib Require Import ZArith QArith Qround Qabs Qpower List String Ascii.
From Stdlib Require Import Bool Lia Lqa.
From Stdlib Require Import DecimalString DecimalPos Permutation Sorted.
Import ListNotations.

Local Open Scope string_scope.
Local Open Scope Z_scope.

(** ** Binary64 arithmetic *)

Module Binary64.
Local Open Scope Q_scope.

Definition pow2 (e : Z) : Q := 2 ^ e.

(** [floor (log2 q)] for a positive [q]: the difference of the bit lengths of
    numerator and denominator, or one less. *)
Definition ilog2 (q : Q) : Z :=
  let l := (Z.log2 (Qnum q) - Z.log2 (Z.pos (Qden q)))%Z in
  if Qle_bool (pow2 l) q then l else (l - 1)%Z.

(** The nearest integer, the even one of two that are equally near. *)
Definition nearest_even (q : Q) : Z :=
  let f := Qfloor q in
  match Qcompare (q - inject_Z f) (1 # 2) with
  | Lt => f
  | Eq => if Z.even f then f else (f + 1)%Z
  | Gt => (f + 1)%Z
  end.

(** The exponent of the least subnormal double, [2 ^ -1074]. *)
Definition emin : Z := (-1074)%Z.

(** The exponent of the spacing of the doubles around [q]: 53 significant
    bits, and the spacing of the subnormal doubles below [2 ^ -1022]. *)
Definition quantum (q : Q) : Z := Z.max (ilog2 (Qabs q) - 52) emin.

(** The double nearest to [q], the one with the even significand of two that
    are equally near.  Overflow to an infinity is left out: it takes a
    magnitude of [2 ^ 1024], and the numbers of the service are counts, days
    and percentages. *)
Definition fl (q : Q) : Q :=
  if Qeq_bool q 0 then 0
  else inject_Z (nearest_even (q / pow2 (quantum q))) * pow2 (quantum q).

Definition add (x y : Q) : Q := fl (x + y).
Definition sub (x y : Q) : Q := fl (x - y).
Definition mul (x y : Q) : Q := fl (x * y).
Definition div (x y : Q) : Q := fl (x / y).

End Binary64.

(** ** JavaScript primitives *)

Module JS.

(** Line feed, the separator of [summary.join('\n')]. *)
Definition nl : string := String (ascii_of_nat 10) EmptyString.

(** [Array.prototype.join('\n')]. *)
Fixpoint join_lines (l : list string) : string :=
  match l with
  | [] => EmptyString
  | [x] => x
  | x :: rest => x ++ nl ++ join_lines rest
  end.

(** Number-to-string conversion of an integer-valued number, as a template
    literal performs it. *)
Definition show_Z (z : Z) : string := NilZero.string_of_int (Z.to_int z).

(** A number as it can be stored in a property: an integer or [NaN]. *)
Inductive jsnum : Type :=
| Num (z : Z)
| NaN.

(** The values that the service interpolates into its narratives. *)
Inductive jsval : Type :=
| VUndefined
| VNumber (n : jsnum)
| VString (s : string).

Definition show_num (n : jsnum) : string :=
  match n with
  | Num z => show_Z z
  | NaN => "NaN"
  end.

(** [`${v}`] *)
Definition to_string (v : jsval) : string :=
  match v with
  | VUndefined => "undefined"
  | VNumber n => show_num n
  | VString s => s
  end.

(** [`${n}`] for a property that may be missing. *)
Definition show_opt (o : option Z) : string :=
  match o with
  | Some z => show_Z z
  | None => "undefined"
  end.

(** ToBoolean on a number. *)
Definition truthy_num (n : jsnum) : bool :=
  match n with
  | Num z => negb (z =? 0)
  | NaN => false
  end.

(** [undefined + n], [m + n], [NaN + n]. *)
Definition add_to (old : option jsnum) (n : Z) : jsnum :=
  match old with
  | Some (Num m) => Num (m + n)
  | Some NaN => NaN
  | None => NaN
  end.

(** An integer-valued number or [Infinity]. *)
Inductive extnum : Type :=
| Finite (z : Z)
| Infinity.

Definition show_ext (x : extnum) : string :=
  match x with
  | Finite z => show_Z z
  | Infinity => "Infinity"
  end.

(** [a < x] *)
Definition lt_ext (a : Z) (x : extnum) : bool :=
  match x with
  | Finite z => a <? z
  | Infinity => true
  end.

(** [a > x] *)
Definition gt_ext (a : Z) (x : extnum) : bool :=
  match x with
  | Finite z => a >? z
  | Infinity => false
  end.

(** [Math.round] on a finite double: the nearest integer, halves towards
    plus infinity. *)
Definition round (x : Q) : Z := Qfloor (x + (1 # 2)).

(** [Math.round((a / b) * 100)] on two integer-valued numbers: the quotient
    is rounded to a double, and so is its product with [100]. *)
Definition percent (a b : Z) : Z :=
  round (Binary64.mul (Binary64.div (inject_Z a) (inject_Z b)) 100).

(** [x > y] where either side may be [undefined]: a comparison with
    [undefined] is false. *)
Definition gt_opt (x : option Z) (y : Z) : bool :=
  match x with
  | Some a => a >? y
  | None => false
  end.

(** [String.prototype.toLowerCase] on the UTF-8 bytes of a string.  The
    letters [A] to [Z] and the Kelvin sign U+212A (bytes E2 84 AA, lower case
    [k]) are mapped; no other character has a lower case that is made of
    ASCII characters, so a status reaches one of the ASCII keys that the
    service reads or overwrites exactly when it does so here.  The other
    upper-case letters outside ASCII are left as they are: they only select
    which non-ASCII key of a group receives a count, and no such key is ever
    read. *)
Definition lower_ascii (c : ascii) : ascii :=
  let n := nat_of_ascii c in
  if (65 <=? n)%nat && (n <=? 90)%nat then ascii_of_nat (n + 32) else c.

Definition kelvin_sign (c1 c2 c3 : ascii) : bool :=
  (nat_of_ascii c1 =? 226)%nat && (nat_of_ascii c2 =? 132)%nat
  && (nat_of_ascii c3 =? 170)%nat.

Fixpoint toLowerCase (s : string) : string :=
  match s with
  | EmptyString => EmptyString
  | String c r =>
      match r with
      | String c2 (String c3 r') =>
          if kelvin_sign c c2 c3 then String "k" (toLowerCase r')
          else String (lower_ascii c) (toLowerCase r)
      | _ => String (lower_ascii c) (toLowerCase r)
      end
  end.

(** [a > b] on two strings: lexicographic on code units. *)
Definition string_gt (a b : string) : bool :=
  match String.compare a b with
  | Gt => true
  | _ => false
  end.

(** Digits of a string prefix, for [parseInt]. *)
Definition digit_of (c : ascii) : option Z :=
  let n := nat_of_ascii c in
  if (48 <=? n)%nat && (n <=? 57)%nat then Some (Z.of_nat (n - 48)) else None.

Fixpoint parse_digits (acc : option Z) (s : string) : option Z :=
  match s with
  | EmptyString => acc
  | String c r =>
      match digit_of c with
      | Some d =>
          parse_digits (Some (10 * match acc with Some a => a | None => 0 end + d)) r
      | None => acc
      end
  end.

(** [parseInt(s)] on a string without leading blanks and without a [0x]
    prefix (the service applies it to [`${n}%`] only): an optional sign, then
    the longest run of decimal digits; [None] stands for [NaN]. *)
Definition parseInt (s : string) : option Z :=
  match s with
  | String "-" r => option_map Z.opp (parse_digits None r)
  | String "+" r => parse_digits None r
  | _ => parse_digits None s
  end.

(** [if (c) { summary.push(line); }] as the list of lines it contributes. *)
Definition when (c : bool) (line : string) : list string :=
  if c then [line] else [].

(** [needle] occurs in [hay]. *)
Fixpoint includes (hay needle : string) : bool :=
  String.prefix needle hay ||
  match hay with
  | EmptyString => false
  | String _ r => includes r needle
  end.

End JS.

(** ** The applications table and the three queries *)

Module Db.

(** A row of table [applications] (see [db.js]).  Every text column is
    nullable; [applied_at] is kept as the instant SQLite's [julianday] reads
    from it, in milliseconds since 1970-01-01T00:00:00Z, [None] when the
    column is NULL or not a date.  The dates are taken to be written in one
    format, so that the order of the texts is the order of the instants. *)
Record application : Type := mkApplication {
  id : Z;
  company : string;
  role : string;
  status : option string;
  source : option string;
  resume_version : option string;
  applied_at : option Z
}.

(** Ordering of nullable text under [ORDER BY]: NULL first, then the BINARY
    collation. *)
Definition text_compare (a b : option string) : comparison :=
  match a, b with
  | None, None => Eq
  | None, Some _ => Lt
  | Some _, None => Gt
  | Some x, Some y => String.compare x y
  end.

Definition pair_compare (k1 k2 : option string * option string) : comparison :=
  match text_compare (fst k1) (fst k2) with
  | Eq => text_compare (snd k1) (snd k2)
  | c => c
  end.

(** A row of [SELECT col, status, COUNT( * ) as count ... GROUP BY col, status];
    [group] is [row.source] or [row.resume_version]. *)
Record row : Type := mkRow {
  group : option string;
  row_status : option string;
  count : Z
}.

(** One more record for group [k], in a result kept in [ORDER BY] order. *)
Fixpoint tally (k : option string * option string) (l : list row) : list row :=
  match l with
  | [] => [mkRow (fst k) (snd k) 1]
  | r :: rest =>
      match pair_compare k (group r, row_status r) with
      | Lt => mkRow (fst k) (snd k) 1 :: l
      | Eq => mkRow (group r) (row_status r) (count r + 1) :: rest
      | Gt => r :: tally k rest
      end
  end.

Definition group_count (col : application -> option string)
  (table : list application) : list row :=
  fold_left (fun acc a => tally (col a, status a) acc) table [].

(** [GROUP BY source, status ORDER BY source, status] *)
Definition by_source : list application -> list row := group_count source.

(** [GROUP BY resume_version, status ORDER BY resume_version, status] *)
Definition by_resume_version : list application -> list row :=
  group_count resume_version.

(** The statuses selected by [WHERE status IN ('Interview', 'Offer',
    'Rejected')]. *)
Inductive terminal : Type := Interview | Offer | Rejected.

Definition terminal_of (s : option string) : option terminal :=
  match s with
  | Some "Interview" => Some Interview
  | Some "Offer" => Some Offer
  | Some "Rejected" => Some Rejected
  | _ => None
  end.

(** A row of the response-time query, with the two columns the service
    reads.  [days_since_applied] is [julianday('now') - julianday(applied_at)],
    NULL when [applied_at] is not a date. *)
Record timed : Type := mkTimed {
  timed_status : terminal;
  days_since_applied : option Q
}.

(** Midnight of 1 January 1970 in milliseconds of the Julian day count. *)
Definition unix_epoch : Z := 210866760000000.

(** [julianday(t)]: SQLite holds an instant as a whole number of
    milliseconds of the Julian day count and returns it divided by
    [86400000.0]. *)
Definition julianday (t : Z) : Q :=
  Binary64.div (inject_Z (t + unix_epoch)) 86400000.

(** [julianday('now') - julianday(applied_at)], a difference of two
    doubles. *)
Definition days_between (now : Z) (applied : option Z) : option Q :=
  option_map (fun a => Binary64.sub (julianday now) (julianday a)) applied.

(** Order of [applied_at] under [ORDER BY]: NULL first.  A text that is not
    a date stands among the dates in the program and with the NULLs here; its
    day is NULL and adds nothing to a sum, wherever its row stands. *)
Definition instant_leb (a b : option Z) : bool :=
  match a, b with
  | None, _ => true
  | Some _, None => false
  | Some x, Some y => x <=? y
  end.

(** One more record in a result kept in [ORDER BY applied_at] order, after
    the records that are not later. *)
Fixpoint insert_by_date (a : application) (l : list application)
  : list application :=
  match l with
  | [] => [a]
  | b :: rest =>
      if instant_leb (applied_at b) (applied_at a)
      then b :: insert_by_date a rest
      else a :: l
  end.

(** [ORDER BY applied_at] *)
Definition order_by_applied_at (table : list application) : list application :=
  fold_left (fun acc a => insert_by_date a acc) table [].

(** [WHERE status IN ('Interview', 'Offer', 'Rejected')] with the computed
    column, on records taken in the given order. *)
Fixpoint select_completed (now : Z) (table : list application) : list timed :=
  match table with
  | [] => []
  | a :: rest =>
      match terminal_of (status a) with
      | Some t =>
          mkTimed t (days_between now (applied_at a)) :: select_completed now rest
      | None => select_completed now rest
      end
  end.

(** The response-time query at instant [now]. *)
Definition completed (now : Z) (table : list application) : list timed :=
  select_completed now (order_by_applied_at table).

End Db.

(** ** Objects, [Object.prototype] and abrupt completion *)

Module Heap.
Import JS.

(** The part of the realm that outlives a call: the data properties that
    have been written onto [Object.prototype], and whether [Object.entries]
    and [Object.keys] are still the built-in functions. *)
Record heap : Type := mkHeap {
  proto : list (string * jsnum);
  entries_intact : bool;
  keys_intact : bool
}.

(** The realm of a fresh process. *)
Definition initial : heap := mkHeap [] true true.

(** Outcome of evaluating a piece of code: a value, or a thrown [TypeError]. *)
Inductive completion (A : Type) : Type :=
| Normal (a : A)
| Throw.
Arguments Normal {A} a.
Arguments Throw {A}.

(** Code that runs in a realm, may change it and may throw; the realm keeps
    the writes made before a throw. *)
Definition M (A : Type) : Type := heap -> completion A * heap.

Definition ret {A} (a : A) : M A := fun h => (Normal a, h).

Definition bind {A B} (m : M A) (k : A -> M B) : M B :=
  fun h =>
    match m h with
    | (Normal a, h') => k a h'
    | (Throw, h') => (Throw, h')
    end.

Definition throw {A} : M A := fun h => (Throw, h).

Definition get_heap : M heap := fun h => (Normal h, h).

Definition put_heap (h : heap) : M unit := fun _ => (Normal tt, h).

Declare Scope js_scope.
Delimit Scope js_scope with js.
Notation "x <- m ;; k" := (bind m (fun x => k))
  (at level 100, m at next level, right associativity) : js_scope.
Notation "m ;; k" := (bind m (fun _ => k))
  (at level 100, right associativity) : js_scope.
Local Open Scope js_scope.

(** [list.forEach] / [for ... of] with an accumulated local state. *)
Fixpoint forEach {A S} (body : A -> S -> M S) (l : list A) (s : S) : M S :=
  match l with
  | [] => ret s
  | a :: rest => s' <- body a s ;; forEach body rest s'
  end.

(** *** Own properties *)

Fixpoint own_get {A} (k : string) (o : list (string * A)) : option A :=
  match o with
  | [] => None
  | (k', v) :: rest => if String.eqb k k' then Some v else own_get k rest
  end.

(** [o[k] = v]: an existing property keeps its place, a new one goes last. *)
Fixpoint own_set {A} (k : string) (v : A) (o : list (string * A)) : list (string * A) :=
  match o with
  | [] => [(k, v)]
  | (k', v') :: rest =>
      if String.eqb k k' then (k', v) :: rest else (k', v') :: own_set k v rest
  end.

(** *** Property order *)

Fixpoint all_digits (s : string) : bool :=
  match s with
  | EmptyString => true
  | String c r =>
      match digit_of c with
      | Some _ => all_digits r
      | None => false
      end
  end.

(** An array index: the canonical decimal form of an integer of
    [0 .. 2^32 - 2]. *)
Definition array_index (s : string) : option Z :=
  match s with
  | EmptyString => None
  | String c r =>
      if all_digits s && (negb (Ascii.eqb c "0") || String.eqb r EmptyString) then
        match parse_digits None s with
        | Some v => if v <=? 4294967294 then Some v else None
        | None => None
        end
      else None
  end.

Fixpoint insert_index {A} (i : Z) (e : string * A) (l : list (Z * (string * A)))
  : list (Z * (string * A)) :=
  match l with
  | [] => [(i, e)]
  | (j, e') :: rest =>
      if i <? j then (i, e) :: l else (j, e') :: insert_index i e rest
  end.

Fixpoint indexed {A} (o : list (string * A)) : list (Z * (string * A)) :=
  match o with
  | [] => []
  | (k, v) :: rest =>
      match array_index k with
      | Some i => insert_index i (k, v) (indexed rest)
      | None => indexed rest
      end
  end.

Fixpoint named {A} (o : list (string * A)) : list (string * A) :=
  match o with
  | [] => []
  | (k, v) :: rest =>
      match array_index k with
      | Some _ => named rest
      | None => (k, v) :: named rest
      end
  end.

(** Own property order: array indices ascending, then the other keys in
    insertion order. *)
Definition own_entries {A} (o : list (string * A)) : list (string * A) :=
  map snd (indexed o) ++ named o.

(** [Object.entries(o)]: a call of whatever [Object.entries] now holds. *)
Definition Object_entries {A} (o : list (string * A)) : M (list (string * A)) :=
  h <- get_heap ;;
  if entries_intact h then ret (own_entries o) else throw.

(** [Object.keys(o)] *)
Definition Object_keys {A} (o : list (string * A)) : M (list string) :=
  h <- get_heap ;;
  if keys_intact h then ret (map fst (own_entries o)) else throw.

(** *** Inherited properties *)

(** The methods of a pristine [Object.prototype] other than [constructor]. *)
Definition builtin_methods : list string :=
  [ "__defineGetter__"; "__defineSetter__"; "hasOwnProperty";
    "__lookupGetter__"; "__lookupSetter__"; "isPrototypeOf";
    "propertyIsEnumerable"; "toString"; "valueOf"; "toLocaleString" ].

(** What [o[k]] finds when [o] has no own property [k]. *)
Inductive inherited : Type :=
| Missing                       (* undefined *)
| Stored (n : jsnum)            (* a number written onto Object.prototype *)
| Method (is_Object : bool)     (* a built-in function; Object itself for constructor *)
| Prototype.                    (* the __proto__ accessor: Object.prototype itself *)

Definition inherited_get (h : heap) (k : string) : inherited :=
  if String.eqb k "__proto__" then Prototype
  else
    match own_get k (proto h) with
    | Some n => Stored n
    | None =>
        if String.eqb k "constructor" then Method true
        else if existsb (String.eqb k) builtin_methods then Method false
        else Missing
    end.

(** [x[k]] for a key that names no built-in, on an object without own [k]. *)
Definition inherited_value (h : heap) (k : string) : jsval :=
  match own_get k (proto h) with
  | Some n => VNumber n
  | None => VUndefined
  end.

(** [Object.prototype.total += n] *)
Definition proto_add_total (n : Z) : M unit :=
  h <- get_heap ;;
  put_heap (mkHeap (own_set "total" (add_to (own_get "total" (proto h)) n) (proto h))
                   (entries_intact h) (keys_intact h)).

(** [Object.prototype[k] = n]; the [__proto__] setter ignores a number. *)
Definition proto_put (k : string) (n : Z) : M unit :=
  if String.eqb k "__proto__" then ret tt
  else
    h <- get_heap ;;
    put_heap (mkHeap (own_set k (Num n) (proto h)) (entries_intact h) (keys_intact h)).

(** [f[k] = n] on a built-in function [f], in strict code.  [name] and
    [length] (and [prototype] of [Object]) are read-only, [caller] and
    [arguments] are throwing accessors of [Function.prototype]; any other key
    becomes an own property of [f], which replaces the built-in when [f] is
    [Object] and the key is [entries] or [keys]. *)
Definition method_put (is_Object : bool) (k : string) : M unit :=
  if existsb (String.eqb k) ["name"; "length"; "caller"; "arguments"] then throw
  else if is_Object && String.eqb k "prototype" then throw
  else if is_Object && String.eqb k "entries" then
    h <- get_heap ;; put_heap (mkHeap (proto h) false (keys_intact h))
  else if is_Object && String.eqb k "keys" then
    h <- get_heap ;; put_heap (mkHeap (proto h) (entries_intact h) false)
  else ret tt.

End Heap.


(** ** The insight service *)

Module InsightService.
Import JS Heap.
Local Open Scope js_scope.

(** *** Grouping the rows of a query *)

(** The per-group object [{ total, rejected, applied, interview, offer }] of
    [sourceData] and [versionData], with the further properties that rows
    with another status add to it. *)
Record data : Type := mkData {
  total : Z;
  rejected : Z;
  applied : Z;
  interview : Z;
  offer : Z;
  others : list (string * Z)
}.

Definition fresh_data : data := mkData 0 0 0 0 0 [].

(** [d.total += n] *)
Definition add_total (n : Z) (d : data) : data :=
  mkData (total d + n) (rejected d) (applied d) (interview d) (offer d) (others d).

(** [d[k] = n] for a computed key; the inherited [__proto__] setter ignores a
    number. *)
Definition data_put (k : string) (n : Z) (d : data) : data :=
  if String.eqb k "total" then
    mkData n (rejected d) (applied d) (interview d) (offer d) (others d)
  else if String.eqb k "rejected" then
    mkData (total d) n (applied d) (interview d) (offer d) (others d)
  else if String.eqb k "applied" then
    mkData (total d) (rejected d) n (interview d) (offer d) (others d)
  else if String.eqb k "interview" then
    mkData (total d) (rejected d) (applied d) n (offer d) (others d)
  else if String.eqb k "offer" then
    mkData (total d) (rejected d) (applied d) (interview d) n (others d)
  else if String.eqb k "__proto__" then d
  else
    mkData (total d) (rejected d) (applied d) (interview d) (offer d)
           (own_set k n (others d)).

(** The property key that [row.source] or [row.resume_version] denotes. *)
Definition property_key (v : option string) : string :=
  match v with
  | Some s => s
  | None => "null"
  end.

(** [row.status.toLowerCase()]; a NULL status has no such method. *)
Definition status_key (r : Db.row) : M string :=
  match Db.row_status r with
  | Some s => ret (toLowerCase s)
  | None => throw
  end.

(** The body of [results.forEach(row => ...)], the same in both analyzers:
<<
   if (!groups[row.key]) { groups[row.key] = { total: 0, ... }; }
   groups[row.key].total += row.count;
   groups[row.key][row.status.toLowerCase()] = row.count;
>>
    [groups[row.key]] is an own group object, or, when there is none, what
    the prototype chain of [{}] gives: nothing or a falsy number (the group is
    created), a truthy number (the first assignment is a write to a number
    and throws in strict code), a built-in method, or [Object.prototype]
    itself (both assignments then land on that object, not in [groups]). *)
Definition organize (r : Db.row) (groups : list (string * data))
  : M (list (string * data)) :=
  let key := property_key (Db.group r) in
  let update (d : data) :=
    k <- status_key r ;;
    ret (own_set key (data_put k (Db.count r) (add_total (Db.count r) d)) groups) in
  match own_get key groups with
  | Some d => update d
  | None =>
      h <- get_heap ;;
      match inherited_get h key with
      | Missing => update fresh_data
      | Stored n => if truthy_num n then throw else update fresh_data
      | Method is_Object =>
          k <- status_key r ;;
          method_put is_Object k ;;
          ret groups
      | Prototype =>
          proto_add_total (Db.count r) ;;
          k <- status_key r ;;
          proto_put k (Db.count r) ;;
          ret groups
      end
  end.

(** The accumulator of a [reduce] whose initial value is an object literal
    carrying one property only: that seed, or an element of the array. *)
Inductive picked (V A : Type) : Type :=
| Seed (v : V)
| Element (a : A).
Arguments Seed {V A} v.
Arguments Element {V A} a.

(** *** Rejection rate by source *)

Module SourceInsight.
Record t : Type := mk {
  source : string;
  totalApplications : Z;
  rejectionRate : Z;
  rejectionCount : Z;
  successRate : Z
}.
End SourceInsight.

(** An element of the returned [insights]: the two rates are strings. *)
Module SourceEntry.
Record t : Type := mk {
  source : string;
  totalApplications : Z;
  rejectionRate : string;
  rejectionCount : Z;
  successRate : string
}.
End SourceEntry.

Record RejectionReport : Type := mkRejectionReport {
  rejection_success : bool;
  insights : list SourceEntry.t;
  rejection_summary : string
}.

(** The body of [for (const [source, data] of Object.entries(sourceData))]. *)
Definition source_insight (e : string * data) : SourceInsight.t :=
  let (source, d) := e in
  let rejectionRate :=
    if total d >? 0 then percent (rejected d) (total d) else 0 in
  SourceInsight.mk source (total d) rejectionRate (rejected d) (100 - rejectionRate).

Definition rate_of (p : picked Z SourceInsight.t) : Z :=
  match p with
  | Seed r => r
  | Element i => SourceInsight.rejectionRate i
  end.

(** [insights.reduce((max, insight) =>
      insight.rejectionRate > max.rejectionRate ? insight : max,
      { rejectionRate: 0 })] *)
Definition highestRejection (l : list SourceInsight.t) : picked Z SourceInsight.t :=
  fold_left
    (fun max insight =>
       if SourceInsight.rejectionRate insight >? rate_of max then Element insight else max)
    l (Seed 0).

(** [insights.reduce((min, insight) =>
      insight.rejectionRate < min.rejectionRate ? insight : min,
      { rejectionRate: 100 })] *)
Definition lowestRejection (l : list SourceInsight.t) : picked Z SourceInsight.t :=
  fold_left
    (fun min insight =>
       if SourceInsight.rejectionRate insight <? rate_of min then Element insight else min)
    l (Seed 100).

(** [x.source]: the seed has no such property and inherits one, if any. *)
Definition source_of (h : heap) (p : picked Z SourceInsight.t) : jsval :=
  match p with
  | Seed _ => inherited_value h "source"
  | Element i => VString (SourceInsight.source i)
  end.

(** [x.successRate] *)
Definition success_of (p : picked Z SourceInsight.t) : option Z :=
  match p with
  | Seed _ => None
  | Element i => Some (SourceInsight.successRate i)
  end.

Definition _generateRejectionRateSummary (h : heap) (insights : list SourceInsight.t)
  (highest lowest : picked Z SourceInsight.t) : string :=
  let header :=
    "📊 **Rejection Rate Analysis** (Based on "
    ++ show_Z (fold_left (fun sum i => sum + SourceInsight.totalApplications i) insights 0)
    ++ " total applications)" in
  if (List.length insights =? 0)%nat then
    join_lines [header; "No application data available for analysis."]
  else
    join_lines (List.concat
      [ [ header;
          nl ++ "🎯 **Best Performing Source**: " ++ to_string (source_of h lowest)
             ++ " with only " ++ show_Z (rate_of lowest) ++ "% rejection rate";
          "🚨 **Highest Rejection Source**: " ++ to_string (source_of h highest)
             ++ " with " ++ show_Z (rate_of highest) ++ "% rejection rate" ];
        when (rate_of highest >? 50)
          (nl ++ "⚠️ **Recommendation**: Consider improving your approach for "
              ++ to_string (source_of h highest) ++ " applications.");
        when (gt_opt (success_of lowest) 70)
          ("✅ **Success Pattern**: Your strategy for "
              ++ to_string (source_of h lowest) ++ " is working well - keep it up!");
        [ nl ++ "📋 **Detailed Breakdown**:" ];
        map (fun insight =>
               "- " ++ SourceInsight.source insight ++ ": "
               ++ show_Z (SourceInsight.rejectionRate insight) ++ " rejection rate ("
               ++ show_Z (SourceInsight.rejectionCount insight) ++ " rejections out of "
               ++ show_Z (SourceInsight.totalApplications insight) ++ " applications)")
            insights ]).

(** [insights.map(insight => ({ ..., rejectionRate: `${insight.rejectionRate}%`,
    ..., successRate: `${insight.successRate}%` }))] *)
Definition source_entry (i : SourceInsight.t) : SourceEntry.t :=
  SourceEntry.mk (SourceInsight.source i) (SourceInsight.totalApplications i)
    (show_Z (SourceInsight.rejectionRate i) ++ "%")
    (SourceInsight.rejectionCount i)
    (show_Z (SourceInsight.successRate i) ++ "%").

(** The array [insights] that [getRejectionRateBySource] builds from
    [results = stmt.all()]. *)
Definition source_insights (results : list Db.row) : M (list SourceInsight.t) :=
  sourceData <- forEach organize results [] ;;
  entries <- Object_entries sourceData ;;
  ret (map source_insight entries).

(** [getRejectionRateBySource] from the point where [results = stmt.all()]. *)
Definition rejection_report_of (results : list Db.row) : M RejectionReport :=
  insights <- source_insights results ;;
  h <- get_heap ;;
  ret (mkRejectionReport true (map source_entry insights)
         (_generateRejectionRateSummary h insights
            (highestRejection insights) (lowestRejection insights))).

Definition getRejectionRateBySource (table : list Db.application) : M RejectionReport :=
  rejection_report_of (Db.by_source table).

(** *** Best performing resume version *)

Module VersionInsight.
Record t : Type := mk {
  version : string;
  totalApplications : Z;
  rejectionRate : Z;
  successRate : Z;
  interviewRate : Z;
  offerRate : Z
}.
End VersionInsight.

Record ResumeReport : Type := mkResumeReport {
  resume_success : bool;
  versions : list VersionInsight.t;
  resume_summary : string
}.

(** The body of [for (const [version, data] of Object.entries(versionData))]. *)
Definition version_insight (e : string * data) : VersionInsight.t :=
  let (version, d) := e in
  let rejectionRate :=
    if total d >? 0 then percent (rejected d) (total d) else 0 in
  let successRate :=
    if total d >? 0 then percent (interview d + offer d) (total d) else 0 in
  VersionInsight.mk version (total d) rejectionRate successRate
    (if total d >? 0 then percent (interview d) (total d) else 0)
    (if total d >? 0 then percent (offer d) (total d) else 0).

Definition success_rate_of (p : picked Z VersionInsight.t) : Z :=
  match p with
  | Seed r => r
  | Element v => VersionInsight.successRate v
  end.

(** [versionInsights.reduce((best, version) =>
      version.successRate > best.successRate ? version : best,
      { successRate: 0 })] *)
Definition bestVersion (l : list VersionInsight.t) : picked Z VersionInsight.t :=
  fold_left
    (fun best version =>
       if VersionInsight.successRate version >? success_rate_of best
       then Element version else best)
    l (Seed 0).

(** [versionInsights.reduce((worst, version) =>
      version.successRate < worst.successRate ? version : worst,
      { successRate: 100 })] *)
Definition worstVersion (l : list VersionInsight.t) : picked Z VersionInsight.t :=
  fold_left
    (fun worst version =>
       if VersionInsight.successRate version <? success_rate_of worst
       then Element version else worst)
    l (Seed 100).

(** [x.version]: inherited, if at all, by the seed. *)
Definition version_of (h : heap) (p : picked Z VersionInsight.t) : jsval :=
  match p with
  | Seed _ => inherited_value h "version"
  | Element v => VString (VersionInsight.version v)
  end.

(** A property that the seed does not carry. *)
Definition field_of (f : VersionInsight.t -> Z) (p : picked Z VersionInsight.t)
  : option Z :=
  match p with
  | Seed _ => None
  | Element v => Some (f v)
  end.

Definition _generateResumeVersionSummary (h : heap)
  (versionInsights : list VersionInsight.t)
  (best worst : picked Z VersionInsight.t) : string :=
  let header := "📄 **Resume Version Performance Analysis**" in
  if (List.length versionInsights =? 0)%nat then
    join_lines [header; "No resume version data available for analysis."]
  else
    join_lines (List.concat
      [ [ header;
          nl ++ "🏆 **Best Performing Version**: Resume " ++ to_string (version_of h best);
          "   - Success Rate: " ++ show_Z (success_rate_of best) ++ "%";
          "   - Interview Rate: "
             ++ show_opt (field_of VersionInsight.interviewRate best) ++ "%";
          "   - Offer Rate: " ++ show_opt (field_of VersionInsight.offerRate best) ++ "%";
          "   - Total Applications: "
             ++ show_opt (field_of VersionInsight.totalApplications best);
          nl ++ "👎 **Lowest Performing Version**: Resume "
             ++ to_string (version_of h worst);
          "   - Success Rate: " ++ show_Z (success_rate_of worst) ++ "%";
          "   - Interview Rate: "
             ++ show_opt (field_of VersionInsight.interviewRate worst) ++ "%";
          "   - Offer Rate: " ++ show_opt (field_of VersionInsight.offerRate worst) ++ "%";
          "   - Total Applications: "
             ++ show_opt (field_of VersionInsight.totalApplications worst) ];
        when (success_rate_of best >? success_rate_of worst + 20)
          (nl ++ "💡 **Recommendation**: Consider using Resume "
              ++ to_string (version_of h best) ++ " as your primary template.");
        when (gt_opt (field_of VersionInsight.rejectionRate worst) 60)
          ("⚠️ **Warning**: Resume " ++ to_string (version_of h worst)
              ++ " has a high rejection rate - consider revising it.");
        [ nl ++ "📊 **All Resume Versions**:" ];
        map (fun version =>
               "- Resume " ++ VersionInsight.version version ++ ": "
               ++ show_Z (VersionInsight.successRate version) ++ "% success rate ("
               ++ show_Z (VersionInsight.interviewRate version) ++ "% interviews, "
               ++ show_Z (VersionInsight.offerRate version) ++ "% offers)")
            versionInsights ]).

(** The array [versionInsights] that [getBestPerformingResumeVersion] builds
    from [results = stmt.all()]. *)
Definition version_insights (results : list Db.row) : M (list VersionInsight.t) :=
  versionData <- forEach organize results [] ;;
  entries <- Object_entries versionData ;;
  ret (map version_insight entries).

(** [getBestPerformingResumeVersion] from the point where
    [results = stmt.all()]. *)
Definition resume_report_of (results : list Db.row) : M ResumeReport :=
  versionInsights <- version_insights results ;;
  h <- get_heap ;;
  ret (mkResumeReport true versionInsights
         (_generateResumeVersionSummary h versionInsights
            (bestVersion versionInsights) (worstVersion versionInsights))).

Definition getBestPerformingResumeVersion (table : list Db.application)
  : M ResumeReport :=
  resume_report_of (Db.by_resume_version table).

(** *** Average response time *)

Definition status_name (t : Db.terminal) : string :=
  match t with
  | Db.Interview => "Interview"
  | Db.Offer => "Offer"
  | Db.Rejected => "Rejected"
  end.

(** The [{ status, avg }] objects of the two reductions. *)
Record response : Type := mkResponse {
  status : string;
  avg : extnum
}.

(** [averages] is [None] when the returned object has no such property. *)
Record ResponseTimeReport : Type := mkResponseTimeReport {
  response_success : bool;
  averages : option (list (string * Z));
  response_summary : string
}.

(** [if (statusGroups[app.status]) statusGroups[app.status].push(...)] *)
Definition push_days (app : Db.timed) (statusGroups : list (string * list (option Q)))
  : list (string * list (option Q)) :=
  let key := status_name (Db.timed_status app) in
  match own_get key statusGroups with
  | Some days => own_set key (days ++ [Db.days_since_applied app])%list statusGroups
  | None => statusGroups
  end.

(** [sum + day]; a NULL day counts as [0]. *)
Definition add_day (sum : Q) (day : option Q) : Q :=
  match day with
  | Some d => Binary64.add sum d
  | None => Binary64.add sum 0
  end.

(** The body of [for (const [status, days] of Object.entries(statusGroups))]. *)
Definition average_into (e : string * list (option Q)) (averages : list (string * Z))
  : list (string * Z) :=
  let (status, days) := e in
  if (0 <? List.length days)%nat then
    let avg :=
      Binary64.div (fold_left add_day days 0%Q)
        (inject_Z (Z.of_nat (List.length days))) in
    own_set status (round avg) averages
  else averages.

(** [statusGroups] once [applications.forEach] has filled it. *)
Definition status_groups (applications : list Db.timed)
  : list (string * list (option Q)) :=
  fold_left (fun groups app => push_days app groups) applications
    [("Interview", []); ("Offer", []); ("Rejected", [])].

(** [averages] once the loop over [Object.entries(statusGroups)] has run. *)
Definition averages_of (entries : list (string * list (option Q)))
  : list (string * Z) :=
  fold_left (fun averages e => average_into e averages) entries [].

(** [statusesWithAverages.reduce((fastest, [status, avg]) =>
      avg < fastest.avg ? { status, avg } : fastest,
      { status: '', avg: Infinity })] *)
Definition fastestResponse (statusesWithAverages : list (string * Z)) : response :=
  fold_left
    (fun fastest e =>
       if lt_ext (snd e) (avg fastest) then mkResponse (fst e) (Finite (snd e))
       else fastest)
    statusesWithAverages (mkResponse EmptyString Infinity).

(** [statusesWithAverages.reduce((slowest, [status, avg]) =>
      avg > slowest.avg ? { status, avg } : slowest,
      { status: '', avg: 0 })] *)
Definition slowestResponse (statusesWithAverages : list (string * Z)) : response :=
  fold_left
    (fun slowest e =>
       if gt_ext (snd e) (avg slowest) then mkResponse (fst e) (Finite (snd e))
       else slowest)
    statusesWithAverages (mkResponse EmptyString (Finite 0)).

(** [averages.Interview && averages.Interview < n] and the like: the property
    is there and not [0], and the test holds. *)
Definition present_and (test : Z -> bool) (o : option Z) : bool :=
  match o with
  | Some z => negb (z =? 0) && test z
  | None => false
  end.

Definition _generateResponseTimeSummary (averages : list (string * Z))
  (fastest slowest : response) (applications : list Db.timed) : M string :=
  let header :=
    "⏱️ **Response Time Analysis** (Based on "
    ++ show_Z (Z.of_nat (List.length applications)) ++ " completed applications)" in
  keys <- Object_keys averages ;;
  if (List.length keys =? 0)%nat then
    ret (join_lines [header; "No response time data available for analysis."])
  else
    let Interview := own_get "Interview" averages in
    let Offer := own_get "Offer" averages in
    let Rejected := own_get "Rejected" averages in
    ret (join_lines (List.concat
      [ [ header;
          nl ++ "🏃 **Fastest Response**: " ++ status fastest ++ " in "
             ++ show_ext (avg fastest) ++ " days on average";
          "🐢 **Slowest Response**: " ++ status slowest ++ " in "
             ++ show_ext (avg slowest) ++ " days on average";
          nl ++ "📊 **Average Response Times**:" ];
        when (present_and (fun _ => true) Interview)
          ("- Interview: " ++ show_opt Interview ++ " days from application");
        when (present_and (fun _ => true) Offer)
          ("- Offer: " ++ show_opt Offer ++ " days from application");
        when (present_and (fun _ => true) Rejected)
          ("- Rejection: " ++ show_opt Rejected ++ " days from application");
        when (present_and (fun z => z <? 7) Interview)
          (nl ++ "✅ **Positive Insight**: Getting interviews quickly (under 7 days) suggests your applications are strong.");
        when (present_and (fun z => z <? 14) Offer)
          "✅ **Excellent Performance**: Receiving offers in under 2 weeks is very competitive.";
        when (present_and (fun z => z <? 5) Rejected)
          (nl ++ "⚠️ **Quick Rejections**: Being rejected in under 5 days might indicate your applications aren't getting proper consideration.");
        when (present_and (fun z => z >? 21) Interview)
          (nl ++ "💡 **Recommendation**: Consider following up on applications if you don't hear back within 2-3 weeks.") ])).

(** [getAverageResponseTime] from the point where
    [applications = stmt.all()]. *)
Definition response_report_of (applications : list Db.timed) : M ResponseTimeReport :=
  if (List.length applications =? 0)%nat then
    ret (mkResponseTimeReport true None
           "📊 **Response Time Analysis**: No completed applications (Interview/Offer/Rejected) found in the database.")
  else
    entries <- Object_entries (status_groups applications) ;;
    let averages := averages_of entries in
    statusesWithAverages <- Object_entries averages ;;
    summary <- _generateResponseTimeSummary averages
                 (fastestResponse statusesWithAverages)
                 (slowestResponse statusesWithAverages) applications ;;
    ret (mkResponseTimeReport true (Some averages) summary).

(** [now] is the instant at which SQLite evaluates [julianday('now')]. *)
Definition getAverageResponseTime (now : Z) (table : list Db.application)
  : M ResponseTimeReport :=
  response_report_of (Db.completed now table).

(** *** Comprehensive insights *)

Record DetailedInsights : Type := mkDetailedInsights {
  rejectionRate : RejectionReport;
  resumePerformance : ResumeReport;
  responseTime : ResponseTimeReport
}.

Record ComprehensiveReport : Type := mkComprehensiveReport {
  success : bool;
  comprehensiveSummary : string;
  detailedInsights : DetailedInsights
}.

Definition entry_success_of (p : picked string SourceEntry.t) : string :=
  match p with
  | Seed s => s
  | Element e => SourceEntry.successRate e
  end.

(** [rejectionInsights.insights.reduce((best, insight) =>
      insight.successRate > best.successRate ? insight : best,
      { successRate: '0%' })]: both sides of [>] are strings. *)
Definition bestSource (l : list SourceEntry.t) : picked string SourceEntry.t :=
  fold_left
    (fun best insight =>
       if string_gt (SourceEntry.successRate insight) (entry_success_of best)
       then Element insight else best)
    l (Seed "0%").

Definition entry_source_of (h : heap) (p : picked string SourceEntry.t) : jsval :=
  match p with
  | Seed _ => inherited_value h "source"
  | Element e => VString (SourceEntry.source e)
  end.

(** [resumeInsights.versions.reduce((best, version) =>
      version.successRate > best.successRate ? version : best,
      { successRate: 0 })] *)
Definition bestResume (l : list VersionInsight.t) : picked Z VersionInsight.t :=
  fold_left
    (fun best version =>
       if VersionInsight.successRate version >? success_rate_of best
       then Element version else best)
    l (Seed 0).

(** The key-findings lines on response times:
<<
   if (r.averages && Object.keys(r.averages).length > 0) { ... }
>>
    A report without [averages] inherits the property, if at all, as a
    number, whose [Object.keys] is empty. *)
Definition response_findings (r : ResponseTimeReport) : M (list string) :=
  match averages r with
  | Some avgResponse =>
      keys <- Object_keys avgResponse ;;
      if (0 <? List.length keys)%nat then
        ret (List.concat
          [ when (present_and (fun _ => true) (own_get "Interview" avgResponse))
              ("⏱️ Average time to interview: "
                 ++ show_opt (own_get "Interview" avgResponse) ++ " days");
            when (present_and (fun _ => true) (own_get "Offer" avgResponse))
              ("💼 Average time to offer: "
                 ++ show_opt (own_get "Offer" avgResponse) ++ " days") ])
      else ret []
  | None =>
      h <- get_heap ;;
      match inherited_value h "averages" with
      | VNumber n =>
          if truthy_num n then
            (_ <- Object_keys (@nil (string * Z)) ;; ret [])
          else ret []
      | _ => ret []
      end
  end.

(** [r.averages && r.averages.Interview > 14]; a number has no [Interview]. *)
Definition slow_interviews (r : ResponseTimeReport) : bool :=
  match averages r with
  | Some a => gt_opt (own_get "Interview" a) 14
  | None => false
  end.

Definition getComprehensiveInsights (now : Z) (table : list Db.application)
  : M ComprehensiveReport :=
  rejectionInsights <- getRejectionRateBySource table ;;
  resumeInsights <- getBestPerformingResumeVersion table ;;
  responseTimeInsights <- getAverageResponseTime now table ;;
  h <- get_heap ;;
  let source_finding :=
    when (0 <? List.length (insights rejectionInsights))%nat
      (let best := bestSource (insights rejectionInsights) in
       "✅ Your best application source is " ++ to_string (entry_source_of h best)
         ++ " with " ++ entry_success_of best ++ " success rate.") in
  let resume_finding :=
    when (0 <? List.length (versions resumeInsights))%nat
      (let best := bestResume (versions resumeInsights) in
       "📄 Your best performing resume is version " ++ to_string (version_of h best)
         ++ " with " ++ show_Z (success_rate_of best) ++ "% success rate.") in
  time_findings <- response_findings responseTimeInsights ;;
  ret (mkComprehensiveReport true
         (join_lines (List.concat
            [ [ "📊 **COMPREHENSIVE JOB APPLICATION INSIGHTS**";
                "============================================" ++ nl;
                "🔍 **Key Findings**:" ++ nl ];
              source_finding;
              resume_finding;
              time_findings;
              [ nl ++ "💡 **Recommendations**:" ++ nl ];
              when (existsb (fun i => gt_opt (parseInt (SourceEntry.rejectionRate i)) 50)
                      (insights rejectionInsights))
                "🚨 Consider improving your application strategy for sources with high rejection rates.";
              when (existsb (fun v => VersionInsight.successRate v <? 30)
                      (versions resumeInsights))
                "📝 Review and update low-performing resume versions.";
              when (slow_interviews responseTimeInsights)
                "⏰ Follow up on applications after 2 weeks if you haven't heard back.";
              [ nl ++ "📈 **Detailed Analysis**:";
                nl ++ rejection_summary rejectionInsights;
                nl ++ resume_summary resumeInsights;
                nl ++ response_summary responseTimeInsights ] ]))
         (mkDetailedInsights rejectionInsights resumeInsights responseTimeInsights)).

End InsightService.


(** ** The route that serves the report *)

Module Routes.
Import Heap InsightService.

(** What [res.json(...)] or [res.status(500).json(...)] sends. *)
Inductive body : Type :=
| Report (insights : ComprehensiveReport)
| Error (error : string).

Record response : Type := mkResponse {
  status_code : Z;
  json : body
}.

(** [router.get('/insights', ...)] of [routes/applications.js]:
<<
   try { const insights = insightService.getComprehensiveInsights();
         res.json(insights); }
   catch (error) { res.status(500).json({ error: 'Failed to generate insights' }); }
>> *)
Definition get_insights (now : Z) (table : list Db.application)
  : heap -> response * heap :=
  fun h =>
    match getComprehensiveInsights now table h with
    | (Normal insights, h') => (mkResponse 200 (Report insights), h')
    | (Throw, h') => (mkResponse 500 (Error "Failed to generate insights"), h')
    end.

End Routes.
(** * Predicates and sample tables *)

Import JS Heap InsightService.
Local Open Scope js_scope.

(** [rate] is an integer nearest to the exact percentage that [part] is of
    [whole]; when the exact percentage lies halfway between two integers,
    either of them is. *)
Definition nearest_percentage (rate part whole : Z) : Prop :=
  2 * Z.abs (whole * rate - 100 * part) <= whole.

(** The rate formula of one group, read off the insight built for it:
    [Math.round((rejected / total) * 100)] as the binary64 arithmetic of
    JavaScript evaluates it, which on groups of fewer than [2 ^ 44]
    applications is an integer nearest to the exact percentage. *)
Definition source_rates_ok (i : SourceInsight.t) : Prop :=
  (0 < SourceInsight.totalApplications i ->
     SourceInsight.rejectionRate i
     = percent (SourceInsight.rejectionCount i) (SourceInsight.totalApplications i)) /\
  (0 <= SourceInsight.rejectionCount i <= SourceInsight.totalApplications i ->
   0 < SourceInsight.totalApplications i < 2 ^ 44 ->
     nearest_percentage (SourceInsight.rejectionRate i)
       (SourceInsight.rejectionCount i) (SourceInsight.totalApplications i)) /\
  (SourceInsight.totalApplications i <= 0 -> SourceInsight.rejectionRate i = 0) /\
  SourceInsight.successRate i = 100 - SourceInsight.rejectionRate i /\
  SourceInsight.rejectionRate i + SourceInsight.successRate i = 100.

(** The rate formulas of one resume-version group [d], read off the insight
    [v] built for it: each rate is [Math.round((count / total) * 100)] in
    binary64 arithmetic, over its own count, and on groups of fewer than
    [2 ^ 44] applications an integer nearest to the exact percentage. *)
Definition version_rates_ok (d : data) (v : VersionInsight.t) : Prop :=
  VersionInsight.totalApplications v = total d /\
  (0 < total d ->
     VersionInsight.successRate v = percent (interview d + offer d) (total d) /\
     VersionInsight.rejectionRate v = percent (rejected d) (total d) /\
     VersionInsight.interviewRate v = percent (interview d) (total d) /\
     VersionInsight.offerRate v = percent (offer d) (total d)) /\
  (0 < total d < 2 ^ 44 ->
     (0 <= interview d + offer d <= total d ->
        nearest_percentage (VersionInsight.successRate v)
          (interview d + offer d) (total d)) /\
     (0 <= rejected d <= total d ->
        nearest_percentage (VersionInsight.rejectionRate v) (rejected d) (total d)) /\
     (0 <= interview d <= total d ->
        nearest_percentage (VersionInsight.interviewRate v) (interview d) (total d)) /\
     (0 <= offer d <= total d ->
        nearest_percentage (VersionInsight.offerRate v) (offer d) (total d))) /\
  (total d <= 0 ->
     VersionInsight.successRate v = 0 /\ VersionInsight.rejectionRate v = 0 /\
     VersionInsight.interviewRate v = 0 /\ VersionInsight.offerRate v = 0).

(** *** Sample tables *)

Module Sample.

Definition ms_per_day : Z := 86400000.

(** The application of the given id, source, resume version and status,
    applied at instant [at_ms]. *)
Definition application (id : Z) (source version status : string) (at_ms : Z)
  : Db.application :=
  Db.mkApplication id "Acme" "Engineer" (Some status) (Some source) (Some version)
    (Some at_ms).

(** One rejected and one pending application from the same source. *)
Definition scenario_A : list Db.application :=
  [ application 1 "LinkedIn" "1.0" "Rejected" 0;
    application 2 "LinkedIn" "1.0" "Applied" 0 ].

(** One offer and one rejection with the same resume version. *)
Definition scenario_B : list Db.application :=
  [ application 1 "LinkedIn" "1.0" "Offer" 0;
    application 2 "LinkedIn" "1.0" "Rejected" 0 ].

(** A single application that reached an interview. *)
Definition scenario_D : list Db.application :=
  [ application 1 "LinkedIn" "1.0" "Interview" 0 ].

(** A single application without any answer yet. *)
Definition one_pending : list Db.application :=
  [ application 1 "LinkedIn" "1.0" "Applied" 0 ].

(** [n] applications of one source and resume version with the given
    status, numbered from [first]. *)
Definition batch (first n : nat) (status : string) : list Db.application :=
  map (fun k => application (Z.of_nat k) "LinkedIn" "1.0" status 0) (seq first n).

(** Forty applications of which 23 are rejected: the exact percentage, 57.5,
    lies halfway between two integers. *)
Definition halfway : list Db.application :=
  (batch 1 23 "Rejected" ++ batch 24 17 "Applied")%list.

(** Forty applications: 20 at Interview, 3 at Offer, 17 rejected. *)
Definition halfway_success : list Db.application :=
  (batch 1 20 "Interview" ++ batch 21 3 "Offer" ++ batch 24 17 "Rejected")%list.

End Sample.

(** *** Reductions with a seed *)

(** The number that a reduction compares: the seed's, or [key] of an
    element. *)
Definition value_of {A : Type} (key : A -> Z) (p : picked Z A) : Z :=
  match p with
  | Seed v => v
  | Element a => key a
  end.

(** [l.reduce((acc, a) => key(a) > key(acc) ? a : acc, { key: seed })] *)
Definition reduce_greater {A : Type} (key : A -> Z) (seed : Z) (l : list A)
  : picked Z A :=
  fold_left (fun acc a => if key a >? value_of key acc then Element a else acc)
    l (Seed seed).

(** [l.reduce((acc, a) => key(a) < key(acc) ? a : acc, { key: seed })] *)
Definition reduce_less {A : Type} (key : A -> Z) (seed : Z) (l : list A)
  : picked Z A :=
  fold_left (fun acc a => if key a <? value_of key acc then Element a else acc)
    l (Seed seed).

(** [a] is the first element of [l] whose key is greatest. *)
Definition first_greatest {A : Type} (key : A -> Z) (a : A) (l : list A) : Prop :=
  exists before after,
    l = (before ++ a :: after)%list /\
    Forall (fun b => key b < key a) before /\
    Forall (fun b => key b <= key a) after.

(** [a] is the first element of [l] whose key is least. *)
Definition first_least {A : Type} (key : A -> Z) (a : A) (l : list A) : Prop :=
  exists before after,
    l = (before ++ a :: after)%list /\
    Forall (fun b => key a < key b) before /\
    Forall (fun b => key a <= key b) after.

(** *** More sample tables *)

Module Sample2.
Import Sample.

(** Two sources, every application of both rejected. *)
Definition all_rejected : list Db.application :=
  [ application 1 "Indeed" "1.0" "Rejected" 0;
    application 2 "LinkedIn" "1.0" "Rejected" 0 ].

(** Two sources without any rejection. *)
Definition none_rejected : list Db.application :=
  [ application 1 "LinkedIn" "1.0" "Applied" 0;
    application 2 "Indeed" "1.0" "Interview" 0 ].

(** Source A without rejection, source B with one rejection out of two. *)
Definition two_sources : list Db.application :=
  [ application 1 "A" "1.0" "Applied" 0;
    application 2 "B" "1.0" "Applied" 0;
    application 3 "B" "1.0" "Rejected" 0 ].

End Sample2.

(** *** Response times, by status *)

Definition terminal_eqb (a b : Db.terminal) : bool :=
  match a, b with
  | Db.Interview, Db.Interview => true
  | Db.Offer, Db.Offer => true
  | Db.Rejected, Db.Rejected => true
  | _, _ => false
  end.

(** The application holds status [t]. *)
Definition holds_status (t : Db.terminal) (a : Db.application) : bool :=
  match Db.terminal_of (Db.status a) with
  | Some u => terminal_eqb u t
  | None => false
  end.

(** The days of the rows holding status [t], in row order. *)
Definition days_of (t : Db.terminal) (applications : list Db.timed)
  : list (option Q) :=
  map Db.days_since_applied
      (filter (fun app => terminal_eqb (Db.timed_status app) t) applications).

(** The sum of the days as [reduce] accumulates it: from the left, every
    partial sum rounded to a double; a NULL day adds nothing. *)
Definition running_sum (days : list (option Q)) : Q :=
  fold_left
    (fun sum day =>
       Binary64.fl (sum + match day with Some d => d | None => 0 end)%Q)
    days 0%Q.

(** The rounded mean that the analyzer stores for a status with rows: the
    sum divided by the number of rows, as a double, then the nearest integer,
    halves upwards. *)
Definition rounded_mean (days : list (option Q)) : Z :=
  Qfloor (Binary64.fl (running_sum days / inject_Z (Z.of_nat (List.length days)))
          + (1 # 2))%Q.

(** The entry of [averages] for a status, none when the status has no row. *)
Definition average_entry (t : Db.terminal) (applications : list Db.timed)
  : list (string * Z) :=
  match days_of t applications with
  | [] => []
  | days => [(status_name t, rounded_mean days)]
  end.

(** *** Rates within bounds *)

(** The counts of a group are not negative and add up to at most its total. *)
Definition sane (d : data) : Prop :=
  0 <= rejected d /\ 0 <= applied d /\ 0 <= interview d /\ 0 <= offer d /\
  rejected d + applied d + interview d + offer d <= total d.

(** A row whose count is not negative and whose status, if any, does not
    lower-case to [total], the one key that would overwrite the running
    total of its group. *)
Definition plain_row (r : Db.row) : Prop :=
  0 <= Db.count r /\
  forall s, Db.row_status r = Some s -> toLowerCase s <> "total".

Definition percentage (n : Z) : Prop := 0 <= n <= 100.

Module Sample3.
Import Sample.

(** Two rejected applications and one whose status is the text [total]. *)
Definition total_status : list Db.application :=
  [ application 1 "LinkedIn" "1.0" "Rejected" 0;
    application 2 "LinkedIn" "1.0" "Rejected" 0;
    application 3 "LinkedIn" "1.0" "total" 0 ].

(** One pending application with the default resume version, and one whose
    resume version is [__proto__] and whose status is the text [1.0]. *)
Definition proto_version : list Db.application :=
  [ application 1 "Direct" "1.0" "Applied" 0;
    application 2 "Direct" "__proto__" "1.0" 0 ].

End Sample3.

(** *** Keys that reach [Object.prototype] *)

(** A row whose group key finds nothing on the prototype chain of a pristine
    [{}]: it is neither [__proto__] nor the name of a built-in method. *)
Definition ordinary_row (r : Db.row) : Prop :=
  inherited_get initial (property_key (Db.group r)) = Missing.

(** *** Decimal numerals *)

(** The value of the digits [d] read after a prefix of value [acc]. *)
Fixpoint digits_value (acc : Z) (d : Decimal.uint) : Z :=
  match d with
  | Decimal.Nil => acc
  | Decimal.D0 l => digits_value (10 * acc + 0) l
  | Decimal.D1 l => digits_value (10 * acc + 1) l
  | Decimal.D2 l => digits_value (10 * acc + 2) l
  | Decimal.D3 l => digits_value (10 * acc + 3) l
  | Decimal.D4 l => digits_value (10 * acc + 4) l
  | Decimal.D5 l => digits_value (10 * acc + 5) l
  | Decimal.D6 l => digits_value (10 * acc + 6) l
  | Decimal.D7 l => digits_value (10 * acc + 7) l
  | Decimal.D8 l => digits_value (10 * acc + 8) l
  | Decimal.D9 l => digits_value (10 * acc + 9) l
  end.

(** Code that completes, normally or not, in the realm it started in. *)
Definition keeps {A : Type} (m : M A) : Prop := forall h, snd (m h) = h.

(** An application whose status, if any, does not lower-case to [total]. *)
Definition plain_status (a : Db.application) : Prop :=
  forall s, Db.status a = Some s -> toLowerCase s <> "total".

(** *** Tables and their grouped rows *)

(** A group key that finds nothing on the prototype chain of a pristine
    [{}]: it is neither [__proto__] nor the name of a built-in method. *)
Definition ordinary_key (k : string) : Prop := inherited_get initial k = Missing.

(** An application whose status is not NULL and whose source and resume
    version are ordinary keys. *)
Definition regular (a : Db.application) : Prop :=
  Db.status a <> None /\
  ordinary_key (property_key (Db.source a)) /\
  ordinary_key (property_key (Db.resume_version a)).

Module Sample4.

(** An application whose status column is NULL. *)
Definition null_status : list Db.application :=
  [ Db.mkApplication 1 "Acme" "Engineer" None (Some "LinkedIn") (Some "1.0") (Some 0) ].

End Sample4.

Module Sample5.
Import Sample.

(** Interviews after 2 and after 5 days, one rejection after 1 day, and one
    application without an answer. *)
Definition mixed : list Db.application :=
  [ application 1 "LinkedIn" "1.0" "Interview" (8 * ms_per_day);
    application 2 "Indeed" "2.0" "Rejected" (9 * ms_per_day);
    application 3 "LinkedIn" "2.0" "Interview" (5 * ms_per_day);
    application 4 "Direct" "1.0" "Applied" (9 * ms_per_day) ].

(** The same applications in another order. *)
Definition mixed_reordered : list Db.application :=
  [ application 4 "Direct" "1.0" "Applied" (9 * ms_per_day);
    application 3 "LinkedIn" "2.0" "Interview" (5 * ms_per_day);
    application 1 "LinkedIn" "1.0" "Interview" (8 * ms_per_day);
    application 2 "Indeed" "2.0" "Rejected" (9 * ms_per_day) ].

End Sample5.

Module Sample7.
Import Sample.

(** 2023-11-14T22:13:20Z. *)
Definition evening : Z := 1700000000000.

Definition ms_per_hour : Z := 3600000.

(** Two interviews, applied eight and sixteen hours before [evening].  The
    two Julian-day differences are 0.3333333330228925 and 0.6666666665114462,
    their mean is 0.49999999976716936. *)
Definition thirds : list Db.application :=
  [ application 1 "LinkedIn" "1.0" "Interview" (evening - 8 * ms_per_hour);
    application 2 "LinkedIn" "1.0" "Interview" (evening - 16 * ms_per_hour) ].

End Sample7.

(** *** The lines of the comprehensive narrative *)

(** The array [comprehensiveSummary] of [getComprehensiveInsights] before it
    is joined, for the three reports, the realm [h] in which the key findings
    are read, and the key findings on response times. *)
Definition comprehensive_lines (h : heap) (rejectionInsights : RejectionReport)
  (resumeInsights : ResumeReport) (responseTimeInsights : ResponseTimeReport)
  (time_findings : list string) : list string :=
  List.concat
    [ [ "📊 **COMPREHENSIVE JOB APPLICATION INSIGHTS**";
        "============================================" ++ nl;
        "🔍 **Key Findings**:" ++ nl ];
      when (0 <? List.length (insights rejectionInsights))%nat
        (let best := bestSource (insights rejectionInsights) in
         "✅ Your best application source is " ++ to_string (entry_source_of h best)
           ++ " with " ++ entry_success_of best ++ " success rate.");
      when (0 <? List.length (versions resumeInsights))%nat
        (let best := bestResume (versions resumeInsights) in
         "📄 Your best performing resume is version " ++ to_string (version_of h best)
           ++ " with " ++ show_Z (success_rate_of best) ++ "% success rate.");
      time_findings;
      [ nl ++ "💡 **Recommendations**:" ++ nl ];
      when (existsb (fun i => gt_opt (parseInt (SourceEntry.rejectionRate i)) 50)
              (insights rejectionInsights))
        "🚨 Consider improving your application strategy for sources with high rejection rates.";
      when (existsb (fun v => VersionInsight.successRate v <? 30)
              (versions resumeInsights))
        "📝 Review and update low-performing resume versions.";
      when (slow_interviews responseTimeInsights)
        "⏰ Follow up on applications after 2 weeks if you haven't heard back.";
      [ nl ++ "📈 **Detailed Analysis**:";
        nl ++ rejection_summary rejectionInsights;
        nl ++ resume_summary resumeInsights;
        nl ++ response_summary responseTimeInsights ] ].

Module Sample6.
Import Sample.

(** A source with two rejections out of two, a resume version without any
    success, and an interview 20 days after the application. *)
Definition struggling : list Db.application :=
  [ application 1 "Indeed" "1.0" "Rejected" (9 * ms_per_day);
    application 2 "Indeed" "1.0" "Rejected" (9 * ms_per_day);
    application 3 "LinkedIn" "2.0" "Interview" (-10 * ms_per_day) ].

End Sample6.

(** *** Counting applications and rows *)

Definition text_eqb (a b : option string) : bool :=
  match a, b with
  | None, None => true
  | Some x, Some y => String.eqb x y
  | _, _ => false
  end.

(** The pair that a grouping query groups a row by. *)
Definition pair_of (r : Db.row) : option string * option string :=
  (Db.group r, Db.row_status r).

Definition pair_eqb (p q : option string * option string) : bool :=
  text_eqb (fst p) (fst q) && text_eqb (snd p) (snd q).

(** [p] comes before [q] in the order of the query. *)
Definition pair_lt (p q : option string * option string) : Prop :=
  Db.pair_compare p q = Lt.

(** The count of the first row of pair [p], [0] when there is none. *)
Fixpoint pair_count (p : option string * option string) (rows : list Db.row) : Z :=
  match rows with
  | [] => 0
  | r :: rest => if pair_eqb (pair_of r) p then Db.count r else pair_count p rest
  end.

(** The number of applications whose column [col] and status are as in [p]. *)
Definition applications_with (col : Db.application -> option string)
  (p : option string * option string) (table : list Db.application) : Z :=
  Z.of_nat (List.length
              (filter (fun a => pair_eqb (col a, Db.status a) p) table)).

(** The number of applications whose column [col] denotes the key [k]. *)
Definition applications_of (col : Db.application -> option string) (k : string)
  (table : list Db.application) : Z :=
  Z.of_nat (List.length
              (filter (fun a => String.eqb (property_key (col a)) k) table)).

(** The sum of the counts of the rows of key [k]. *)
Fixpoint key_total (k : string) (rows : list Db.row) : Z :=
  match rows with
  | [] => 0
  | r :: rest =>
      (if String.eqb (property_key (Db.group r)) k then Db.count r else 0)
      + key_total k rest
  end.

(** *** The rows of one key *)

(** What a row does to the group of key [k]: nothing unless it is a row of
    that key. *)
Definition apply_row (k : string) (d : data) (r : Db.row) : data :=
  if String.eqb (property_key (Db.group r)) k then
    match Db.row_status r with
    | Some s => data_put (toLowerCase s) (Db.count r) (add_total (Db.count r) d)
    | None => d
    end
  else d.

Definition apply_rows (k : string) (rows : list Db.row) (d : data) : data :=
  fold_left (apply_row k) rows d.

(** The five statuses that the dashboard offers. *)
Definition statuses : list string :=
  ["Applied"; "Interview"; "Offer"; "Rejected"; "Withdrawn"].

(** An application with one of the five statuses whose column [col] holds an
    ordinary key. *)
Definition well_kept (col : Db.application -> option string) (a : Db.application)
  : Prop :=
  (exists k, col a = Some k /\ ordinary_key k) /\
  (exists s, Db.status a = Some s /\ In s statuses).

(** The same for a row. *)
Definition well_kept_row (r : Db.row) : Prop :=
  (exists k, Db.group r = Some k /\ ordinary_key k) /\
  (exists s, Db.row_status r = Some s /\ In s statuses).

(** [f] reads the property that the status [S] is stored under. *)
Definition field_of_status (f : data -> Z) (S : string) : Prop :=
  (forall n d, f (add_total n d) = f d) /\
  (forall s n d, In s statuses ->
     f (data_put (toLowerCase s) n d) = if String.eqb s S then n else f d).

(** *** Sums *)

(** The sum of the totals of the groups. *)
Definition sum_totals (groups : list (string * data)) : Z :=
  fold_right (fun e sum => total (snd e) + sum) 0 groups.

(** The sum of the counts of the rows. *)
Definition sum_counts (rows : list Db.row) : Z :=
  fold_right (fun r sum => Db.count r + sum) 0 rows.

(** The first line of the rejection narrative for [n] applications. *)
Definition rejection_header (n : Z) : string :=
  "📊 **Rejection Rate Analysis** (Based on " ++ show_Z n ++ " total applications)".
(** * Properties *)

(** ** Property order *)

Example own_entries_order :
  Heap.own_entries [("b", 1); ("10", 2); ("a", 3); ("2", 4); ("01", 5)]
  = [("2", 4); ("10", 2); ("b", 1); ("a", 3); ("01", 5)].
Proof. reflexivity. Qed.

(** ** Running code in a realm *)

Lemma bind_normal {A B} (m : M A) (k : A -> M B) (h h' : heap) (b : B) :
  bind m k h = (Normal b, h') ->
  exists a h1, m h = (Normal a, h1) /\ k a h1 = (Normal b, h').
Proof.
  unfold bind. destruct (m h) as [[a|] h1]; intros E.
  - exists a, h1. split; [reflexivity | exact E].
  - discriminate E.
Qed.

Lemma ret_normal {A} (a b : A) (h h' : heap) :
  ret a h = (Normal b, h') -> a = b /\ h = h'.
Proof. unfold ret. intros E. inversion E. split; reflexivity. Qed.

Lemma Object_entries_normal {A} (o l : list (string * A)) (h h' : heap) :
  Object_entries o h = (Normal l, h') ->
  l = own_entries o /\ h' = h /\ entries_intact h = true.
Proof.
  unfold Object_entries, bind, get_heap.
  destruct (entries_intact h) eqn:E; cbn; intros H; inversion H.
  repeat split; reflexivity.
Qed.

(** Inversion of a run that completes normally, one [bind] at a time. *)
Ltac run_inv H :=
  let a := fresh "a" in
  let h1 := fresh "h" in
  let H1 := fresh "Hrun" in
  apply bind_normal in H; destruct H as (a & h1 & H1 & H).

(** ** Rounding to binary64 *)

Section Binary64Facts.
Local Open Scope Q_scope.

Lemma pow2_pos (e : Z) : 0 < Binary64.pow2 e.
Proof. apply Qpower_0_lt. reflexivity. Qed.

Lemma pow2_plus (a b : Z) :
  Binary64.pow2 (a + b) == Binary64.pow2 a * Binary64.pow2 b.
Proof. apply Qpower_plus. discriminate. Qed.

Lemma pow2_le (a b : Z) : (a <= b)%Z -> Binary64.pow2 a <= Binary64.pow2 b.
Proof. intros H. apply Qpower_le_compat_l; [exact H | discriminate]. Qed.

Lemma pow2_lt_inv (a b : Z) : Binary64.pow2 a < Binary64.pow2 b -> (a < b)%Z.
Proof. intros H. apply (Qpower_lt_compat_l_inv 2); [exact H | reflexivity]. Qed.

Lemma pow2_inject (n : Z) : (0 <= n)%Z -> inject_Z (2 ^ n) == Binary64.pow2 n.
Proof.
  intros H. unfold Binary64.pow2. rewrite Zpower_Qpower by exact H. reflexivity.
Qed.

(** [ilog2] is the integer part of the binary logarithm. *)
Lemma ilog2_spec (q : Q) :
  0 < q ->
  Binary64.pow2 (Binary64.ilog2 q) <= q /\
  q < Binary64.pow2 (Binary64.ilog2 q + 1).
Proof.
  intros Hq. destruct q as [n d]. unfold Binary64.ilog2. cbn [Qnum Qden].
  assert (Hn : (0 < n)%Z).
  { unfold Qlt in Hq. cbn in Hq. lia. }
  pose proof (Z.log2_spec n Hn) as [Hn1 Hn2].
  pose proof (Z.log2_spec (Z.pos d) (Pos2Z.is_pos d)) as [Hd1 Hd2].
  pose proof (Z.log2_nonneg n) as Hln.
  pose proof (Z.log2_nonneg (Z.pos d)) as Hld.
  set (ln := Z.log2 n) in *. set (ld := Z.log2 (Z.pos d)) in *.
  assert (Eq : n # d == inject_Z n / inject_Z (Z.pos d)) by apply Qmake_Qdiv.
  assert (Hdpos : 0 < inject_Z (Z.pos d)).
  { rewrite <- (Zlt_Qlt 0). lia. }
  assert (Qn1 : Binary64.pow2 ln <= inject_Z n).
  { rewrite <- pow2_inject by exact Hln. rewrite <- Zle_Qle. exact Hn1. }
  assert (Qn2 : inject_Z n < Binary64.pow2 (ln + 1)).
  { rewrite <- pow2_inject by lia. rewrite <- Zlt_Qlt. exact Hn2. }
  assert (Qd1 : Binary64.pow2 ld <= inject_Z (Z.pos d)).
  { rewrite <- pow2_inject by exact Hld. rewrite <- Zle_Qle. exact Hd1. }
  assert (Qd2 : inject_Z (Z.pos d) < Binary64.pow2 (ld + 1)).
  { rewrite <- pow2_inject by lia. rewrite <- Zlt_Qlt. exact Hd2. }
  assert (Hlow : Binary64.pow2 (ln - ld - 1) <= n # d).
  { rewrite Eq. apply Qle_shift_div_l; [exact Hdpos|].
    apply Qle_trans with (Binary64.pow2 (ln - ld - 1) * Binary64.pow2 (ld + 1)).
    - apply Qmult_le_l; [apply pow2_pos|]. apply Qlt_le_weak. exact Qd2.
    - rewrite <- pow2_plus. replace (ln - ld - 1 + (ld + 1))%Z with ln by lia.
      exact Qn1. }
  assert (Hhigh : n # d < Binary64.pow2 (ln - ld + 1)).
  { rewrite Eq. apply Qlt_shift_div_r; [exact Hdpos|].
    apply Qlt_le_trans with (Binary64.pow2 (ln + 1)); [exact Qn2|].
    replace (ln + 1)%Z with (ln - ld + 1 + ld)%Z by lia. rewrite pow2_plus.
    apply Qmult_le_l; [apply pow2_pos | exact Qd1]. }
  destruct (Qle_bool (Binary64.pow2 (ln - ld)) (n # d)) eqn:E.
  - apply Qle_bool_iff in E. split; [exact E | exact Hhigh].
  - split; [exact Hlow|]. replace (ln - ld - 1 + 1)%Z with (ln - ld)%Z by lia.
    apply Qnot_le_lt. intros H. apply Qle_bool_iff in H. congruence.
Qed.

(** Rounding to an integer errs by at most one half. *)
Lemma nearest_even_error (t : Q) :
  Qabs (inject_Z (Binary64.nearest_even t) - t) <= 1 # 2.
Proof.
  unfold Binary64.nearest_even.
  pose proof (Qfloor_le t) as H1. pose proof (Qlt_floor t) as H2.
  rewrite inject_Z_plus in H2. change (inject_Z 1) with 1 in H2.
  apply Qabs_Qle_condition.
  destruct (Qcompare_spec (t - inject_Z (Qfloor t)) (1 # 2)) as [E|E|E].
  - destruct (Z.even (Qfloor t));
      [|rewrite inject_Z_plus; change (inject_Z 1) with 1]; lra.
  - lra.
  - rewrite inject_Z_plus. change (inject_Z 1) with 1. lra.
Qed.

Lemma nearest_even_le (t : Q) (m : Z) :
  t <= inject_Z m -> (Binary64.nearest_even t <= m)%Z.
Proof.
  intros H. unfold Binary64.nearest_even.
  pose proof (Qfloor_le t) as H1.
  assert (Hf : (Qfloor t <= m)%Z).
  { rewrite Zle_Qle. lra. }
  destruct (Z.eq_dec (Qfloor t) m) as [E|E].
  - assert (Hlt : t - inject_Z (Qfloor t) < 1 # 2) by (rewrite E in *; lra).
    destruct (Qcompare_spec (t - inject_Z (Qfloor t)) (1 # 2)) as [C|C|C];
      [lra | exact Hf | lra].
  - destruct (Qcompare _ _); [destruct (Z.even _)| |]; lia.
Qed.

Lemma nearest_even_ge (t : Q) (m : Z) :
  inject_Z m <= t -> (m <= Binary64.nearest_even t)%Z.
Proof.
  intros H. unfold Binary64.nearest_even.
  assert (Hf : (m <= Qfloor t)%Z).
  { rewrite <- (Qfloor_Z m). apply Qfloor_resp_le. exact H. }
  destruct (Qcompare _ _); [destruct (Z.even _)| |]; lia.
Qed.

Lemma fl_pos_eq (q : Q) :
  0 < q ->
  Binary64.fl q
  = inject_Z (Binary64.nearest_even (q / Binary64.pow2 (Binary64.quantum q)))
    * Binary64.pow2 (Binary64.quantum q).
Proof.
  intros Hq. unfold Binary64.fl. destruct (Qeq_bool q 0) eqn:E; [|reflexivity].
  apply Qeq_bool_iff in E. lra.
Qed.

Lemma fl_nonneg (q : Q) : 0 <= q -> 0 <= Binary64.fl q.
Proof.
  intros Hq. unfold Binary64.fl. destruct (Qeq_bool q 0) eqn:E; [lra|].
  apply Qmult_le_0_compat; [|apply Qlt_le_weak, pow2_pos].
  rewrite <- (Zle_Qle 0). apply nearest_even_ge.
  apply Qle_shift_div_l; [apply pow2_pos|].
  change (inject_Z 0) with 0. rewrite Qmult_0_l. exact Hq.
Qed.

Lemma quantum_of_pos (q : Q) :
  0 < q ->
  Binary64.quantum q = Z.max (Binary64.ilog2 q - 52) Binary64.emin.
Proof.
  intros Hq. unfold Binary64.quantum, Binary64.ilog2.
  destruct q as [n d]. assert (Hn : (0 < n)%Z) by (unfold Qlt in Hq; cbn in Hq; lia).
  destruct n; try lia. reflexivity.
Qed.

(** An integer bound on the argument bounds the result: integers below
    [2 ^ 53] are doubles. *)
Lemma fl_le_int (q : Q) (c : Z) :
  0 <= q -> q <= inject_Z c -> q < Binary64.pow2 53 -> Binary64.fl q <= inject_Z c.
Proof.
  intros H0 Hc H53. destruct (Qeq_bool q 0) eqn:E.
  - unfold Binary64.fl. rewrite E. lra.
  - assert (Hq : 0 < q).
    { apply Qeq_bool_neq in E. destruct (Qlt_le_dec 0 q); [assumption|].
      exfalso. apply E. lra. }
    rewrite (fl_pos_eq q Hq).
    destruct (ilog2_spec q Hq) as [Hl _].
    assert (He : (Binary64.quantum q <= 0)%Z).
    { rewrite (quantum_of_pos q Hq). unfold Binary64.emin.
      assert (Binary64.ilog2 q < 53)%Z; [|lia].
      apply pow2_lt_inv. lra. }
    set (e := Binary64.quantum q) in *.
    assert (Hgrid : inject_Z c == inject_Z (c * 2 ^ (- e)) * Binary64.pow2 e).
    { rewrite inject_Z_mult, pow2_inject by lia.
      rewrite <- Qmult_assoc, <- pow2_plus.
      replace (- e + e)%Z with 0%Z by lia. unfold Binary64.pow2. cbn. ring. }
    rewrite Hgrid. apply Qmult_le_r; [apply pow2_pos|].
    rewrite <- Zle_Qle. apply nearest_even_le.
    apply Qle_shift_div_r; [apply pow2_pos|]. rewrite <- Hgrid. exact Hc.
Qed.

(** The relative error of rounding in the normal range. *)
Lemma fl_error (q : Q) :
  Binary64.pow2 (-1022) <= q -> Qabs (Binary64.fl q - q) <= q * (1 # 9007199254740992).
Proof.
  intros Hn. assert (Hq : 0 < q).
  { apply Qlt_le_trans with (Binary64.pow2 (-1022)); [apply pow2_pos | exact Hn]. }
  rewrite (fl_pos_eq q Hq).
  destruct (ilog2_spec q Hq) as [Hl Hh].
  assert (He : Binary64.quantum q = (Binary64.ilog2 q - 52)%Z).
  { rewrite (quantum_of_pos q Hq). unfold Binary64.emin.
    assert (-1022 < Binary64.ilog2 q + 1)%Z; [|lia].
    apply pow2_lt_inv. lra. }
  rewrite He. set (e := (Binary64.ilog2 q - 52)%Z) in *.
  pose proof (pow2_pos e) as Hpe.
  pose proof (nearest_even_error (q / Binary64.pow2 e)) as Herr.
  set (m := inject_Z (Binary64.nearest_even (q / Binary64.pow2 e))) in *.
  assert (Hscale : m * Binary64.pow2 e - q
                   == (m - q / Binary64.pow2 e) * Binary64.pow2 e).
  { field. lra. }
  rewrite Hscale, Qabs_Qmult, (Qabs_pos (Binary64.pow2 e)) by lra.
  apply Qle_trans with ((1 # 2) * Binary64.pow2 e).
  - apply Qmult_le_r; [exact Hpe | exact Herr].
  - assert (Hpow : Binary64.pow2 (Binary64.ilog2 q)
                   == Binary64.pow2 e * Binary64.pow2 52).
    { rewrite <- pow2_plus. unfold e.
      replace (Binary64.ilog2 q - 52 + 52)%Z with (Binary64.ilog2 q) by lia.
      reflexivity. }
    assert (H53 : 1 # 9007199254740992 == (1 # 2) * / Binary64.pow2 52) by reflexivity.
    rewrite H53.
    assert (H52 : 0 < Binary64.pow2 52) by apply pow2_pos.
    assert (Hle : Binary64.pow2 e <= q * / Binary64.pow2 52).
    { apply Qle_shift_div_l; [exact H52|]. rewrite <- Hpow. exact Hl. }
    rewrite (Qmult_comm q), <- Qmult_assoc, (Qmult_comm (/ Binary64.pow2 52)).
    apply Qmult_le_l; [reflexivity | exact Hle].
Qed.

Lemma ratio_bounds (a b : Z) :
  (0 <= a <= b)%Z -> (0 < b)%Z ->
  0 <= inject_Z a / inject_Z b /\ inject_Z a / inject_Z b <= 1.
Proof.
  intros Ha Hb.
  assert (HB : 0 < inject_Z b) by (rewrite <- (Zlt_Qlt 0); exact Hb).
  assert (HA : 0 <= inject_Z a) by (rewrite <- (Zle_Qle 0); lia).
  assert (HAB : inject_Z a <= inject_Z b) by (rewrite <- Zle_Qle; lia).
  split.
  - apply Qle_shift_div_l; [exact HB|]. lra.
  - apply Qle_shift_div_r; [exact HB|]. lra.
Qed.

Lemma big_53 : 100 < Binary64.pow2 53.
Proof. reflexivity. Qed.

Lemma product_bounds (a b : Z) :
  (0 <= a <= b)%Z -> (0 < b)%Z ->
  0 <= Binary64.mul (Binary64.div (inject_Z a) (inject_Z b)) 100 <= 100.
Proof.
  intros Ha Hb. destruct (ratio_bounds a b Ha Hb) as [H0 H1].
  pose proof big_53 as H53.
  assert (Hx1 : 0 <= Binary64.div (inject_Z a) (inject_Z b) <= 1).
  { split; [apply fl_nonneg; exact H0|].
    apply (fl_le_int _ 1); [exact H0 | exact H1 | lra]. }
  destruct Hx1 as [Hx0 Hx1].
  unfold Binary64.mul. split.
  - apply fl_nonneg. lra.
  - apply (fl_le_int _ 100); change (inject_Z 100) with 100; lra.
Qed.

(** A part of a whole is between 0 and 100 percent, also after the two
    roundings of the quotient and of the product. *)
Lemma percent_bounds (a b : Z) :
  (0 <= a <= b)%Z -> (0 < b)%Z -> percentage (percent a b).
Proof.
  intros Ha Hb. destruct (product_bounds a b Ha Hb) as [H0 H1].
  unfold percentage, percent, round.
  set (x := Binary64.mul (Binary64.div (inject_Z a) (inject_Z b)) 100) in *.
  assert (L : (Qfloor 0 <= Qfloor (x + (1 # 2)))%Z) by (apply Qfloor_resp_le; lra).
  assert (U : (Qfloor (x + (1 # 2)) <= Qfloor (100 + (1 # 2)))%Z)
    by (apply Qfloor_resp_le; lra).
  split; [exact L | exact U].
Qed.

(** On groups of fewer than [2 ^ 44] applications the percentage is an
    integer nearest to the exact one. *)
Lemma percent_nearest (a b : Z) :
  (0 <= a <= b)%Z -> (0 < b < 2 ^ 44)%Z ->
  nearest_percentage (percent a b) a b.
Proof.
  intros Ha Hb. unfold nearest_percentage.
  assert (HB : 0 < inject_Z b) by (rewrite <- (Zlt_Qlt 0); lia).
  assert (HB44 : inject_Z b < inject_Z (2 ^ 44)) by (rewrite <- Zlt_Qlt; lia).
  destruct (Z.eq_dec a 0) as [->|Hne].
  - assert (E : percent 0 b = 0%Z).
    { unfold percent, round, Binary64.mul, Binary64.div.
      assert (E1 : Binary64.fl (inject_Z 0 / inject_Z b) = 0).
      { unfold Binary64.fl. replace (Qeq_bool (inject_Z 0 / inject_Z b) 0) with true;
          [reflexivity|].
        symmetry. apply Qeq_bool_iff. unfold Qdiv. change (inject_Z 0) with 0. ring. }
      rewrite E1. reflexivity. }
    rewrite E. lia.
  - destruct (ratio_bounds a b ltac:(lia) ltac:(lia)) as [_ H1].
    set (q1 := inject_Z a / inject_Z b) in *.
    assert (Hq1 : inject_Z b * q1 == inject_Z a).
    { unfold q1. field. lra. }
    assert (HA : 1 <= inject_Z a) by (rewrite <- (Zle_Qle 1); lia).
    assert (P44 : Binary64.pow2 (-44) == 1 # 17592186044416) by reflexivity.
    assert (I44 : inject_Z (2 ^ 44) == 17592186044416) by reflexivity.
    assert (Hlow : Binary64.pow2 (-1022) <= Binary64.pow2 (-44)) by (apply pow2_le; lia).
    assert (Hq1low : Binary64.pow2 (-44) <= q1).
    { unfold q1. apply Qle_shift_div_l; [exact HB|]. rewrite P44.
      apply Qle_trans with ((1 # 17592186044416) * 17592186044416); [|lra].
      apply Qmult_le_l; [reflexivity|]. lra. }
    assert (Hq1n : Binary64.pow2 (-1022) <= q1) by (eapply Qle_trans; eassumption).
    pose proof (fl_error q1 Hq1n) as E1.
    apply Qabs_Qle_condition in E1. destruct E1 as [E1l E1h].
    unfold percent, round, Binary64.mul, Binary64.div. fold q1.
    set (x1 := Binary64.fl q1) in *.
    assert (Hq2 : Binary64.pow2 (-1022) <= x1 * 100) by lra.
    pose proof (fl_error (x1 * 100) Hq2) as E2.
    apply Qabs_Qle_condition in E2. destruct E2 as [E2l E2h].
    set (x2 := Binary64.fl (x1 * 100)) in *.
    pose proof (Qfloor_le (x2 + (1 # 2))) as F1.
    pose proof (Qlt_floor (x2 + (1 # 2))) as F2.
    rewrite inject_Z_plus in F2. change (inject_Z 1) with 1 in F2.
    set (p := Qfloor (x2 + (1 # 2))) in *.
    assert (Hup : inject_Z p - 100 * q1 <= (1 # 2) + (1 # 35184372088832)) by lra.
    assert (Hdown : 100 * q1 - inject_Z p <= (1 # 2) + (1 # 35184372088832)) by lra.
    assert (Hup' : inject_Z b * (inject_Z p - 100 * q1)
                   <= inject_Z b * ((1 # 2) + (1 # 35184372088832))).
    { apply Qmult_le_l; [exact HB | exact Hup]. }
    assert (Hdown' : inject_Z b * (100 * q1 - inject_Z p)
                     <= inject_Z b * ((1 # 2) + (1 # 35184372088832))).
    { apply Qmult_le_l; [exact HB | exact Hdown]. }
    assert (U : 2 * (inject_Z b * inject_Z p - 100 * inject_Z a) < inject_Z b + 1).
    { rewrite <- Hq1. lra. }
    assert (D : 2 * (100 * inject_Z a - inject_Z b * inject_Z p) < inject_Z b + 1).
    { rewrite <- Hq1. lra. }
    assert (UZ : (2 * (b * p) < b + 1 + 2 * (100 * a))%Z).
    { rewrite Zlt_Qlt. rewrite !inject_Z_plus, !inject_Z_mult.
      change (inject_Z 2) with 2. change (inject_Z 100) with 100.
      change (inject_Z 1) with 1. lra. }
    assert (DZ : (2 * (100 * a) < b + 1 + 2 * (b * p))%Z).
    { rewrite Zlt_Qlt. rewrite !inject_Z_plus, !inject_Z_mult.
      change (inject_Z 2) with 2. change (inject_Z 100) with 100.
      change (inject_Z 1) with 1. lra. }
    lia.
Qed.

End Binary64Facts.

(** ** The shape of the reports *)

Lemma source_insights_shape (results : list Db.row) (h h' : heap)
  (l : list SourceInsight.t) :
  source_insights results h = (Normal l, h') ->
  exists sourceData,
    forEach organize results [] h = (Normal sourceData, h') /\
    entries_intact h' = true /\
    l = map source_insight (own_entries sourceData).
Proof.
  unfold source_insights. intros H.
  run_inv H. run_inv H.
  apply Object_entries_normal in Hrun0. destruct Hrun0 as (-> & -> & Hok).
  apply ret_normal in H. destruct H as [<- <-].
  exists a. repeat split; assumption.
Qed.

Lemma rejection_report_shape (results : list Db.row) (h h' : heap)
  (r : RejectionReport) :
  rejection_report_of results h = (Normal r, h') ->
  exists l,
    source_insights results h = (Normal l, h') /\
    r = mkRejectionReport true (map source_entry l)
          (_generateRejectionRateSummary h' l (highestRejection l) (lowestRejection l)).
Proof.
  unfold rejection_report_of. intros H.
  run_inv H. run_inv H.
  unfold get_heap in Hrun0. inversion Hrun0; subst.
  apply ret_normal in H. destruct H as [<- <-].
  exists a. split; [assumption | reflexivity].
Qed.

Lemma version_insights_shape (results : list Db.row) (h h' : heap)
  (l : list VersionInsight.t) :
  version_insights results h = (Normal l, h') ->
  exists versionData,
    forEach organize results [] h = (Normal versionData, h') /\
    entries_intact h' = true /\
    l = map version_insight (own_entries versionData).
Proof.
  unfold version_insights. intros H.
  run_inv H. run_inv H.
  apply Object_entries_normal in Hrun0. destruct Hrun0 as (-> & -> & Hok).
  apply ret_normal in H. destruct H as [<- <-].
  exists a. repeat split; assumption.
Qed.

Lemma resume_report_shape (results : list Db.row) (h h' : heap)
  (r : ResumeReport) :
  resume_report_of results h = (Normal r, h') ->
  exists l,
    version_insights results h = (Normal l, h') /\
    r = mkResumeReport true l
          (_generateResumeVersionSummary h' l (bestVersion l) (worstVersion l)).
Proof.
  unfold resume_report_of. intros H.
  run_inv H. run_inv H.
  unfold get_heap in Hrun0. inversion Hrun0; subst.
  apply ret_normal in H. destruct H as [<- <-].
  exists a. split; [assumption | reflexivity].
Qed.

(** ** Rates of the source-rejection analyzer *)

Lemma source_insight_rates (e : string * data) : source_rates_ok (source_insight e).
Proof.
  destruct e as [source d]. unfold source_rates_ok, source_insight.
  cbn [SourceInsight.totalApplications SourceInsight.rejectionRate
       SourceInsight.rejectionCount SourceInsight.successRate].
  destruct (Z.gtb_spec (total d) 0) as [E|E].
  - split; [reflexivity|]. split; [apply percent_nearest|].
    split; [lia|]. split; [reflexivity | lia].
  - split; [lia|]. split; [lia|].
    split; [reflexivity|]. split; [reflexivity | lia].
Qed.

(** C1.  Whatever rows the query returns and whatever the realm, when the
    source-rejection analyzer returns, every element of [insights] is the
    rendering of a group whose [rejectionRate] is
    [Math.round((rejected / total) * 100)], evaluated in binary64 as
    JavaScript evaluates it, when its total is positive and [0] when its total
    is [0]; whose [successRate] is [100 - rejectionRate]; and whose two rates
    add up to [100].  On a group of fewer than [2 ^ 44] applications with no
    more rejections than applications the rate is an integer nearest to the
    exact percentage. *)
Theorem source_rates_sum_to_100 (results : list Db.row) (h h' : heap)
  (r : RejectionReport) (e : SourceEntry.t) :
  rejection_report_of results h = (Normal r, h') ->
  In e (insights r) ->
  exists i, e = source_entry i /\ source_rates_ok i.
Proof.
  intros H Hin.
  apply rejection_report_shape in H. destruct H as (l & Hl & ->).
  apply source_insights_shape in Hl. destruct Hl as (sourceData & _ & _ & ->).
  cbn in Hin. apply in_map_iff in Hin. destruct Hin as (i & <- & Hi).
  apply in_map_iff in Hi. destruct Hi as (g & <- & _).
  exists (source_insight g). split; [reflexivity | apply source_insight_rates].
Qed.

(** C1, at forty applications of one source of which 23 are rejected.  The
    exact percentage is 57.5; the double nearest to 23/40 times 100 is
    57.49999999999999, so the rates are 57 and 43. *)
Lemma source_rates_sum_to_100_witness :
  exists i,
    SourceEntry.mk "LinkedIn" 40 "57%" 23 "43%" = source_entry i /\
    source_rates_ok i.
Proof.
  eapply (source_rates_sum_to_100 (Db.by_source Sample.halfway) initial).
  - vm_compute. reflexivity.
  - left. reflexivity.
Defined.

(** ** Rates of the resume-version analyzer *)

Lemma version_insight_rates (e : string * data) :
  VersionInsight.version (version_insight e) = fst e /\
  version_rates_ok (snd e) (version_insight e).
Proof.
  destruct e as [version d]. unfold version_rates_ok, version_insight.
  cbn [fst snd VersionInsight.version VersionInsight.totalApplications
       VersionInsight.rejectionRate VersionInsight.successRate
       VersionInsight.interviewRate VersionInsight.offerRate].
  destruct (Z.gtb_spec (total d) 0) as [E|E].
  - split; [reflexivity|]. split; [reflexivity|]. split; [repeat split; reflexivity|].
    split; [|lia]. intros Hsize.
    repeat split; intros; apply percent_nearest; assumption.
  - split; [reflexivity|]. split; [reflexivity|]. split; [lia|].
    split; [lia|]. intros _. repeat split; reflexivity.
Qed.

Lemma Forall2_map_image {A B} (f : A -> B) (P : A -> B -> Prop) (l : list A) :
  (forall a, P a (f a)) -> Forall2 P l (map f l).
Proof.
  intros HP. induction l as [|a l IH]; cbn; constructor; auto.
Qed.

(** C2.  When the resume-version analyzer returns, [versions] lists, in
    iteration order, one insight per group of [versionData], whose
    [successRate] is [Math.round(((interview + offer) / total) * 100)] and
    whose [rejectionRate] is [Math.round((rejected / total) * 100)], both
    evaluated in binary64 as JavaScript evaluates them, whenever the group's
    total is positive: two formulas over different counts, each giving, on a
    group of fewer than [2 ^ 44] applications, an integer nearest to the exact
    percentage of its count.  On one Offer and one Rejected record of version
    1.0 the two rates are 50 and 50; on a single pending application they are
    0 and 0, so they need not add up to 100. *)
Theorem resume_success_rate_formula :
  (forall (results : list Db.row) (h h' : heap) (r : ResumeReport),
     resume_report_of results h = (Normal r, h') ->
     exists versionData,
       forEach organize results [] h = (Normal versionData, h') /\
       Forall2 (fun e v => VersionInsight.version v = fst e /\
                           version_rates_ok (snd e) v)
               (own_entries versionData) (versions r)) /\
  (exists summary,
     getBestPerformingResumeVersion Sample.scenario_B initial
     = (Normal (mkResumeReport true [VersionInsight.mk "1.0" 2 50 50 0 50] summary),
        initial)) /\
  (exists summary,
     getBestPerformingResumeVersion Sample.one_pending initial
     = (Normal (mkResumeReport true [VersionInsight.mk "1.0" 1 0 0 0 0] summary),
        initial)).
Proof.
  split; [|split].
  - intros results h h' r H.
    apply resume_report_shape in H. destruct H as (l & Hl & ->).
    apply version_insights_shape in Hl. destruct Hl as (versionData & Hrun & _ & ->).
    exists versionData. split; [exact Hrun|].
    cbn [versions]. apply Forall2_map_image. apply version_insight_rates.
  - eexists. vm_compute. reflexivity.
  - eexists. vm_compute. reflexivity.
Qed.

(** C2, at forty applications of one version: 20 at Interview, 3 at Offer
    and 17 rejected.  The success rate is 57, where the exact percentage is
    57.5, and the rejection rate is 43, where it is 42.5. *)
Lemma resume_success_rate_formula_witness :
  exists versionData,
    forEach organize (Db.by_resume_version Sample.halfway_success) [] initial
    = (Normal versionData, initial) /\
    Forall2 (fun e v => VersionInsight.version v = fst e /\
                        version_rates_ok (snd e) v)
            (own_entries versionData) [VersionInsight.mk "1.0" 40 43 57 50 8].
Proof.
  destruct resume_success_rate_formula as [general _].
  apply (general (Db.by_resume_version Sample.halfway_success) initial initial
           (mkResumeReport true [VersionInsight.mk "1.0" 40 43 57 50 8]
              (_generateResumeVersionSummary initial
                 [VersionInsight.mk "1.0" 40 43 57 50 8]
                 (Element (VersionInsight.mk "1.0" 40 43 57 50 8))
                 (Element (VersionInsight.mk "1.0" 40 43 57 50 8))))).
  vm_compute. reflexivity.
Defined.

(** ** The empty record set *)

(** C3 as stated fails: on the empty table the response-time analyzer returns
    an object without any [averages] property, not one whose [averages] is
    the empty map. *)
Lemma empty_response_report_has_no_averages :
  ~ (exists r h',
       getAverageResponseTime 0 [] initial = (Normal r, h') /\
       averages r = Some []).
Proof.
  intros (r & h' & Hrun & Havg).
  vm_compute in Hrun. inversion Hrun; subst r. discriminate Havg.
Qed.

(** C3, amended.  On the empty table, in a realm whose [Object.entries] is
    the built-in, the source-rejection and the resume-version analyzer return
    normally, with an empty aggregate list and a narrative saying that no data
    is available; the response-time analyzer returns normally in every realm
    and at every instant, with a narrative saying that no completed
    applications were found and with no [averages] property at all.  None of
    them changes the realm. *)
Theorem empty_record_set_reports (now : Z) (h : heap) :
  entries_intact h = true ->
  (exists narrative,
     getRejectionRateBySource [] h
     = (Normal (mkRejectionReport true [] narrative), h) /\
     includes narrative "No application data available for analysis." = true) /\
  (exists narrative,
     getBestPerformingResumeVersion [] h
     = (Normal (mkResumeReport true [] narrative), h) /\
     includes narrative "No resume version data available for analysis." = true) /\
  (exists narrative,
     getAverageResponseTime now [] h
     = (Normal (mkResponseTimeReport true None narrative), h) /\
     includes narrative "No completed applications" = true).
Proof.
  intros Hok. split; [|split].
  - eexists. split.
    + unfold getRejectionRateBySource, rejection_report_of, source_insights,
        Object_entries, bind, get_heap.
      cbn. rewrite Hok. cbn. reflexivity.
    + vm_compute. reflexivity.
  - eexists. split.
    + unfold getBestPerformingResumeVersion, resume_report_of, version_insights,
        Object_entries, bind, get_heap.
      cbn. rewrite Hok. cbn. reflexivity.
    + vm_compute. reflexivity.
  - eexists. split.
    + cbn. reflexivity.
    + vm_compute. reflexivity.
Qed.

(** C3 amended, in the realm of a fresh process. *)
Lemma empty_record_set_reports_witness :
  entries_intact initial = true /\
  exists narrative,
    getAverageResponseTime 0 [] initial
    = (Normal (mkResponseTimeReport true None narrative), initial) /\
    includes narrative "No completed applications" = true.
Proof.
  split; [reflexivity|].
  exact (proj2 (proj2 (empty_record_set_reports 0 initial eq_refl))).
Defined.

(** ** Reductions with a seed *)

Section StrictReduce.

Context {A : Type} (key : A -> Z).

Lemma reduce_greater_snoc (seed : Z) (l : list A) (a : A) :
  reduce_greater key seed (l ++ [a])%list
  = if key a >? value_of key (reduce_greater key seed l)
    then Element a else reduce_greater key seed l.
Proof. unfold reduce_greater. rewrite fold_left_app. reflexivity. Qed.

Lemma reduce_less_snoc (seed : Z) (l : list A) (a : A) :
  reduce_less key seed (l ++ [a])%list
  = if key a <? value_of key (reduce_less key seed l)
    then Element a else reduce_less key seed l.
Proof. unfold reduce_less. rewrite fold_left_app. reflexivity. Qed.

(** The reduction returns the first element with the greatest key when some
    key exceeds the seed, and the seed itself, which is no element, when none
    does. *)
Lemma reduce_greater_spec (seed : Z) (l : list A) :
  match reduce_greater key seed l with
  | Seed v => v = seed /\ Forall (fun a => key a <= seed) l
  | Element a => seed < key a /\ first_greatest key a l
  end.
Proof.
  induction l as [|a l IH] using rev_ind.
  - cbn. split; [reflexivity | constructor].
  - rewrite reduce_greater_snoc.
    destruct (reduce_greater key seed l) as [v|b]; cbn [value_of].
    + destruct IH as [-> IH].
      destruct (Z.gtb_spec (key a) seed) as [Hgt|Hle].
      * split; [lia|]. exists l, []. repeat split.
        -- eapply Forall_impl; [|exact IH]. cbn. intros; lia.
        -- constructor.
      * split; [reflexivity|]. apply Forall_app. split; [exact IH|].
        constructor; [lia | constructor].
    + destruct IH as [Hb (before & after & -> & Hbefore & Hafter)].
      destruct (Z.gtb_spec (key a) (key b)) as [Hgt|Hle].
      * split; [lia|]. exists (before ++ b :: after)%list, []. repeat split.
        -- apply Forall_app. split.
           ++ eapply Forall_impl; [|exact Hbefore]. cbn. intros; lia.
           ++ constructor; [lia|].
              eapply Forall_impl; [|exact Hafter]. cbn. intros; lia.
        -- constructor.
      * split; [exact Hb|]. exists before, (after ++ [a])%list. repeat split.
        -- rewrite <- app_assoc. reflexivity.
        -- exact Hbefore.
        -- apply Forall_app. split; [exact Hafter|].
           constructor; [lia | constructor].
Qed.

(** Dually for the least key. *)
Lemma reduce_less_spec (seed : Z) (l : list A) :
  match reduce_less key seed l with
  | Seed v => v = seed /\ Forall (fun a => seed <= key a) l
  | Element a => key a < seed /\ first_least key a l
  end.
Proof.
  induction l as [|a l IH] using rev_ind.
  - cbn. split; [reflexivity | constructor].
  - rewrite reduce_less_snoc.
    destruct (reduce_less key seed l) as [v|b]; cbn [value_of].
    + destruct IH as [-> IH].
      destruct (Z.ltb_spec (key a) seed) as [Hlt|Hge].
      * split; [lia|]. exists l, []. repeat split.
        -- eapply Forall_impl; [|exact IH]. cbn. intros; lia.
        -- constructor.
      * split; [reflexivity|]. apply Forall_app. split; [exact IH|].
        constructor; [lia | constructor].
    + destruct IH as [Hb (before & after & -> & Hbefore & Hafter)].
      destruct (Z.ltb_spec (key a) (key b)) as [Hlt|Hge].
      * split; [lia|]. exists (before ++ b :: after)%list, []. repeat split.
        -- apply Forall_app. split.
           ++ eapply Forall_impl; [|exact Hbefore]. cbn. intros; lia.
           ++ constructor; [lia|].
              eapply Forall_impl; [|exact Hafter]. cbn. intros; lia.
        -- constructor.
      * split; [exact Hb|]. exists before, (after ++ [a])%list. repeat split.
        -- rewrite <- app_assoc. reflexivity.
        -- exact Hbefore.
        -- apply Forall_app. split; [exact Hafter|].
           constructor; [lia | constructor].
Qed.

End StrictReduce.

(** The four selections of the two analyzers are such reductions. *)
Lemma highestRejection_reduce (l : list SourceInsight.t) :
  highestRejection l = reduce_greater SourceInsight.rejectionRate 0 l.
Proof. reflexivity. Qed.

Lemma lowestRejection_reduce (l : list SourceInsight.t) :
  lowestRejection l = reduce_less SourceInsight.rejectionRate 100 l.
Proof. reflexivity. Qed.

Lemma bestVersion_reduce (l : list VersionInsight.t) :
  bestVersion l = reduce_greater VersionInsight.successRate 0 l.
Proof. reflexivity. Qed.

Lemma worstVersion_reduce (l : list VersionInsight.t) :
  worstVersion l = reduce_less VersionInsight.successRate 100 l.
Proof. reflexivity. Qed.

Section StrictReduceConverse.

Context {A : Type} (key : A -> Z).

Lemma fold_less_stays (l : list A) (acc : picked Z A) :
  Forall (fun b => value_of key acc <= key b) l ->
  fold_left (fun acc a => if key a <? value_of key acc then Element a else acc) l acc
  = acc.
Proof.
  revert acc. induction l as [|b l IH]; intros acc H; [reflexivity|].
  inversion H; subst. cbn [fold_left].
  destruct (Z.ltb_spec (key b) (value_of key acc)); [lia|]. apply IH. assumption.
Qed.

Lemma fold_less_above (l : list A) (acc : picked Z A) (m : Z) :
  m < value_of key acc ->
  Forall (fun b => m < key b) l ->
  m < value_of key
        (fold_left (fun acc a => if key a <? value_of key acc then Element a else acc)
           l acc).
Proof.
  revert acc. induction l as [|b l IH]; intros acc Hacc H; [exact Hacc|].
  inversion H; subst. cbn [fold_left]. apply IH; [|assumption].
  destruct (key b <? value_of key acc); [cbn; assumption | assumption].
Qed.

(** The first element with the least key is returned, provided that key is
    below the seed. *)
Lemma reduce_less_first_least (seed : Z) (a : A) (l : list A) :
  key a < seed -> first_least key a l -> reduce_less key seed l = Element a.
Proof.
  intros Hseed (before & after & -> & Hbefore & Hafter).
  unfold reduce_less. rewrite fold_left_app. cbn [fold_left].
  assert (Habove : key a < value_of key
            (fold_left (fun acc a => if key a <? value_of key acc then Element a else acc)
               before (Seed seed)))
    by (apply fold_less_above; [exact Hseed | exact Hbefore]).
  apply Z.ltb_lt in Habove. rewrite Habove.
  apply fold_less_stays. exact Hafter.
Qed.

Lemma fold_greater_stays (l : list A) (acc : picked Z A) :
  Forall (fun b => key b <= value_of key acc) l ->
  fold_left (fun acc a => if key a >? value_of key acc then Element a else acc) l acc
  = acc.
Proof.
  revert acc. induction l as [|b l IH]; intros acc H; [reflexivity|].
  inversion H; subst. cbn [fold_left].
  destruct (Z.gtb_spec (key b) (value_of key acc)); [lia|]. apply IH. assumption.
Qed.

Lemma fold_greater_below (l : list A) (acc : picked Z A) (m : Z) :
  value_of key acc < m ->
  Forall (fun b => key b < m) l ->
  value_of key
    (fold_left (fun acc a => if key a >? value_of key acc then Element a else acc)
       l acc) < m.
Proof.
  revert acc. induction l as [|b l IH]; intros acc Hacc H; [exact Hacc|].
  inversion H; subst. cbn [fold_left]. apply IH; [|assumption].
  destruct (key b >? value_of key acc); [cbn; assumption | assumption].
Qed.

(** The first element with the greatest key is returned, provided that key
    is above the seed. *)
Lemma reduce_greater_first_greatest (seed : Z) (a : A) (l : list A) :
  seed < key a -> first_greatest key a l -> reduce_greater key seed l = Element a.
Proof.
  intros Hseed (before & after & -> & Hbefore & Hafter).
  unfold reduce_greater. rewrite fold_left_app. cbn [fold_left].
  assert (Hbelow : value_of key
            (fold_left (fun acc a => if key a >? value_of key acc then Element a else acc)
               before (Seed seed)) < key a)
    by (apply fold_greater_below; [exact Hseed | exact Hbefore]).
  destruct (Z.gtb_spec (key a)
              (value_of key
                 (fold_left
                    (fun acc a => if key a >? value_of key acc then Element a else acc)
                    before (Seed seed)))); [|lia].
  apply fold_greater_stays. exact Hafter.
Qed.

End StrictReduceConverse.

(** ** Highest and lowest rejection rate *)

(** When some source has a positive rejection rate, [highestRejection] is
    the first source, in iteration order, whose rate is greatest. *)
Lemma highestRejection_first_greatest (i : SourceInsight.t)
  (l : list SourceInsight.t) :
  0 < SourceInsight.rejectionRate i ->
  first_greatest SourceInsight.rejectionRate i l ->
  highestRejection l = Element i.
Proof. intros. rewrite highestRejection_reduce. apply reduce_greater_first_greatest; assumption. Qed.

(** When no source has a positive rejection rate, [highestRejection] is the
    seed [{ rejectionRate: 0 }] and no source at all. *)
Lemma highestRejection_seed (l : list SourceInsight.t) :
  Forall (fun i => SourceInsight.rejectionRate i <= 0) l ->
  highestRejection l = Seed 0.
Proof.
  intros H. rewrite highestRejection_reduce.
  apply fold_greater_stays. exact H.
Qed.

(** When some source has a rejection rate below 100, [lowestRejection] is the
    first source, in iteration order, whose rate is least. *)
Lemma lowestRejection_first_least (i : SourceInsight.t) (l : list SourceInsight.t) :
  SourceInsight.rejectionRate i < 100 ->
  first_least SourceInsight.rejectionRate i l ->
  lowestRejection l = Element i.
Proof. intros. rewrite lowestRejection_reduce. apply reduce_less_first_least; assumption. Qed.

(** In particular, among sources with rates that are not negative, the first
    one without rejections is selected, whatever follows it. *)
Lemma lowestRejection_first_without_rejections (before after : list SourceInsight.t)
  (i : SourceInsight.t) :
  Forall (fun j => 0 < SourceInsight.rejectionRate j) before ->
  SourceInsight.rejectionRate i = 0 ->
  Forall (fun j => 0 <= SourceInsight.rejectionRate j) after ->
  lowestRejection (before ++ i :: after) = Element i.
Proof.
  intros Hbefore Hi Hafter. apply lowestRejection_first_least; [lia|].
  exists before, after. rewrite Hi. repeat split; assumption.
Qed.

(** When every source has a rejection rate of 100 or more, [lowestRejection]
    is the seed [{ rejectionRate: 100 }] and no source at all. *)
Lemma lowestRejection_seed (l : list SourceInsight.t) :
  Forall (fun i => 100 <= SourceInsight.rejectionRate i) l ->
  lowestRejection l = Seed 100.
Proof.
  intros H. rewrite lowestRejection_reduce.
  apply fold_less_stays. exact H.
Qed.

(** C4, at a table with one pending application.  The only source has
    rejection rate 0; the highest-rejection selection is then the seed object
    and not that source, and the narrative names the source [undefined]. *)
Theorem highest_rejection_without_rejections :
  source_insights (Db.by_source Sample.one_pending) initial
  = (Normal [SourceInsight.mk "LinkedIn" 1 0 0 100], initial) /\
  highestRejection [SourceInsight.mk "LinkedIn" 1 0 0 100] = Seed 0 /\
  exists r,
    getRejectionRateBySource Sample.one_pending initial = (Normal r, initial) /\
    includes (rejection_summary r)
      "🚨 **Highest Rejection Source**: undefined with 0% rejection rate" = true.
Proof.
  split; [vm_compute; reflexivity|].
  split; [reflexivity|].
  eexists. split; vm_compute; reflexivity.
Qed.

(** C5, at a table with two sources whose applications were all rejected.
    Both sources tie at rate 100; the lowest-rejection selection is then the
    seed object and neither source, and the narrative names the best source
    [undefined]. *)
Theorem lowest_rejection_all_rejected :
  source_insights (Db.by_source Sample2.all_rejected) initial
  = (Normal [ SourceInsight.mk "Indeed" 1 100 1 0;
              SourceInsight.mk "LinkedIn" 1 100 1 0 ], initial) /\
  lowestRejection [ SourceInsight.mk "Indeed" 1 100 1 0;
                    SourceInsight.mk "LinkedIn" 1 100 1 0 ] = Seed 100 /\
  exists r,
    getRejectionRateBySource Sample2.all_rejected initial = (Normal r, initial) /\
    includes (rejection_summary r)
      "🎯 **Best Performing Source**: undefined with only 100% rejection rate" = true.
Proof.
  split; [vm_compute; reflexivity|].
  split; [reflexivity|].
  eexists. split; vm_compute; reflexivity.
Qed.

(** A tie at rate 0 between two sources without rejections: the source met first in
    iteration order is selected. *)
Example lowest_rejection_none_rejected :
  source_insights (Db.by_source Sample2.none_rejected) initial
  = (Normal [ SourceInsight.mk "Indeed" 1 0 0 100;
              SourceInsight.mk "LinkedIn" 1 0 0 100 ], initial) /\
  lowestRejection [ SourceInsight.mk "Indeed" 1 0 0 100;
                    SourceInsight.mk "LinkedIn" 1 0 0 100 ]
  = Element (SourceInsight.mk "Indeed" 1 0 0 100).
Proof. split; [vm_compute; reflexivity | reflexivity]. Qed.

(** ** The best source of the comprehensive report *)

(** C6, at a table where source A has success rate 100 and source B has
    success rate 50.  The key finding compares the rendered rates as strings,
    under which ["50%"] is greater than ["100%"], and names B. *)
Theorem best_source_compares_strings :
  string_gt "50%" "100%" = true /\
  bestSource [ SourceEntry.mk "A" 1 "0%" 0 "100%";
               SourceEntry.mk "B" 2 "50%" 1 "50%" ]
  = Element (SourceEntry.mk "B" 2 "50%" 1 "50%") /\
  exists r,
    getComprehensiveInsights 0 Sample2.two_sources initial = (Normal r, initial) /\
    insights (rejectionRate (detailedInsights r))
    = [ SourceEntry.mk "A" 1 "0%" 0 "100%"; SourceEntry.mk "B" 2 "50%" 1 "50%" ] /\
    includes (comprehensiveSummary r)
      "✅ Your best application source is B with 50% success rate." = true.
Proof.
  split; [reflexivity|]. split; [reflexivity|].
  eexists. split; [vm_compute; reflexivity|].
  split; vm_compute; reflexivity.
Qed.

(** ** Response times *)

Lemma push_days_three (app : Db.timed) (a b c : list (option Q)) :
  push_days app [("Interview", a); ("Offer", b); ("Rejected", c)]
  = match Db.timed_status app with
    | Db.Interview =>
        [ ("Interview", (a ++ [Db.days_since_applied app])%list);
          ("Offer", b); ("Rejected", c) ]
    | Db.Offer =>
        [ ("Interview", a);
          ("Offer", (b ++ [Db.days_since_applied app])%list); ("Rejected", c) ]
    | Db.Rejected =>
        [ ("Interview", a); ("Offer", b);
          ("Rejected", (c ++ [Db.days_since_applied app])%list) ]
    end.
Proof. destruct app as [[| |] d]; reflexivity. Qed.

Lemma status_groups_from (applications : list Db.timed)
  (a b c : list (option Q)) :
  fold_left (fun groups app => push_days app groups) applications
    [("Interview", a); ("Offer", b); ("Rejected", c)]
  = [ ("Interview", (a ++ days_of Db.Interview applications)%list);
      ("Offer", (b ++ days_of Db.Offer applications)%list);
      ("Rejected", (c ++ days_of Db.Rejected applications)%list) ].
Proof.
  revert a b c. induction applications as [|app rest IH]; intros a b c.
  - cbn. rewrite !app_nil_r. reflexivity.
  - cbn [fold_left]. rewrite push_days_three.
    unfold days_of. cbn [filter].
    destruct (Db.timed_status app); rewrite IH; unfold days_of;
      cbn [terminal_eqb map]; rewrite <- ?app_assoc; reflexivity.
Qed.

(** [statusGroups] holds, under each of its three keys, the days of the rows
    with that status. *)
Lemma status_groups_spec (applications : list Db.timed) :
  status_groups applications
  = [ ("Interview", days_of Db.Interview applications);
      ("Offer", days_of Db.Offer applications);
      ("Rejected", days_of Db.Rejected applications) ].
Proof. unfold status_groups. rewrite status_groups_from. reflexivity. Qed.

Lemma fold_add_day_running (days : list (option Q)) (sum : Q) :
  fold_left add_day days sum
  = fold_left
      (fun sum day =>
         Binary64.fl (sum + match day with Some d => d | None => 0 end)%Q)
      days sum.
Proof.
  revert sum. induction days as [|d days IH]; intros sum; [reflexivity|].
  cbn [fold_left]. rewrite IH. destruct d; reflexivity.
Qed.

Lemma average_into_empty (status : string) (averages : list (string * Z)) :
  average_into (status, []) averages = averages.
Proof. reflexivity. Qed.

Lemma average_into_nonempty (status : string) (d : option Q)
  (days : list (option Q)) (averages : list (string * Z)) :
  average_into (status, d :: days) averages
  = own_set status (rounded_mean (d :: days)) averages.
Proof.
  unfold average_into, rounded_mean, running_sum, round, Binary64.div.
  rewrite fold_add_day_running. reflexivity.
Qed.

(** [averages] has an entry for exactly the statuses that have a row, in the
    order Interview, Offer, Rejected: a status without rows is absent, it is
    not present with value 0. *)
Lemma averages_spec (applications : list Db.timed) :
  averages_of (own_entries (status_groups applications))
  = (average_entry Db.Interview applications
     ++ average_entry Db.Offer applications
     ++ average_entry Db.Rejected applications)%list.
Proof.
  rewrite status_groups_spec. unfold average_entry.
  assert (Hentries : forall a b c : list (option Q),
            own_entries [("Interview", a); ("Offer", b); ("Rejected", c)]
            = [("Interview", a); ("Offer", b); ("Rejected", c)])
    by reflexivity.
  rewrite Hentries. unfold averages_of. cbn [fold_left].
  destruct (days_of Db.Interview applications) as [|i1 i];
    destruct (days_of Db.Offer applications) as [|o1 o];
    destruct (days_of Db.Rejected applications) as [|r1 r];
    rewrite ?average_into_empty, ?average_into_nonempty; reflexivity.
Qed.

Lemma average_absent (t : Db.terminal) (applications : list Db.timed) :
  days_of t applications = [] ->
  own_get (status_name t) (averages_of (own_entries (status_groups applications)))
  = None.
Proof.
  intros Hnone. rewrite averages_spec. unfold average_entry.
  destruct t; rewrite Hnone;
    destruct (days_of Db.Interview applications);
    destruct (days_of Db.Offer applications);
    destruct (days_of Db.Rejected applications);
    try discriminate Hnone; reflexivity.
Qed.

Lemma fastestResponse_snoc (l : list (string * Z)) (e : string * Z) :
  fastestResponse (l ++ [e])
  = if lt_ext (snd e) (avg (fastestResponse l))
    then mkResponse (fst e) (Finite (snd e)) else fastestResponse l.
Proof. unfold fastestResponse. rewrite fold_left_app. reflexivity. Qed.

Lemma slowestResponse_snoc (l : list (string * Z)) (e : string * Z) :
  slowestResponse (l ++ [e])
  = if gt_ext (snd e) (avg (slowestResponse l))
    then mkResponse (fst e) (Finite (snd e)) else slowestResponse l.
Proof. unfold slowestResponse. rewrite fold_left_app. reflexivity. Qed.

(** [fastestResponse] is the seed on no entry only; otherwise it is the first
    entry, in the order of [averages], with the least average. *)
Lemma fastestResponse_spec (l : list (string * Z)) :
  (l = [] /\ fastestResponse l = mkResponse EmptyString Infinity) \/
  (exists e,
     fastestResponse l = mkResponse (fst e) (Finite (snd e)) /\
     first_least snd e l).
Proof.
  induction l as [|e l IH] using rev_ind.
  - left. split; reflexivity.
  - right. rewrite fastestResponse_snoc.
    destruct IH as [[-> Hseed] | (b & Hb & before & after & -> & Hbefore & Hafter)].
    + rewrite Hseed. cbn. exists e. split; [reflexivity|].
      exists [], []. repeat split; constructor.
    + rewrite Hb. cbn [avg lt_ext].
      destruct (Z.ltb_spec (snd e) (snd b)) as [Hlt|Hge].
      * exists e. split; [reflexivity|].
        exists (before ++ b :: after)%list, []. repeat split.
        -- apply Forall_app. split.
           ++ eapply Forall_impl; [|exact Hbefore]. cbn. intros; lia.
           ++ constructor; [lia|].
              eapply Forall_impl; [|exact Hafter]. cbn. intros; lia.
        -- constructor.
      * exists b. split; [reflexivity|].
        exists before, (after ++ [e])%list. repeat split.
        -- rewrite <- app_assoc. reflexivity.
        -- exact Hbefore.
        -- apply Forall_app. split; [exact Hafter|].
           constructor; [lia | constructor].
Qed.

(** [slowestResponse] is the first entry with the greatest average when some
    average is positive; when none is, it is the seed [{ status: '', avg: 0 }],
    whose status is no status. *)
Lemma slowestResponse_spec (l : list (string * Z)) :
  (Forall (fun e => snd e <= 0) l /\
   slowestResponse l = mkResponse EmptyString (Finite 0)) \/
  (exists e,
     0 < snd e /\
     slowestResponse l = mkResponse (fst e) (Finite (snd e)) /\
     first_greatest snd e l).
Proof.
  induction l as [|e l IH] using rev_ind.
  - left. split; [constructor | reflexivity].
  - rewrite slowestResponse_snoc.
    destruct IH as [[Hall Hseed]
                   | (b & Hpos & Hb & before & after & -> & Hbefore & Hafter)].
    + rewrite Hseed. cbn [avg gt_ext].
      destruct (Z.gtb_spec (snd e) 0) as [Hgt|Hle].
      * right. exists e. split; [lia|]. split; [reflexivity|].
        exists l, []. repeat split.
        -- eapply Forall_impl; [|exact Hall]. cbn. intros; lia.
        -- constructor.
      * left. split; [|reflexivity].
        apply Forall_app. split; [exact Hall|]. constructor; [lia | constructor].
    + right. rewrite Hb. cbn [avg gt_ext].
      destruct (Z.gtb_spec (snd e) (snd b)) as [Hgt|Hle].
      * exists e. split; [lia|]. split; [reflexivity|].
        exists (before ++ b :: after)%list, []. repeat split.
        -- apply Forall_app. split.
           ++ eapply Forall_impl; [|exact Hbefore]. cbn. intros; lia.
           ++ constructor; [lia|].
              eapply Forall_impl; [|exact Hafter]. cbn. intros; lia.
        -- constructor.
      * exists b. split; [exact Hpos|]. split; [reflexivity|].
        exists before, (after ++ [e])%list. repeat split.
        -- rewrite <- app_assoc. reflexivity.
        -- exact Hbefore.
        -- apply Forall_app. split; [exact Hafter|].
           constructor; [lia | constructor].
Qed.

(** Scenario D: one Interview application, applied ten days before now. *)
Example response_time_scenario_D :
  exists r,
    getAverageResponseTime (10 * Sample.ms_per_day) Sample.scenario_D initial
    = (Normal r, initial) /\
    averages r = Some [("Interview", 10)] /\
    fastestResponse [("Interview", 10)] = mkResponse "Interview" (Finite 10) /\
    slowestResponse [("Interview", 10)] = mkResponse "Interview" (Finite 10).
Proof.
  eexists. split; [vm_compute; reflexivity|].
  repeat split; reflexivity.
Qed.

(** C7, at a table with one Interview application, applied a quarter of a
    day before now.  Its average rounds to 0 days; Interview is the only
    status present and is the fastest response, but the slowest response is
    the seed object, whose status is the empty string, and the narrative
    names no status. *)
Theorem slowest_response_same_day :
  exists r,
    getAverageResponseTime (Sample.ms_per_day / 4) Sample.scenario_D initial
    = (Normal r, initial) /\
    averages r = Some [("Interview", 0)] /\
    fastestResponse [("Interview", 0)] = mkResponse "Interview" (Finite 0) /\
    slowestResponse [("Interview", 0)] = mkResponse EmptyString (Finite 0) /\
    includes (response_summary r)
      "🐢 **Slowest Response**:  in 0 days on average" = true.
Proof.
  eexists. split; [vm_compute; reflexivity|].
  repeat split; vm_compute; reflexivity.
Qed.

(** ** Rates as percentages *)

Lemma own_get_In {A} (k : string) (v : A) (o : list (string * A)) :
  own_get k o = Some v -> In (k, v) o.
Proof.
  induction o as [|[k' v'] o IH]; cbn; [discriminate|].
  destruct (String.eqb_spec k k') as [->|_].
  - intros E. inversion E. left. reflexivity.
  - intros E. right. apply IH. exact E.
Qed.

Lemma own_set_Forall {A} (P : A -> Prop) (k : string) (v : A) (o : list (string * A)) :
  P v -> Forall (fun e => P (snd e)) o -> Forall (fun e => P (snd e)) (own_set k v o).
Proof.
  intros Hv. induction o as [|[k' v'] o IH]; cbn; intros H.
  - constructor; [exact Hv | constructor].
  - inversion H; subst. destruct (String.eqb k k').
    + constructor; [exact Hv | assumption].
    + constructor; [assumption | apply IH; assumption].
Qed.

Lemma insert_index_In {A} (i : Z) (e x : string * A) (j : Z)
  (l : list (Z * (string * A))) :
  In (j, x) (insert_index i e l) -> x = e \/ In x (map snd l).
Proof.
  induction l as [|[j' e'] l IH]; cbn.
  - intros [E|[]]. inversion E. left. reflexivity.
  - destruct (i <? j'); cbn.
    + intros [E|[E|H]].
      * inversion E. left. reflexivity.
      * inversion E. right. left. reflexivity.
      * right. right. apply in_map_iff. exists (j, x). split; [reflexivity | exact H].
    + intros [E|H].
      * inversion E. right. left. reflexivity.
      * destruct (IH H) as [->|H']; [left; reflexivity | right; right; exact H'].
Qed.

(** [Object.entries] lists own properties only. *)
Lemma own_entries_In {A} (e : string * A) (o : list (string * A)) :
  In e (own_entries o) -> In e o.
Proof.
  unfold own_entries. intros H. apply in_app_or in H. destruct H as [H|H].
  - induction o as [|[k v] o IH]; cbn in H; [contradiction|].
    destruct (array_index k) as [i|].
    + apply in_map_iff in H. destruct H as ([j x] & Hx & H). cbn in Hx. subst x.
      apply insert_index_In in H. destruct H as [->|H]; [left; reflexivity|].
      right. apply IH. exact H.
    + right. apply IH. exact H.
  - induction o as [|[k v] o IH]; cbn in H; [contradiction|].
    destruct (array_index k) as [i|].
    + right. apply IH. exact H.
    + destruct H as [<-|H]; [left; reflexivity | right; apply IH; exact H].
Qed.

Lemma data_put_sane (k : string) (c : Z) (d : data) :
  k <> "total" -> 0 <= c -> sane d -> sane (data_put k c (add_total c d)).
Proof.
  intros Hk Hc (Hr & Ha & Hi & Ho & Hsum). unfold data_put.
  destruct (String.eqb_spec k "total") as [E|_]; [contradiction|].
  repeat match goal with
         | |- context [String.eqb k ?s] => destruct (String.eqb k s)
         end;
    unfold sane, add_total; cbn; lia.
Qed.

Lemma fresh_data_sane : sane fresh_data.
Proof. unfold sane, fresh_data. cbn. lia. Qed.

(** A plain row keeps the counts of every group within its total. *)
Lemma organize_sane (r : Db.row) (groups groups' : list (string * data))
  (h h' : heap) :
  plain_row r ->
  Forall (fun e => sane (snd e)) groups ->
  organize r groups h = (Normal groups', h') ->
  Forall (fun e => sane (snd e)) groups'.
Proof.
  intros [Hcount Hstatus] Hgroups. unfold organize. cbv zeta.
  assert (Hupdate : forall d h0,
    sane d ->
    bind (status_key r)
      (fun k => ret (own_set (property_key (Db.group r))
                       (data_put k (Db.count r) (add_total (Db.count r) d)) groups)) h0
    = (Normal groups', h') ->
    Forall (fun e => sane (snd e)) groups').
  { intros d h0 Hd H. unfold status_key in H.
    destruct (Db.row_status r) as [s|] eqn:Es; [|discriminate H].
    cbn in H. inversion H; subst.
    apply (own_set_Forall sane); [|exact Hgroups].
    apply data_put_sane; auto. }
  destruct (own_get (property_key (Db.group r)) groups) as [d|] eqn:Eg.
  - apply Hupdate.
    apply own_get_In in Eg.
    rewrite Forall_forall in Hgroups. apply (Hgroups _ Eg).
  - unfold bind at 1. cbn [get_heap].
    destruct (inherited_get h (property_key (Db.group r))) as [|n|is_Object|].
    + apply Hupdate. apply fresh_data_sane.
    + destruct (truthy_num n); [discriminate|].
      apply Hupdate. apply fresh_data_sane.
    + intros H. run_inv H. run_inv H. apply ret_normal in H.
      destruct H as [<- _]. exact Hgroups.
    + intros H. run_inv H. run_inv H. run_inv H. apply ret_normal in H.
      destruct H as [<- _]. exact Hgroups.
Qed.

Lemma forEach_organize_sane (results : list Db.row)
  (groups groups' : list (string * data)) (h h' : heap) :
  Forall plain_row results ->
  Forall (fun e => sane (snd e)) groups ->
  forEach organize results groups h = (Normal groups', h') ->
  Forall (fun e => sane (snd e)) groups'.
Proof.
  revert groups h. induction results as [|r rest IH]; intros groups h Hrows Hgroups H.
  - cbn in H. apply ret_normal in H. destruct H as [<- _]. exact Hgroups.
  - inversion Hrows; subst. cbn [forEach] in H. run_inv H.
    eapply IH; [assumption | | exact H].
    eapply organize_sane; eassumption.
Qed.

Lemma source_insight_bounds (e : string * data) :
  sane (snd e) ->
  percentage (SourceInsight.rejectionRate (source_insight e)) /\
  percentage (SourceInsight.successRate (source_insight e)).
Proof.
  destruct e as [source d]. cbn [snd]. intros (Hr & Ha & Hi & Ho & Hsum).
  unfold source_insight.
  cbn [SourceInsight.rejectionRate SourceInsight.successRate].
  destruct (Z.gtb_spec (total d) 0) as [E|E].
  - assert (H : percentage (percent (rejected d) (total d)))
      by (apply percent_bounds; lia).
    unfold percentage in *. lia.
  - unfold percentage. lia.
Qed.

Lemma version_insight_bounds (e : string * data) :
  sane (snd e) ->
  percentage (VersionInsight.rejectionRate (version_insight e)) /\
  percentage (VersionInsight.successRate (version_insight e)) /\
  percentage (VersionInsight.interviewRate (version_insight e)) /\
  percentage (VersionInsight.offerRate (version_insight e)).
Proof.
  destruct e as [version d]. cbn [snd]. intros (Hr & Ha & Hi & Ho & Hsum).
  unfold version_insight.
  cbn [VersionInsight.rejectionRate VersionInsight.successRate
       VersionInsight.interviewRate VersionInsight.offerRate].
  destruct (Z.gtb_spec (total d) 0) as [E|E].
  - repeat split; apply percent_bounds; lia.
  - unfold percentage. repeat split; lia.
Qed.

(** On plain rows every rate of the source-rejection analyzer lies in
    [0 .. 100]. *)
Lemma source_rates_within_bounds (results : list Db.row) (h h' : heap)
  (l : list SourceInsight.t) :
  Forall plain_row results ->
  source_insights results h = (Normal l, h') ->
  Forall (fun i => percentage (SourceInsight.rejectionRate i) /\
                   percentage (SourceInsight.successRate i)) l.
Proof.
  intros Hrows H.
  apply source_insights_shape in H. destruct H as (sourceData & Hrun & _ & ->).
  apply forEach_organize_sane in Hrun; [|exact Hrows | constructor].
  apply Forall_forall. intros i Hi. apply in_map_iff in Hi.
  destruct Hi as (e & <- & He). apply source_insight_bounds.
  apply own_entries_In in He. rewrite Forall_forall in Hrun. apply (Hrun _ He).
Qed.

(** On plain rows every rate of the resume-version analyzer lies in
    [0 .. 100]. *)
Lemma version_rates_within_bounds (results : list Db.row) (h h' : heap)
  (l : list VersionInsight.t) :
  Forall plain_row results ->
  version_insights results h = (Normal l, h') ->
  Forall (fun v => percentage (VersionInsight.rejectionRate v) /\
                   percentage (VersionInsight.successRate v) /\
                   percentage (VersionInsight.interviewRate v) /\
                   percentage (VersionInsight.offerRate v)) l.
Proof.
  intros Hrows H.
  apply version_insights_shape in H. destruct H as (versionData & Hrun & _ & ->).
  apply forEach_organize_sane in Hrun; [|exact Hrows | constructor].
  apply Forall_forall. intros v Hv. apply in_map_iff in Hv.
  destruct Hv as (e & <- & He). apply version_insight_bounds.
  apply own_entries_In in He. rewrite Forall_forall in Hrun. apply (Hrun _ He).
Qed.

Lemma tally_plain (k : option string * option string) (l : list Db.row) :
  (forall s, snd k = Some s -> toLowerCase s <> "total") ->
  Forall plain_row l -> Forall plain_row (Db.tally k l).
Proof.
  intros Hk. induction l as [|r l IH]; intros H; cbn [Db.tally].
  - constructor; [|constructor]. split; [cbn; lia | exact Hk].
  - inversion H as [|r0 l0 [Hcount Hstatus] Hl]; subst.
    destruct (Db.pair_compare k (Db.group r, Db.row_status r)).
    + constructor; [|exact Hl]. split; [cbn; lia | exact Hstatus].
    + constructor; [|exact H]. split; [cbn; lia | exact Hk].
    + constructor; [split; assumption | apply IH; exact Hl].
Qed.

(** The rows of a grouping query over applications with plain statuses are
    plain: every count is positive. *)
Lemma group_count_plain (col : Db.application -> option string)
  (table : list Db.application) :
  Forall plain_status table -> Forall plain_row (Db.group_count col table).
Proof.
  unfold Db.group_count. intros Htable.
  assert (Hgen : forall acc, Forall plain_row acc ->
            Forall plain_row
              (fold_left (fun acc a => Db.tally (col a, Db.status a) acc) table acc)).
  { induction Htable as [|a table Ha _ IH]; intros acc Hacc; [exact Hacc|].
    cbn [fold_left]. apply IH. apply tally_plain; [exact Ha | exact Hacc]. }
  apply Hgen. constructor.
Qed.

(** On a table with plain statuses every rate that the resume-version
    analyzer returns lies in [0 .. 100]. *)
Lemma resume_report_within_bounds (table : list Db.application) (h h' : heap)
  (r : ResumeReport) :
  Forall plain_status table ->
  getBestPerformingResumeVersion table h = (Normal r, h') ->
  Forall (fun v => percentage (VersionInsight.rejectionRate v) /\
                   percentage (VersionInsight.successRate v) /\
                   percentage (VersionInsight.interviewRate v) /\
                   percentage (VersionInsight.offerRate v)) (versions r).
Proof.
  intros Htable H. unfold getBestPerformingResumeVersion in H.
  apply resume_report_shape in H. destruct H as (l & Hl & ->). cbn [versions].
  eapply version_rates_within_bounds; [|exact Hl].
  apply group_count_plain. exact Htable.
Qed.

(** C8, at a table with two rejected applications and one application whose
    status is the text [total].  The row of that status overwrites the
    running total of the group with its own count, 1; the rejection rate
    becomes 200 and the success rate -100 in the source-rejection analyzer,
    and the rejection rate 200 in the resume-version analyzer. *)
Theorem rates_out_of_bounds_with_total_status :
  Db.by_source Sample3.total_status
  = [ Db.mkRow (Some "LinkedIn") (Some "Rejected") 2;
      Db.mkRow (Some "LinkedIn") (Some "total") 1 ] /\
  source_insights (Db.by_source Sample3.total_status) initial
  = (Normal [SourceInsight.mk "LinkedIn" 1 200 2 (-100)], initial) /\
  (exists narrative,
     getRejectionRateBySource Sample3.total_status initial
     = (Normal (mkRejectionReport true
                  [SourceEntry.mk "LinkedIn" 1 "200%" 2 "-100%"] narrative),
        initial)) /\
  (exists narrative,
     getBestPerformingResumeVersion Sample3.total_status initial
     = (Normal (mkResumeReport true [VersionInsight.mk "1.0" 1 200 0 0 0] narrative),
        initial)).
Proof.
  split; [vm_compute; reflexivity|].
  split; [vm_compute; reflexivity|].
  split; eexists; vm_compute; reflexivity.
Qed.

(** ** Rendered rates and [parseInt] *)

Lemma parse_digits_numeral (d : Decimal.uint) (acc : option Z) (rest : string) :
  d <> Decimal.Nil ->
  parse_digits acc (NilEmpty.string_of_uint d ++ String "%" rest)
  = Some (digits_value (match acc with Some a => a | None => 0 end) d).
Proof.
  revert acc. induction d as [|d IH|d IH|d IH|d IH|d IH|d IH|d IH|d IH|d IH|d IH];
    intros acc Hd; [contradiction| ..];
    cbn [NilEmpty.string_of_uint String.append parse_digits];
    (destruct d; [reflexivity| ..]; apply IH; discriminate).
Qed.

Lemma digits_value_pos (d : Decimal.uint) (p : positive) :
  digits_value (Z.pos p) d = Z.pos (Pos.of_uint_acc d p).
Proof.
  revert p. induction d; intros p; cbn [digits_value Pos.of_uint_acc];
    [reflexivity| ..];
    match goal with
    | |- digits_value ?a _ = Z.pos (Pos.of_uint_acc _ ?q) =>
        replace a with (Z.pos q) by lia
    end; apply IHd.
Qed.

Lemma digits_value_of_uint (d : Decimal.uint) :
  digits_value 0 d = Z.of_N (Pos.of_uint d).
Proof.
  induction d; cbn [digits_value Pos.of_uint]; try reflexivity;
    try exact IHd;
    match goal with
    | |- digits_value ?a _ = _ =>
        change a with (Z.pos (Z.to_pos a)); rewrite digits_value_pos; reflexivity
    end.
Qed.

Lemma parse_digits_positive (p : positive) (rest : string) :
  parse_digits None (NilZero.string_of_uint (Pos.to_uint p) ++ String "%" rest)
  = Some (Z.pos p).
Proof.
  unfold NilZero.string_of_uint.
  pose proof (DecimalPos.Unsigned.to_uint_nonnil p) as Hnil.
  destruct (Pos.to_uint p) as [| | | | | | | | | |] eqn:E; [contradiction| ..];
    rewrite <- E; (rewrite parse_digits_numeral by (rewrite E; discriminate));
    rewrite digits_value_of_uint, DecimalPos.Unsigned.of_to; reflexivity.
Qed.

(** [parseInt] reads back the number that was rendered in front of [%]. *)
Lemma parseInt_show (z : Z) : parseInt (show_Z z ++ "%") = Some z.
Proof.
  unfold show_Z. destruct z as [|p|p]; [reflexivity| |].
  - cbn [Z.to_int NilZero.string_of_int].
    pose proof (parse_digits_positive p EmptyString) as H.
    unfold parseInt.
    destruct (NilZero.string_of_uint (Pos.to_uint p) ++ "%") as [|c s] eqn:E;
      [exact H|].
    destruct (Ascii.eqb_spec c "-") as [->|Hm].
    + cbn in H. discriminate H.
    + destruct (Ascii.eqb_spec c "+") as [->|Hp].
      * cbn in H. discriminate H.
      * destruct c as [[] [] [] [] [] [] [] []]; try exact H;
          first [exfalso; apply Hm; reflexivity | exfalso; apply Hp; reflexivity].
  - cbn [Z.to_int NilZero.string_of_int String.append parseInt].
    rewrite parse_digits_positive. reflexivity.
Qed.

(** On a table with plain statuses the two rates of every element that the
    source-rejection analyzer returns read back as numbers of [0 .. 100]. *)
Lemma rejection_report_within_bounds (table : list Db.application) (h h' : heap)
  (r : RejectionReport) (e : SourceEntry.t) :
  Forall plain_status table ->
  getRejectionRateBySource table h = (Normal r, h') ->
  In e (insights r) ->
  exists rate success : Z,
    parseInt (SourceEntry.rejectionRate e) = Some rate /\ percentage rate /\
    parseInt (SourceEntry.successRate e) = Some success /\ percentage success.
Proof.
  intros Htable H Hin. unfold getRejectionRateBySource in H.
  apply rejection_report_shape in H. destruct H as (l & Hl & ->).
  cbn [insights] in Hin. apply in_map_iff in Hin. destruct Hin as (i & <- & Hi).
  pose proof (source_rates_within_bounds _ _ _ _
                (group_count_plain Db.source table Htable) Hl) as Hbounds.
  rewrite Forall_forall in Hbounds. destruct (Hbounds i Hi) as [Hrate Hsuccess].
  exists (SourceInsight.rejectionRate i), (SourceInsight.successRate i).
  unfold source_entry. cbn [SourceEntry.rejectionRate SourceEntry.successRate].
  rewrite !parseInt_show.
  split; [reflexivity|]. split; [exact Hrate|]. split; [reflexivity | exact Hsuccess].
Qed.

(** C10.  When the source-rejection analyzer returns, every element of
    [insights] carries its two rates as strings, the decimal numeral of the
    rate followed by a percent sign, from which [parseInt] recovers the
    number; the resume-version analyzer returns its rates as numbers (the
    fields of [VersionInsight.t] are integers).  On the table of scenario B
    the same rate is the string ["50%"] in one report and the number 50 in
    the other, and on such strings [>] is the lexicographic order, under
    which ["50%"] is above ["100%"]. *)
Theorem source_rates_are_strings :
  (forall (results : list Db.row) (h h' : heap) (r : RejectionReport)
          (e : SourceEntry.t),
     rejection_report_of results h = (Normal r, h') ->
     In e (insights r) ->
     exists rate success : Z,
       SourceEntry.rejectionRate e = show_Z rate ++ "%" /\
       SourceEntry.successRate e = show_Z success ++ "%" /\
       parseInt (SourceEntry.rejectionRate e) = Some rate /\
       parseInt (SourceEntry.successRate e) = Some success) /\
  (exists narrative,
     getRejectionRateBySource Sample.scenario_B initial
     = (Normal (mkRejectionReport true
                  [SourceEntry.mk "LinkedIn" 2 "50%" 1 "50%"] narrative), initial)) /\
  (exists narrative,
     getBestPerformingResumeVersion Sample.scenario_B initial
     = (Normal (mkResumeReport true [VersionInsight.mk "1.0" 2 50 50 0 50] narrative),
        initial)) /\
  string_gt (show_Z 50 ++ "%") (show_Z 100 ++ "%") = true.
Proof.
  split; [|split; [|split]].
  - intros results h h' r e H Hin.
    apply rejection_report_shape in H. destruct H as (l & _ & ->).
    cbn [insights] in Hin. apply in_map_iff in Hin. destruct Hin as (i & <- & _).
    exists (SourceInsight.rejectionRate i), (SourceInsight.successRate i).
    unfold source_entry.
    cbn [SourceEntry.rejectionRate SourceEntry.successRate].
    rewrite !parseInt_show. repeat split; reflexivity.
  - eexists. vm_compute. reflexivity.
  - eexists. vm_compute. reflexivity.
  - reflexivity.
Qed.

(** C10, at the table of scenario A. *)
Lemma source_rates_are_strings_witness :
  exists rate success : Z,
    "50%" = show_Z rate ++ "%" /\
    "50%" = show_Z success ++ "%" /\
    parseInt "50%" = Some rate /\
    parseInt "50%" = Some success.
Proof.
  destruct source_rates_are_strings as [general _].
  eapply (general (Db.by_source Sample.scenario_A) initial _ _
            (SourceEntry.mk "LinkedIn" 2 "50%" 1 "50%")).
  - vm_compute. reflexivity.
  - left. reflexivity.
Defined.

(** ** Repeated runs *)

Lemma organize_ordinary (r : Db.row) (groups : list (string * data)) :
  ordinary_row r -> snd (organize r groups initial) = initial.
Proof.
  unfold ordinary_row, organize. intros Hkey. cbv zeta.
  destruct (own_get (property_key (Db.group r)) groups) as [d|].
  - unfold status_key. destruct (Db.row_status r); reflexivity.
  - unfold bind at 1. cbn [get_heap]. rewrite Hkey.
    unfold status_key. destruct (Db.row_status r); reflexivity.
Qed.

Lemma forEach_organize_ordinary (results : list Db.row)
  (groups : list (string * data)) :
  Forall ordinary_row results ->
  snd (forEach organize results groups initial) = initial.
Proof.
  revert groups. induction results as [|r rest IH]; intros groups H; [reflexivity|].
  inversion H; subst. cbn [forEach]. unfold bind.
  pose proof (organize_ordinary r groups H2) as Hstep.
  destruct (organize r groups initial) as [[groups'|] h1]; cbn [snd] in Hstep; subst h1.
  - apply IH. assumption.
  - reflexivity.
Qed.

(** On rows with ordinary group keys the two grouping analyzers leave the
    pristine realm as it was, so that a second run on the same table repeats
    the first. *)
Lemma source_analyzer_repeatable (results : list Db.row) :
  Forall ordinary_row results ->
  snd (rejection_report_of results initial) = initial /\
  rejection_report_of results (snd (rejection_report_of results initial))
  = rejection_report_of results initial.
Proof.
  intros H.
  assert (Hkeep : snd (rejection_report_of results initial) = initial).
  { unfold rejection_report_of, source_insights, bind.
    pose proof (forEach_organize_ordinary results [] H) as Hrun.
    destruct (forEach organize results [] initial) as [[groups|] h1];
      cbn [snd] in Hrun; subst h1; reflexivity. }
  split; [exact Hkeep | rewrite Hkeep; reflexivity].
Qed.

Lemma resume_analyzer_repeatable (results : list Db.row) :
  Forall ordinary_row results ->
  snd (resume_report_of results initial) = initial /\
  resume_report_of results (snd (resume_report_of results initial))
  = resume_report_of results initial.
Proof.
  intros H.
  assert (Hkeep : snd (resume_report_of results initial) = initial).
  { unfold resume_report_of, version_insights, bind.
    pose proof (forEach_organize_ordinary results [] H) as Hrun.
    destruct (forEach organize results [] initial) as [[groups|] h1];
      cbn [snd] in Hrun; subst h1; reflexivity. }
  split; [exact Hkeep | rewrite Hkeep; reflexivity].
Qed.

Lemma keeps_ret {A} (a : A) : keeps (ret a).
Proof. intros h. reflexivity. Qed.

Lemma keeps_throw {A} : keeps (@throw A).
Proof. intros h. reflexivity. Qed.

Lemma keeps_bind {A B} (m : M A) (k : A -> M B) :
  keeps m -> (forall a, keeps (k a)) -> keeps (bind m k).
Proof.
  intros Hm Hk h. unfold bind. specialize (Hm h).
  destruct (m h) as [[a|] h1]; cbn [snd] in Hm; subst h1; [apply Hk | reflexivity].
Qed.

Lemma keeps_Object_entries {A} (o : list (string * A)) : keeps (Object_entries o).
Proof. intros h. unfold Object_entries, bind, get_heap. destruct (entries_intact h); reflexivity. Qed.

Lemma keeps_Object_keys {A} (o : list (string * A)) : keeps (Object_keys o).
Proof. intros h. unfold Object_keys, bind, get_heap. destruct (keys_intact h); reflexivity. Qed.

(** The response-time analyzer never writes to the realm. *)
Lemma response_analyzer_keeps_realm (applications : list Db.timed) :
  keeps (response_report_of applications).
Proof.
  unfold response_report_of.
  destruct (List.length applications =? 0)%nat; [apply keeps_ret|].
  apply keeps_bind; [apply keeps_Object_entries|]. intros entries.
  apply keeps_bind; [apply keeps_Object_entries|]. intros statusesWithAverages.
  apply keeps_bind; [|intros; apply keeps_ret].
  unfold _generateResponseTimeSummary.
  apply keeps_bind; [apply keeps_Object_keys|]. intros keys.
  destruct (List.length keys =? 0)%nat; apply keeps_ret.
Qed.

(** C9, at a table with one application of resume version [1.0] and one
    whose resume version is [__proto__] and whose status is [1.0].  In a
    fresh process the first run of the resume-version analyzer returns, and
    leaves a property [1.0] on [Object.prototype]; the second run on the same
    table finds that number where it expects the group of version [1.0], and
    throws. *)
Theorem resume_analyzer_not_repeatable :
  Db.by_resume_version Sample3.proto_version
  = [ Db.mkRow (Some "1.0") (Some "Applied") 1;
      Db.mkRow (Some "__proto__") (Some "1.0") 1 ] /\
  exists r h1,
    getBestPerformingResumeVersion Sample3.proto_version initial = (Normal r, h1) /\
    versions r = [VersionInsight.mk "1.0" 1 0 0 0 0] /\
    proto h1 = [("total", NaN); ("1.0", Num 1)] /\
    fst (getBestPerformingResumeVersion Sample3.proto_version h1) = Throw.
Proof.
  split; [vm_compute; reflexivity|].
  eexists. eexists. split; [vm_compute; reflexivity|].
  repeat split; vm_compute; reflexivity.
Qed.

(** ** Row order of the response-time query *)

Lemma filter_permutation {A} (f : A -> bool) (l l' : list A) :
  Permutation.Permutation l l' ->
  Permutation.Permutation (filter f l) (filter f l').
Proof.
  intros P. induction P as [|a l l' _ IH|x y l|l l' l'' _ IH1 _ IH2].
  - constructor.
  - cbn [filter]. destruct (f a); [constructor|]; exact IH.
  - cbn [filter]. destruct (f x), (f y);
      first [apply Permutation.perm_swap | apply Permutation.Permutation_refl].
  - eapply Permutation.perm_trans; eassumption.
Qed.

(** The report is made from the number of rows and from the days of each
    status, in row order. *)
Lemma response_report_ext (l l' : list Db.timed) (h : heap) :
  List.length l = List.length l' ->
  (forall t, days_of t l = days_of t l') ->
  response_report_of l h = response_report_of l' h.
Proof.
  intros Hlen Hdays. unfold response_report_of. rewrite Hlen.
  destruct (List.length l' =? 0)%nat; [reflexivity|].
  unfold bind at 1. unfold bind at 3.
  unfold Object_entries at 1. unfold Object_entries at 2.
  unfold bind at 1. unfold bind at 3. cbn [get_heap].
  destruct (entries_intact h); [|reflexivity]. cbn [ret].
  rewrite !averages_spec. unfold average_entry. rewrite !Hdays.
  unfold _generateResponseTimeSummary. rewrite Hlen. reflexivity.
Qed.

Lemma instant_leb_trans (a b c : option Z) :
  Db.instant_leb a b = true -> Db.instant_leb b c = true ->
  Db.instant_leb a c = true.
Proof.
  destruct a, b, c; cbn; try discriminate; try reflexivity.
  rewrite !Z.leb_le. lia.
Qed.

Lemma instant_leb_total (a b : option Z) :
  Db.instant_leb a b = false -> Db.instant_leb b a = true.
Proof.
  destruct a, b; cbn; try discriminate; try reflexivity.
  rewrite Z.leb_gt, Z.leb_le. lia.
Qed.

Lemma instant_leb_antisym (a b : option Z) :
  Db.instant_leb a b = true -> Db.instant_leb b a = true -> a = b.
Proof.
  destruct a, b; cbn; try discriminate; try reflexivity.
  rewrite !Z.leb_le. intros. f_equal. lia.
Qed.

Lemma insert_by_date_permutation (a : Db.application) (l : list Db.application) :
  Permutation.Permutation (Db.insert_by_date a l) (a :: l).
Proof.
  induction l as [|b l IH]; cbn [Db.insert_by_date].
  - apply Permutation.Permutation_refl.
  - destruct (Db.instant_leb (Db.applied_at b) (Db.applied_at a)).
    + eapply Permutation.perm_trans; [apply Permutation.perm_skip, IH|].
      apply Permutation.perm_swap.
    + apply Permutation.Permutation_refl.
Qed.

(** [ORDER BY] rearranges the records. *)
Lemma order_by_applied_at_permutation (table : list Db.application) :
  Permutation.Permutation (Db.order_by_applied_at table) table.
Proof.
  unfold Db.order_by_applied_at.
  assert (Hgen : forall acc,
    Permutation.Permutation
      (fold_left (fun acc a => Db.insert_by_date a acc) table acc)
      (acc ++ table)%list).
  { induction table as [|a table IH]; intros acc; cbn [fold_left].
    - rewrite app_nil_r. apply Permutation.Permutation_refl.
    - eapply Permutation.perm_trans; [apply IH|].
      eapply Permutation.perm_trans;
        [apply Permutation.Permutation_app_tail, insert_by_date_permutation|].
      cbn [app]. apply Permutation.Permutation_middle. }
  apply (Hgen []).
Qed.

Lemma insert_by_date_sorted (a : Db.application) (l : list Db.application) :
  StronglySorted
    (fun x y => Db.instant_leb (Db.applied_at x) (Db.applied_at y) = true) l ->
  StronglySorted
    (fun x y => Db.instant_leb (Db.applied_at x) (Db.applied_at y) = true)
    (Db.insert_by_date a l).
Proof.
  induction l as [|b l IH]; intros Hs; cbn [Db.insert_by_date].
  - constructor; constructor.
  - inversion Hs as [|b0 l0 Hl Hb]; subst.
    destruct (Db.instant_leb (Db.applied_at b) (Db.applied_at a)) eqn:E.
    + constructor; [apply IH; exact Hl|].
      eapply Permutation.Permutation_Forall;
        [apply Permutation.Permutation_sym, insert_by_date_permutation|].
      constructor; [exact E | exact Hb].
    + apply instant_leb_total in E. constructor; [exact Hs|].
      constructor; [exact E|].
      eapply Forall_impl; [|exact Hb]. cbn. intros c Hc.
      eapply instant_leb_trans; eassumption.
Qed.

(** [ORDER BY] returns the records in ascending order of [applied_at]. *)
Lemma order_by_applied_at_sorted (table : list Db.application) :
  StronglySorted
    (fun x y => Db.instant_leb (Db.applied_at x) (Db.applied_at y) = true)
    (Db.order_by_applied_at table).
Proof.
  unfold Db.order_by_applied_at.
  assert (Hgen : forall acc,
    StronglySorted
      (fun x y => Db.instant_leb (Db.applied_at x) (Db.applied_at y) = true) acc ->
    StronglySorted
      (fun x y => Db.instant_leb (Db.applied_at x) (Db.applied_at y) = true)
      (fold_left (fun acc a => Db.insert_by_date a acc) table acc)).
  { induction table as [|a table IH]; intros acc H; [exact H|].
    cbn [fold_left]. apply IH, insert_by_date_sorted. exact H. }
  apply Hgen. constructor.
Qed.

(** The days of a status are those of the records of that status, in the
    order of the records. *)
Lemma days_of_select_completed (now : Z) (t : Db.terminal)
  (table : list Db.application) :
  days_of t (Db.select_completed now table)
  = map (Db.days_between now)
      (map Db.applied_at (filter (holds_status t) table)).
Proof.
  unfold days_of. induction table as [|a table IH]; [reflexivity|].
  cbn [Db.select_completed filter]. unfold holds_status at 1.
  destruct (Db.terminal_of (Db.status a)) as [u|].
  - cbn [filter Db.timed_status].
    destruct (terminal_eqb u t); cbn [map Db.days_since_applied]; rewrite IH;
      reflexivity.
  - exact IH.
Qed.

Lemma instants_sorted (f : Db.application -> bool) (l : list Db.application) :
  StronglySorted
    (fun x y => Db.instant_leb (Db.applied_at x) (Db.applied_at y) = true) l ->
  StronglySorted (fun x y => Db.instant_leb x y = true)
    (map Db.applied_at (filter f l)).
Proof.
  induction 1 as [|a l Hl IH Ha]; cbn [filter map]; [constructor|].
  destruct (f a); [|exact IH]. cbn [map]. constructor; [exact IH|].
  apply Forall_forall. intros k Hk. apply in_map_iff in Hk.
  destruct Hk as (b & <- & Hb). apply filter_In in Hb.
  rewrite Forall_forall in Ha. apply Ha. apply Hb.
Qed.

(** Two ascending lists of instants with the same members are the same
    list. *)
Lemma sorted_instants_unique (l1 l2 : list (option Z)) :
  StronglySorted (fun x y => Db.instant_leb x y = true) l1 ->
  StronglySorted (fun x y => Db.instant_leb x y = true) l2 ->
  Permutation.Permutation l1 l2 -> l1 = l2.
Proof.
  intros H1. revert l2. induction H1 as [|a l1 Hl1 IH Ha]; intros l2 H2 P.
  - apply Permutation.Permutation_nil in P. symmetry. exact P.
  - destruct H2 as [|b l2 Hl2 Hb].
    + apply Permutation.Permutation_sym, Permutation.Permutation_nil in P.
      discriminate P.
    + assert (E : a = b).
      { assert (Hab : In a (b :: l2))
          by (eapply Permutation.Permutation_in; [exact P | left; reflexivity]).
        assert (Hba : In b (a :: l1))
          by (eapply Permutation.Permutation_in;
              [apply Permutation.Permutation_sym; exact P | left; reflexivity]).
        destruct Hab as [->|Hab]; [reflexivity|].
        destruct Hba as [->|Hba]; [reflexivity|].
        rewrite Forall_forall in Ha, Hb.
        apply instant_leb_antisym; [apply Ha, Hba | apply Hb, Hab]. }
      subst b. f_equal. apply IH; [exact Hl2|].
      eapply Permutation.Permutation_cons_inv. exact P.
Qed.

Lemma select_completed_permutation (now : Z) (table table' : list Db.application) :
  Permutation.Permutation table table' ->
  Permutation.Permutation (Db.select_completed now table)
    (Db.select_completed now table').
Proof.
  intros P. induction P as [|a l l' _ IH|x y l|l l' l'' _ IH1 _ IH2].
  - constructor.
  - cbn [Db.select_completed]. destruct (Db.terminal_of (Db.status a));
      [constructor|]; exact IH.
  - cbn [Db.select_completed].
    destruct (Db.terminal_of (Db.status x)), (Db.terminal_of (Db.status y));
      first [apply Permutation.perm_swap | apply Permutation.Permutation_refl].
  - eapply Permutation.perm_trans; eassumption.
Qed.

(** The rows of the query are those of the table's applications that hold
    one of the three statuses, whatever the order. *)
Lemma completed_permutation (now : Z) (table table' : list Db.application) :
  Permutation.Permutation table table' ->
  Permutation.Permutation (Db.completed now table) (Db.completed now table').
Proof.
  intros P. unfold Db.completed. apply select_completed_permutation.
  eapply Permutation.perm_trans; [apply order_by_applied_at_permutation|].
  eapply Permutation.perm_trans; [exact P|].
  apply Permutation.Permutation_sym, order_by_applied_at_permutation.
Qed.

(** The days of each status, in the order of the query, are the same for
    every order of the table: the query sorts by [applied_at], and records
    applied at the same instant carry the same days. *)
Lemma completed_days_permutation (now : Z) (t : Db.terminal)
  (table table' : list Db.application) :
  Permutation.Permutation table table' ->
  days_of t (Db.completed now table) = days_of t (Db.completed now table').
Proof.
  intros P. unfold Db.completed. rewrite !days_of_select_completed. f_equal.
  apply sorted_instants_unique.
  - apply instants_sorted, order_by_applied_at_sorted.
  - apply instants_sorted, order_by_applied_at_sorted.
  - apply Permutation.Permutation_map, filter_permutation.
    eapply Permutation.perm_trans; [apply order_by_applied_at_permutation|].
    eapply Permutation.perm_trans; [exact P|].
    apply Permutation.Permutation_sym, order_by_applied_at_permutation.
Qed.

(** * Further properties *)

(** ** What the grouped rows carry *)

Lemma text_compare_eq (a b : option string) :
  Db.text_compare a b = Eq -> a = b.
Proof.
  destruct a as [x|], b as [y|]; cbn; try discriminate; [|reflexivity].
  intros H. apply String.compare_eq_iff in H. congruence.
Qed.

Lemma pair_compare_eq (k1 k2 : option string * option string) :
  Db.pair_compare k1 k2 = Eq -> k1 = k2.
Proof.
  destruct k1 as [a1 b1], k2 as [a2 b2]. unfold Db.pair_compare. cbn [fst snd].
  destruct (Db.text_compare a1 a2) eqn:E; try discriminate.
  intros H. apply text_compare_eq in E, H. congruence.
Qed.

(** Every row of [tally k l] carries the pair [k] or the pair of a row of
    [l]. *)
Lemma tally_In_inv (k : option string * option string) (l : list Db.row)
  (r : Db.row) :
  In r (Db.tally k l) ->
  (Db.group r, Db.row_status r) = k \/
  exists r0, In r0 l /\ Db.group r0 = Db.group r /\ Db.row_status r0 = Db.row_status r.
Proof.
  induction l as [|r1 l IH]; cbn [Db.tally].
  - intros [<-|[]]. left. destruct k; reflexivity.
  - destruct (Db.pair_compare k (Db.group r1, Db.row_status r1)) eqn:E.
    + intros [<-|H].
      * right. exists r1. cbn. auto.
      * right. exists r. cbn. auto.
    + intros [<-|H].
      * left. destruct k; reflexivity.
      * right. exists r. auto.
    + intros [<-|H].
      * right. exists r1. cbn. auto.
      * destruct (IH H) as [Hk|(r0 & Hin & Hg & Hs)]; [left; exact Hk|].
        right. exists r0. cbn. auto.
Qed.

(** [tally k l] has a row for the pair [k], and one for the pair of every
    row of [l]. *)
Lemma tally_In_new (k : option string * option string) (l : list Db.row) :
  exists r, In r (Db.tally k l) /\ (Db.group r, Db.row_status r) = k.
Proof.
  induction l as [|r1 l IH]; cbn [Db.tally].
  - eexists. split; [left; reflexivity | destruct k; reflexivity].
  - destruct (Db.pair_compare k (Db.group r1, Db.row_status r1)) eqn:E.
    + apply pair_compare_eq in E. eexists. split; [left; reflexivity|].
      cbn. symmetry. exact E.
    + eexists. split; [left; reflexivity | destruct k; reflexivity].
    + destruct IH as (r & Hin & Hk). exists r. split; [right; exact Hin | exact Hk].
Qed.

Lemma tally_In_old (k : option string * option string) (l : list Db.row)
  (r0 : Db.row) :
  In r0 l ->
  exists r, In r (Db.tally k l) /\
            Db.group r = Db.group r0 /\ Db.row_status r = Db.row_status r0.
Proof.
  induction l as [|r1 l IH]; [intros []|]. cbn [Db.tally]. intros Hin.
  destruct (Db.pair_compare k (Db.group r1, Db.row_status r1)) eqn:E.
  - destruct Hin as [<-|Hin].
    + eexists. split; [left; reflexivity | cbn; auto].
    + exists r0. split; [right; exact Hin | auto].
  - exists r0. split; [right; exact Hin | auto].
  - destruct Hin as [<-|Hin].
    + exists r1. split; [left; reflexivity | auto].
    + destruct (IH Hin) as (r & Hr & Hg & Hs). exists r. split; [right; exact Hr | auto].
Qed.

(** The rows of a grouping query carry the column value and the status of
    applications of the table, and every application has its row. *)
Lemma group_count_In_inv (col : Db.application -> option string)
  (table : list Db.application) (r : Db.row) :
  In r (Db.group_count col table) ->
  exists a, In a table /\ col a = Db.group r /\ Db.status a = Db.row_status r.
Proof.
  unfold Db.group_count.
  assert (Hgen : forall acc,
    In r (fold_left (fun acc a => Db.tally (col a, Db.status a) acc) table acc) ->
    (exists a, In a table /\ col a = Db.group r /\ Db.status a = Db.row_status r) \/
    (exists r0, In r0 acc /\ Db.group r0 = Db.group r /\
                Db.row_status r0 = Db.row_status r)).
  { induction table as [|a table IH]; intros acc H; cbn [fold_left] in H.
    - right. exists r. auto.
    - destruct (IH _ H) as [(a0 & Hin & Hc & Hs)|(r0 & Hin & Hg & Hs)].
      + left. exists a0. cbn. auto.
      + apply tally_In_inv in Hin. destruct Hin as [Hk|(r1 & Hin & Hg1 & Hs1)].
        * left. exists a. inversion Hk. cbn. split; [auto|]. split; congruence.
        * right. exists r1. split; [exact Hin|]. split; congruence. }
  intros H. destruct (Hgen [] H) as [Ha|(r0 & [] & _)]. exact Ha.
Qed.

Lemma group_count_In (col : Db.application -> option string)
  (table : list Db.application) (a : Db.application) :
  In a table ->
  exists r, In r (Db.group_count col table) /\
            Db.group r = col a /\ Db.row_status r = Db.status a.
Proof.
  unfold Db.group_count.
  assert (Hkeep : forall table acc r0, In r0 acc ->
    exists r, In r (fold_left (fun acc a => Db.tally (col a, Db.status a) acc) table acc) /\
              Db.group r = Db.group r0 /\ Db.row_status r = Db.row_status r0).
  { clear. induction table as [|a table IH]; intros acc r0 Hin; cbn [fold_left].
    - exists r0. auto.
    - destruct (tally_In_old (col a, Db.status a) acc r0 Hin) as (r1 & Hr1 & Hg & Hs).
      destruct (IH _ _ Hr1) as (r & Hr & Hg' & Hs'). exists r.
      split; [exact Hr|]. split; congruence. }
  revert a. generalize (@nil Db.row).
  induction table as [|a0 table IH]; intros acc a Hin; [destruct Hin|].
  cbn [fold_left]. destruct Hin as [->|Hin].
  - destruct (tally_In_new (col a, Db.status a) acc) as (r1 & Hr1 & Hk).
    destruct (Hkeep table _ r1 Hr1) as (r & Hr & Hg & Hs). exists r.
    split; [exact Hr|]. split; congruence.
  - apply IH. exact Hin.
Qed.

(** ** A NULL status *)

Lemma bind_throw {A B} (m : M A) (k : A -> M B) (h : heap) :
  fst (m h) = Throw -> fst (bind m k h) = Throw.
Proof.
  unfold bind. destruct (m h) as [[a|] h1]; cbn; [discriminate | reflexivity].
Qed.

Lemma organize_null_status (r : Db.row) (groups : list (string * data)) (h : heap) :
  Db.row_status r = None -> fst (organize r groups h) = Throw.
Proof.
  intros Hnull. unfold organize. cbv zeta. unfold status_key. rewrite Hnull.
  destruct (own_get (property_key (Db.group r)) groups) as [d|]; [reflexivity|].
  unfold bind at 1. cbn [get_heap].
  destruct (inherited_get h (property_key (Db.group r))) as [|n|is_Object|].
  - reflexivity.
  - destruct (truthy_num n); reflexivity.
  - reflexivity.
  - reflexivity.
Qed.

Lemma forEach_organize_null_status (results : list Db.row) (r : Db.row)
  (groups : list (string * data)) (h : heap) :
  In r results -> Db.row_status r = None ->
  fst (forEach organize results groups h) = Throw.
Proof.
  intros Hin Hnull. revert groups h.
  induction results as [|r0 rest IH]; intros groups h; [destruct Hin|].
  cbn [forEach]. unfold bind.
  destruct Hin as [->|Hin].
  - pose proof (organize_null_status r groups h Hnull) as Hthrow.
    destruct (organize r groups h) as [[g|] h1]; cbn in Hthrow;
      [discriminate | reflexivity].
  - destruct (organize r0 groups h) as [[g|] h1]; [apply IH; exact Hin | reflexivity].
Qed.

Lemma rows_with_null_status_throw (results : list Db.row) (r : Db.row) (h : heap) :
  In r results -> Db.row_status r = None ->
  fst (rejection_report_of results h) = Throw /\
  fst (resume_report_of results h) = Throw.
Proof.
  intros Hin Hnull.
  pose proof (forEach_organize_null_status results r [] h Hin Hnull) as Hthrow.
  split.
  - unfold rejection_report_of, source_insights.
    apply bind_throw, bind_throw. exact Hthrow.
  - unfold resume_report_of, version_insights.
    apply bind_throw, bind_throw. exact Hthrow.
Qed.

(** X1.  One application whose status is NULL is enough for the
    source-rejection analyzer, the resume-version analyzer and the
    comprehensive report to throw, whatever else the table holds and in every
    realm; the route then answers 500 with its fixed error message. *)
Theorem null_status_throws (now : Z) (table : list Db.application)
  (a : Db.application) (h : heap) :
  In a table -> Db.status a = None ->
  fst (getRejectionRateBySource table h) = Throw /\
  fst (getBestPerformingResumeVersion table h) = Throw /\
  fst (getComprehensiveInsights now table h) = Throw /\
  fst (Routes.get_insights now table h)
  = Routes.mkResponse 500 (Routes.Error "Failed to generate insights").
Proof.
  intros Hin Hnull.
  destruct (group_count_In Db.source table a Hin) as (r1 & Hr1 & _ & Hs1).
  destruct (group_count_In Db.resume_version table a Hin) as (r2 & Hr2 & _ & Hs2).
  rewrite Hnull in Hs1, Hs2.
  pose proof (proj1 (rows_with_null_status_throw _ r1 h Hr1 Hs1)) as H1.
  pose proof (proj2 (rows_with_null_status_throw _ r2 h Hr2 Hs2)) as H2.
  assert (H3 : fst (getComprehensiveInsights now table h) = Throw).
  { unfold getComprehensiveInsights. apply bind_throw. exact H1. }
  repeat split; try assumption.
  unfold Routes.get_insights.
  destruct (getComprehensiveInsights now table h) as [[r|] h1]; cbn in H3;
    [discriminate | reflexivity].
Qed.

(** X1, at a table whose only application has a NULL status, in the realm of
    a fresh process. *)
Lemma null_status_throws_witness :
  fst (getRejectionRateBySource Sample4.null_status initial) = Throw /\
  fst (getBestPerformingResumeVersion Sample4.null_status initial) = Throw /\
  fst (getComprehensiveInsights 0 Sample4.null_status initial) = Throw /\
  fst (Routes.get_insights 0 Sample4.null_status initial)
  = Routes.mkResponse 500 (Routes.Error "Failed to generate insights").
Proof.
  apply (null_status_throws 0 Sample4.null_status
           (Db.mkApplication 1 "Acme" "Engineer" None (Some "LinkedIn") (Some "1.0")
              (Some 0)) initial).
  - left. reflexivity.
  - reflexivity.
Defined.

(** ** Writes to the realm *)

Lemma keeps_get_heap : keeps get_heap.
Proof. intros h. reflexivity. Qed.

Lemma keeps_status_key (r : Db.row) : keeps (status_key r).
Proof. intros h. unfold status_key. destruct (Db.row_status r); reflexivity. Qed.

(** In a realm with further properties on [Object.prototype], an ordinary key
    finds nothing or one of those numbers. *)
Lemma inherited_get_ordinary (h : heap) (k : string) :
  ordinary_key k ->
  match inherited_get h k with
  | Missing | Stored _ => True
  | Method _ | Prototype => False
  end.
Proof.
  unfold ordinary_key, inherited_get. cbn [proto initial own_get].
  destruct (String.eqb k "__proto__"); [discriminate|].
  intros Hkey. destruct (own_get k (proto h)); [exact I|].
  destruct (String.eqb k "constructor"); [discriminate|].
  destruct (existsb (String.eqb k) builtin_methods); [discriminate | exact I].
Qed.

Lemma organize_keeps (r : Db.row) (groups : list (string * data)) :
  ordinary_key (property_key (Db.group r)) -> keeps (organize r groups).
Proof.
  intros Hkey h. unfold organize. cbv zeta.
  assert (Hupdate : forall d,
    keeps (bind (status_key r)
             (fun k => ret (own_set (property_key (Db.group r))
                              (data_put k (Db.count r) (add_total (Db.count r) d))
                              groups))))
    by (intros d; apply keeps_bind; [apply keeps_status_key | intros; apply keeps_ret]).
  destruct (own_get (property_key (Db.group r)) groups) as [d|]; [apply Hupdate|].
  unfold bind at 1. cbn [get_heap].
  pose proof (inherited_get_ordinary h _ Hkey) as Hget.
  destruct (inherited_get h (property_key (Db.group r))) as [|n| |];
    try contradiction.
  - apply Hupdate.
  - destruct (truthy_num n); [reflexivity | apply Hupdate].
Qed.

Lemma forEach_organize_keeps (results : list Db.row) (groups : list (string * data)) :
  Forall (fun r => ordinary_key (property_key (Db.group r))) results ->
  keeps (forEach organize results groups).
Proof.
  intros H. revert groups. induction H as [|r rest Hr _ IH]; intros groups.
  - apply keeps_ret.
  - cbn [forEach]. apply keeps_bind; [apply organize_keeps; exact Hr | exact IH].
Qed.

Lemma rejection_report_keeps (results : list Db.row) :
  Forall (fun r => ordinary_key (property_key (Db.group r))) results ->
  keeps (rejection_report_of results).
Proof.
  intros H. unfold rejection_report_of, source_insights.
  apply keeps_bind; [|intros; apply keeps_bind; [apply keeps_get_heap | intros; apply keeps_ret]].
  apply keeps_bind; [apply forEach_organize_keeps; exact H|]. intros.
  apply keeps_bind; [apply keeps_Object_entries | intros; apply keeps_ret].
Qed.

Lemma resume_report_keeps (results : list Db.row) :
  Forall (fun r => ordinary_key (property_key (Db.group r))) results ->
  keeps (resume_report_of results).
Proof.
  intros H. unfold resume_report_of, version_insights.
  apply keeps_bind; [|intros; apply keeps_bind; [apply keeps_get_heap | intros; apply keeps_ret]].
  apply keeps_bind; [apply forEach_organize_keeps; exact H|]. intros.
  apply keeps_bind; [apply keeps_Object_entries | intros; apply keeps_ret].
Qed.

Lemma response_findings_keeps (r : ResponseTimeReport) : keeps (response_findings r).
Proof.
  unfold response_findings. destruct (averages r) as [a|].
  - apply keeps_bind; [apply keeps_Object_keys|]. intros keys.
    destruct (0 <? List.length keys)%nat; apply keeps_ret.
  - apply keeps_bind; [apply keeps_get_heap|]. intros h.
    destruct (inherited_value h "averages") as [|n|s]; try apply keeps_ret.
    destruct (truthy_num n); [|apply keeps_ret].
    apply keeps_bind; [apply keeps_Object_keys | intros; apply keeps_ret].
Qed.

Lemma group_count_ordinary (col : Db.application -> option string)
  (table : list Db.application) :
  Forall (fun a => ordinary_key (property_key (col a))) table ->
  Forall (fun r => ordinary_key (property_key (Db.group r))) (Db.group_count col table).
Proof.
  intros H. apply Forall_forall. intros r Hr.
  destruct (group_count_In_inv col table r Hr) as (a & Ha & Hc & _).
  rewrite Forall_forall in H. rewrite <- Hc. apply H. exact Ha.
Qed.

(** X2.  When every source and every resume version of the table is an
    ordinary key, each analyzer and the comprehensive report, whether they
    return or throw, leave every realm exactly as they found it, also a realm
    whose [Object.prototype] already carries further properties. *)
Theorem ordinary_keys_keep_realm (now : Z) (table : list Db.application) (h : heap) :
  Forall (fun a => ordinary_key (property_key (Db.source a)) /\
                   ordinary_key (property_key (Db.resume_version a))) table ->
  snd (getRejectionRateBySource table h) = h /\
  snd (getBestPerformingResumeVersion table h) = h /\
  snd (getAverageResponseTime now table h) = h /\
  snd (getComprehensiveInsights now table h) = h.
Proof.
  intros H.
  assert (Hs : keeps (getRejectionRateBySource table)).
  { apply rejection_report_keeps, group_count_ordinary.
    eapply Forall_impl; [|exact H]. cbn. intros a [Ha _]. exact Ha. }
  assert (Hv : keeps (getBestPerformingResumeVersion table)).
  { apply resume_report_keeps, group_count_ordinary.
    eapply Forall_impl; [|exact H]. cbn. intros a [_ Ha]. exact Ha. }
  assert (Ht : keeps (getAverageResponseTime now table))
    by apply response_analyzer_keeps_realm.
  repeat split; [apply Hs | apply Hv | apply Ht |].
  unfold getComprehensiveInsights.
  apply keeps_bind; [exact Hs|]. intros r1.
  apply keeps_bind; [exact Hv|]. intros r2.
  apply keeps_bind; [exact Ht|]. intros r3.
  apply keeps_bind; [apply keeps_get_heap|]. intros h0.
  apply keeps_bind; [apply response_findings_keeps | intros; apply keeps_ret].
Qed.

(** X2, at the table of scenario A in the realm of a fresh process. *)
Lemma ordinary_keys_keep_realm_witness :
  snd (getRejectionRateBySource Sample.scenario_A initial) = initial /\
  snd (getBestPerformingResumeVersion Sample.scenario_A initial) = initial /\
  snd (getAverageResponseTime 0 Sample.scenario_A initial) = initial /\
  snd (getComprehensiveInsights 0 Sample.scenario_A initial) = initial.
Proof.
  apply (ordinary_keys_keep_realm 0 Sample.scenario_A initial).
  repeat constructor.
Defined.

(** ** Tables on which the service returns *)

Lemma organize_returns (r : Db.row) (groups : list (string * data)) :
  Db.row_status r <> None -> ordinary_key (property_key (Db.group r)) ->
  exists groups', organize r groups initial = (Normal groups', initial).
Proof.
  intros Hstatus Hkey. unfold organize. cbv zeta. unfold status_key.
  destruct (Db.row_status r) as [s|]; [|contradiction].
  destruct (own_get (property_key (Db.group r)) groups) as [d|].
  - eexists. reflexivity.
  - unfold bind at 1. cbn [get_heap]. unfold ordinary_key in Hkey. rewrite Hkey.
    eexists. reflexivity.
Qed.

Lemma forEach_organize_returns (results : list Db.row)
  (groups : list (string * data)) :
  Forall (fun r => Db.row_status r <> None /\
                   ordinary_key (property_key (Db.group r))) results ->
  exists groups', forEach organize results groups initial = (Normal groups', initial).
Proof.
  intros H. revert groups. induction H as [|r rest [Hs Hk] _ IH]; intros groups.
  - eexists. reflexivity.
  - cbn [forEach]. unfold bind.
    destruct (organize_returns r groups Hs Hk) as (g1 & ->). apply IH.
Qed.

Lemma rejection_report_returns (results : list Db.row) :
  Forall (fun r => Db.row_status r <> None /\
                   ordinary_key (property_key (Db.group r))) results ->
  exists r, rejection_report_of results initial = (Normal r, initial).
Proof.
  intros H. destruct (forEach_organize_returns results [] H) as (groups & Hrun).
  unfold rejection_report_of, source_insights, bind. rewrite Hrun.
  eexists. reflexivity.
Qed.

Lemma resume_report_returns (results : list Db.row) :
  Forall (fun r => Db.row_status r <> None /\
                   ordinary_key (property_key (Db.group r))) results ->
  exists r, resume_report_of results initial = (Normal r, initial).
Proof.
  intros H. destruct (forEach_organize_returns results [] H) as (groups & Hrun).
  unfold resume_report_of, version_insights, bind. rewrite Hrun.
  eexists. reflexivity.
Qed.

Lemma bind_step {A B} (m : M A) (k : A -> M B) (h h1 : heap) (a : A) :
  m h = (Normal a, h1) -> bind m k h = k a h1.
Proof. intros E. unfold bind. rewrite E. reflexivity. Qed.

Lemma response_summary_returns (averages : list (string * Z))
  (fastest slowest : response) (applications : list Db.timed) :
  exists narrative,
    _generateResponseTimeSummary averages fastest slowest applications initial
    = (Normal narrative, initial).
Proof.
  unfold _generateResponseTimeSummary.
  erewrite bind_step by reflexivity.
  match goal with
  | |- context [if ?c then _ else _] => destruct c
  end; eexists; reflexivity.
Qed.

(** The response-time analyzer returns on every list of rows. *)
Lemma response_report_returns (applications : list Db.timed) :
  exists r, response_report_of applications initial = (Normal r, initial).
Proof.
  unfold response_report_of.
  destruct (List.length applications =? 0)%nat; [eexists; reflexivity|].
  erewrite bind_step by reflexivity.
  erewrite bind_step by reflexivity.
  match goal with
  | |- context [_generateResponseTimeSummary ?a ?f ?s ?l] =>
      destruct (response_summary_returns a f s l) as (narrative & Hsum)
  end.
  rewrite (bind_step _ _ _ _ _ Hsum). eexists. reflexivity.
Qed.

Lemma response_findings_returns (r : ResponseTimeReport) :
  exists lines, response_findings r initial = (Normal lines, initial).
Proof.
  unfold response_findings. destruct (averages r) as [a|].
  - erewrite bind_step by reflexivity.
    match goal with
    | |- context [if ?c then _ else _] => destruct c
    end; eexists; reflexivity.
  - eexists. reflexivity.
Qed.

Lemma group_count_regular (col : Db.application -> option string)
  (table : list Db.application) :
  Forall (fun a => Db.status a <> None /\ ordinary_key (property_key (col a))) table ->
  Forall (fun r => Db.row_status r <> None /\
                   ordinary_key (property_key (Db.group r)))
         (Db.group_count col table).
Proof.
  intros H. apply Forall_forall. intros r Hr.
  destruct (group_count_In_inv col table r Hr) as (a & Ha & Hc & Hs).
  rewrite Forall_forall in H. rewrite <- Hc, <- Hs. apply H. exact Ha.
Qed.

(** X3.  On a table in which every status is set and every source and
    resume version is an ordinary key, the comprehensive report returns in
    the realm of a fresh process and leaves that realm as it was, and the
    route answers 200 with the report; the next request therefore starts from
    the same realm. *)
Theorem regular_table_is_served (now : Z) (table : list Db.application) :
  Forall regular table ->
  exists insights,
    getComprehensiveInsights now table initial = (Normal insights, initial) /\
    Routes.get_insights now table initial
    = (Routes.mkResponse 200 (Routes.Report insights), initial).
Proof.
  intros H.
  assert (Hs : exists r, getRejectionRateBySource table initial = (Normal r, initial)).
  { apply rejection_report_returns, group_count_regular.
    eapply Forall_impl; [|exact H]. cbn. intros a (Ha & Hb & _). auto. }
  assert (Hv : exists r, getBestPerformingResumeVersion table initial
                         = (Normal r, initial)).
  { apply resume_report_returns, group_count_regular.
    eapply Forall_impl; [|exact H]. cbn. intros a (Ha & _ & Hb). auto. }
  destruct Hs as (r1 & H1), Hv as (r2 & H2).
  destruct (response_report_returns (Db.completed now table)) as (r3 & H3).
  destruct (response_findings_returns r3) as (lines & H4).
  assert (Hrun : exists insights,
            getComprehensiveInsights now table initial = (Normal insights, initial)).
  { unfold getComprehensiveInsights, bind.
    rewrite H1, H2. unfold getAverageResponseTime. rewrite H3.
    cbn [get_heap]. rewrite H4. eexists. reflexivity. }
  destruct Hrun as (insights & Hrun). exists insights. split; [exact Hrun|].
  unfold Routes.get_insights. rewrite Hrun. reflexivity.
Qed.

(** X3, at the table of scenario A. *)
Lemma regular_table_is_served_witness :
  exists insights,
    getComprehensiveInsights 0 Sample.scenario_A initial = (Normal insights, initial) /\
    Routes.get_insights 0 Sample.scenario_A initial
    = (Routes.mkResponse 200 (Routes.Report insights), initial).
Proof.
  apply (regular_table_is_served 0 Sample.scenario_A).
  repeat constructor; discriminate.
Defined.

(** ** The selections, completely *)

Section FirstExtremum.

Context {A : Type} (key : A -> Z).

(** A list has at most one first element with the greatest key. *)
Lemma first_greatest_unique (a b : A) (l : list A) :
  first_greatest key a l -> first_greatest key b l -> a = b.
Proof.
  intros (b1 & a1 & -> & Hb1 & Ha1) (b2 & a2 & E & Hb2 & Ha2).
  revert b2 E Hb2. induction b1 as [|x b1 IH]; intros b2 E Hb2.
  - destruct b2 as [|y b2]; cbn in E.
    + inversion E. reflexivity.
    + inversion E; subst y a1. inversion Hb2; subst.
      assert (Hin : In b (b2 ++ b :: a2)) by (apply in_elt).
      rewrite Forall_forall in Ha1. specialize (Ha1 b Hin). lia.
  - destruct b2 as [|y b2]; cbn in E.
    + inversion E; subst x a2. inversion Hb1; subst.
      assert (Hin : In a (b1 ++ a :: a1)) by (apply in_elt).
      rewrite Forall_forall in Ha2. specialize (Ha2 a Hin). lia.
    + inversion E; subst y. inversion Hb1; subst. inversion Hb2; subst.
      eapply IH; eassumption.
Qed.

Lemma first_least_unique (a b : A) (l : list A) :
  first_least key a l -> first_least key b l -> a = b.
Proof.
  intros (b1 & a1 & -> & Hb1 & Ha1) (b2 & a2 & E & Hb2 & Ha2).
  revert b2 E Hb2. induction b1 as [|x b1 IH]; intros b2 E Hb2.
  - destruct b2 as [|y b2]; cbn in E.
    + inversion E. reflexivity.
    + inversion E; subst y a1. inversion Hb2; subst.
      assert (Hin : In b (b2 ++ b :: a2)) by (apply in_elt).
      rewrite Forall_forall in Ha1. specialize (Ha1 b Hin). lia.
  - destruct b2 as [|y b2]; cbn in E.
    + inversion E; subst x a2. inversion Hb1; subst.
      assert (Hin : In a (b1 ++ a :: a1)) by (apply in_elt).
      rewrite Forall_forall in Ha2. specialize (Ha2 a Hin). lia.
    + inversion E; subst y. inversion Hb1; subst. inversion Hb2; subst.
      eapply IH; eassumption.
Qed.

Lemma reduce_greater_iff (seed : Z) (l : list A) :
  (forall a, reduce_greater key seed l = Element a <->
             seed < key a /\ first_greatest key a l) /\
  (forall v, reduce_greater key seed l = Seed v <->
             v = seed /\ Forall (fun a => key a <= seed) l).
Proof.
  pose proof (reduce_greater_spec key seed l) as Hspec. split.
  - intros a. split.
    + intros E. rewrite E in Hspec. exact Hspec.
    + intros [Hseed Hfirst]. apply reduce_greater_first_greatest; assumption.
  - intros v. split.
    + intros E. rewrite E in Hspec. exact Hspec.
    + intros [-> Hall]. apply fold_greater_stays. exact Hall.
Qed.

Lemma reduce_less_iff (seed : Z) (l : list A) :
  (forall a, reduce_less key seed l = Element a <->
             key a < seed /\ first_least key a l) /\
  (forall v, reduce_less key seed l = Seed v <->
             v = seed /\ Forall (fun a => seed <= key a) l).
Proof.
  pose proof (reduce_less_spec key seed l) as Hspec. split.
  - intros a. split.
    + intros E. rewrite E in Hspec. exact Hspec.
    + intros [Hseed Hfirst]. apply reduce_less_first_least; assumption.
  - intros v. split.
    + intros E. rewrite E in Hspec. exact Hspec.
    + intros [-> Hall]. apply fold_less_stays. exact Hall.
Qed.

End FirstExtremum.

(** X4.  The two selections of the source-rejection analyzer, completely:
    [highestRejection] is a source exactly when that source is the first one,
    in iteration order, with the greatest rejection rate and this rate is
    positive, and is the seed exactly when no rate is positive;
    [lowestRejection] is a source exactly when that source is the first one
    with the least rate and this rate is below 100, and is the seed exactly
    when every rate is 100 or more. *)
Theorem rejection_selections (l : list SourceInsight.t) :
  (forall i, highestRejection l = Element i <->
             0 < SourceInsight.rejectionRate i /\
             first_greatest SourceInsight.rejectionRate i l) /\
  (forall v, highestRejection l = Seed v <->
             v = 0 /\ Forall (fun i => SourceInsight.rejectionRate i <= 0) l) /\
  (forall i, lowestRejection l = Element i <->
             SourceInsight.rejectionRate i < 100 /\
             first_least SourceInsight.rejectionRate i l) /\
  (forall v, lowestRejection l = Seed v <->
             v = 100 /\ Forall (fun i => 100 <= SourceInsight.rejectionRate i) l).
Proof.
  rewrite highestRejection_reduce, lowestRejection_reduce.
  destruct (reduce_greater_iff SourceInsight.rejectionRate 0 l) as [H1 H2].
  destruct (reduce_less_iff SourceInsight.rejectionRate 100 l) as [H3 H4].
  split; [exact H1|]. split; [exact H2|]. split; [exact H3 | exact H4].
Qed.

(** X5.  The selections of the resume-version analyzer, completely, by
    success rate: [bestVersion] is the first version with the greatest
    success rate when that rate is positive and the seed when no rate is;
    [worstVersion] is the first version with the least success rate when that
    rate is below 100 and the seed when every rate is 100 or more.  The
    comprehensive report selects its best resume by the same reduction. *)
Theorem version_selections (l : list VersionInsight.t) :
  (forall v, bestVersion l = Element v <->
             0 < VersionInsight.successRate v /\
             first_greatest VersionInsight.successRate v l) /\
  (forall s, bestVersion l = Seed s <->
             s = 0 /\ Forall (fun v => VersionInsight.successRate v <= 0) l) /\
  (forall v, worstVersion l = Element v <->
             VersionInsight.successRate v < 100 /\
             first_least VersionInsight.successRate v l) /\
  (forall s, worstVersion l = Seed s <->
             s = 100 /\ Forall (fun v => 100 <= VersionInsight.successRate v) l) /\
  bestResume l = bestVersion l.
Proof.
  rewrite bestVersion_reduce, worstVersion_reduce.
  destruct (reduce_greater_iff VersionInsight.successRate 0 l) as [H1 H2].
  destruct (reduce_less_iff VersionInsight.successRate 100 l) as [H3 H4].
  split; [exact H1|]. split; [exact H2|]. split; [exact H3|].
  split; [exact H4 | reflexivity].
Qed.

(** X6.  The selections of the response-time analyzer, completely: on one
    entry or more [fastestResponse] is the first entry of [averages] with the
    least average; [slowestResponse] is the first entry with the greatest
    average when that average is positive, and is the seed, with the empty
    status and average 0, when no average is positive. *)
Theorem response_selections (l : list (string * Z)) :
  (l <> [] ->
   exists e, first_least snd e l /\
             fastestResponse l = mkResponse (fst e) (Finite (snd e))) /\
  (forall e, first_least snd e l ->
             fastestResponse l = mkResponse (fst e) (Finite (snd e))) /\
  (forall e, 0 < snd e -> first_greatest snd e l ->
             slowestResponse l = mkResponse (fst e) (Finite (snd e))) /\
  (Forall (fun e => snd e <= 0) l ->
   slowestResponse l = mkResponse EmptyString (Finite 0)).
Proof.
  split; [|split; [|split]].
  - intros Hl.
    destruct (fastestResponse_spec l) as [[-> _]|(e & He & Hfirst)];
      [contradiction|].
    exists e. split; assumption.
  - intros e Hfirst.
    destruct (fastestResponse_spec l) as [[-> _]|(e' & He' & Hfirst')].
    + destruct Hfirst as (before & after & E & _). destruct before; discriminate E.
    + rewrite He'. rewrite (first_least_unique snd e' e l Hfirst' Hfirst). reflexivity.
  - intros e Hpos Hfirst.
    destruct (slowestResponse_spec l) as [[Hall _]|(e' & _ & He' & Hfirst')].
    + destruct Hfirst as (before & after & -> & _ & _).
      rewrite Forall_forall in Hall.
      assert (Hin : In e (before ++ e :: after)) by apply in_elt.
      specialize (Hall e Hin). lia.
    + rewrite He'. rewrite (first_greatest_unique snd e' e l Hfirst' Hfirst).
      reflexivity.
  - intros Hall.
    destruct (slowestResponse_spec l) as [[_ Hseed]|(e' & Hpos & _ & Hfirst')];
      [exact Hseed|].
    destruct Hfirst' as (before & after & -> & _ & _).
    rewrite Forall_forall in Hall.
    assert (Hin : In e' (before ++ e' :: after)) by apply in_elt.
    specialize (Hall e' Hin). lia.
Qed.

(** X4, on two sources of which the second has the only positive rate. *)
Lemma rejection_selections_witness :
  highestRejection [ SourceInsight.mk "A" 1 0 0 100; SourceInsight.mk "B" 2 50 1 50 ]
  = Element (SourceInsight.mk "B" 2 50 1 50).
Proof.
  apply (proj1 (rejection_selections
                  [ SourceInsight.mk "A" 1 0 0 100; SourceInsight.mk "B" 2 50 1 50 ])).
  split; [reflexivity|].
  exists [SourceInsight.mk "A" 1 0 0 100], [].
  split; [reflexivity|]. split; repeat constructor.
Defined.

(** X5, on two versions that tie at success rate 50. *)
Lemma version_selections_witness :
  bestVersion [ VersionInsight.mk "1.0" 2 50 50 0 50;
                VersionInsight.mk "2.0" 2 0 50 50 0 ]
  = Element (VersionInsight.mk "1.0" 2 50 50 0 50).
Proof.
  apply (proj1 (version_selections
                  [ VersionInsight.mk "1.0" 2 50 50 0 50;
                    VersionInsight.mk "2.0" 2 0 50 50 0 ])).
  split; [reflexivity|].
  exists [], [VersionInsight.mk "2.0" 2 0 50 50 0].
  split; [reflexivity|]. split; repeat constructor. cbn. lia.
Defined.

(** X6, on interviews after 4 days on average and rejections after 1. *)
Lemma response_selections_witness :
  slowestResponse [("Interview", 4); ("Rejected", 1)]
  = mkResponse "Interview" (Finite 4).
Proof.
  apply (proj1 (proj2 (proj2 (response_selections
                                [("Interview", 4); ("Rejected", 1)])))
           ("Interview", 4)).
  - reflexivity.
  - exists [], [("Rejected", 1)].
    split; [reflexivity|]. split; repeat constructor. cbn. lia.
Defined.

(** ** The response-time report *)

(** X7.  In a realm whose [Object.entries] and [Object.keys] are the
    built-ins, on a table with one application or more in status Interview,
    Offer or Rejected, the response-time analyzer returns and leaves the realm
    alone, and [averages] holds, in the order Interview, Offer, Rejected, one
    entry for each of these statuses that has an application; a status
    without application has no entry.  The value of an entry is [Math.round]
    of the mean of the days of its rows as binary64 arithmetic yields it:
    each day the difference of two rounded Julian days, the sum accumulated in
    the order of the query, a NULL day adding nothing, and the quotient by the
    number of rows rounded once more. *)
Theorem response_time_averages (now : Z) (table : list Db.application) (h : heap) :
  entries_intact h = true -> keys_intact h = true ->
  Db.completed now table <> [] ->
  exists narrative,
    getAverageResponseTime now table h
    = (Normal
         (mkResponseTimeReport true
            (Some (average_entry Db.Interview (Db.completed now table)
                   ++ average_entry Db.Offer (Db.completed now table)
                   ++ average_entry Db.Rejected (Db.completed now table))%list)
            narrative), h).
Proof.
  intros He Hk Hrows. unfold getAverageResponseTime, response_report_of.
  destruct (Db.completed now table) as [|app rest] eqn:E; [contradiction|].
  cbn [List.length Nat.eqb].
  assert (Hentries : forall {A} (o : list (string * A)),
            Object_entries o h = (Normal (own_entries o), h)).
  { intros A o. unfold Object_entries, bind, get_heap. rewrite He. reflexivity. }
  rewrite (bind_step _ _ _ _ _ (Hentries _ _)).
  rewrite (bind_step _ _ _ _ _ (Hentries _ _)).
  rewrite averages_spec.
  set (averages := (average_entry Db.Interview (app :: rest)
                    ++ average_entry Db.Offer (app :: rest)
                    ++ average_entry Db.Rejected (app :: rest))%list).
  assert (Hsum : exists narrative,
    _generateResponseTimeSummary averages
      (fastestResponse (own_entries averages))
      (slowestResponse (own_entries averages)) (app :: rest) h
    = (Normal narrative, h)).
  { unfold _generateResponseTimeSummary.
    assert (Hkeys : Object_keys averages h
                    = (Normal (map fst (own_entries averages)), h))
      by (unfold Object_keys, bind, get_heap; rewrite Hk; reflexivity).
    rewrite (bind_step _ _ _ _ _ Hkeys).
    match goal with
    | |- context [if ?c then _ else _] => destruct c
    end; eexists; reflexivity. }
  destruct Hsum as (narrative & Hsum). rewrite (bind_step _ _ _ _ _ Hsum).
  exists narrative. reflexivity.
Qed.

(** X7, at two interviews applied eight and sixteen hours before
    2023-11-14T22:13:20Z: twelve hours on average, but the mean of the two
    differences of Julian days is 0.49999999976716936, and the entry is 0. *)
Lemma response_time_averages_witness :
  exists narrative,
    getAverageResponseTime Sample7.evening Sample7.thirds initial
    = (Normal (mkResponseTimeReport true (Some [("Interview", 0)]) narrative),
       initial).
Proof.
  destruct (response_time_averages Sample7.evening Sample7.thirds initial
              eq_refl eq_refl) as (narrative & H).
  - discriminate.
  - exists narrative. exact H.
Defined.

(** X8.  The report of the response-time analyzer, narrative included, does
    not depend on the order in which the table holds its applications: the
    query returns them by [applied_at], and applications applied at the same
    instant carry the same days. *)
Theorem response_time_ignores_order (now : Z) (table table' : list Db.application)
  (h : heap) :
  Permutation.Permutation table table' ->
  getAverageResponseTime now table h = getAverageResponseTime now table' h.
Proof.
  intros P. unfold getAverageResponseTime. apply response_report_ext.
  - apply Permutation.Permutation_length, completed_permutation. exact P.
  - intros t. apply completed_days_permutation. exact P.
Qed.

(** X8, at a table and a rearrangement of it. *)
Lemma response_time_ignores_order_witness :
  getAverageResponseTime (10 * Sample.ms_per_day) Sample5.mixed initial
  = getAverageResponseTime (10 * Sample.ms_per_day) Sample5.mixed_reordered initial.
Proof.
  apply (response_time_ignores_order (10 * Sample.ms_per_day)
           Sample5.mixed Sample5.mixed_reordered initial).
  unfold Sample5.mixed, Sample5.mixed_reordered.
  eapply Permutation.perm_trans;
    [apply (Permutation.Permutation_cons_append _ (Sample.application 1 "LinkedIn" "1.0" "Interview" (8 * Sample.ms_per_day)))|].
  eapply Permutation.perm_trans;
    [apply (Permutation.Permutation_cons_append _ (Sample.application 2 "Indeed" "2.0" "Rejected" (9 * Sample.ms_per_day)))|].
  cbn [app].
  eapply Permutation.perm_trans; [apply Permutation.perm_swap|].
  apply Permutation.Permutation_refl.
Defined.

(** ** Rates within bounds, for both analyzers *)

(** X9.  On a table in which no status lower-cases to [total], every rate
    that the resume-version analyzer returns is a number of [0 .. 100], and
    the two rates of every element that the source-rejection analyzer returns
    are numerals that read back as numbers of [0 .. 100]; this holds in every
    realm and for every source and resume version. *)
Theorem plain_statuses_bound_rates (table : list Db.application) :
  Forall plain_status table ->
  (forall h h' r,
     getBestPerformingResumeVersion table h = (Normal r, h') ->
     Forall (fun v => percentage (VersionInsight.rejectionRate v) /\
                      percentage (VersionInsight.successRate v) /\
                      percentage (VersionInsight.interviewRate v) /\
                      percentage (VersionInsight.offerRate v)) (versions r)) /\
  (forall h h' r e,
     getRejectionRateBySource table h = (Normal r, h') ->
     In e (insights r) ->
     exists rate success : Z,
       parseInt (SourceEntry.rejectionRate e) = Some rate /\ percentage rate /\
       parseInt (SourceEntry.successRate e) = Some success /\ percentage success).
Proof.
  intros Htable. split.
  - intros h h' r H. eapply resume_report_within_bounds; eassumption.
  - intros h h' r e H Hin. eapply rejection_report_within_bounds; eassumption.
Qed.

(** X9, at the table of scenario B. *)
Lemma plain_statuses_bound_rates_witness :
  Forall (fun v => percentage (VersionInsight.rejectionRate v) /\
                   percentage (VersionInsight.successRate v) /\
                   percentage (VersionInsight.interviewRate v) /\
                   percentage (VersionInsight.offerRate v))
         [VersionInsight.mk "1.0" 2 50 50 0 50].
Proof.
  assert (Hplain : Forall plain_status Sample.scenario_B).
  { repeat constructor; intros s E; inversion E; subst s; discriminate. }
  apply (proj1 (plain_statuses_bound_rates Sample.scenario_B Hplain) initial initial
           (mkResumeReport true [VersionInsight.mk "1.0" 2 50 50 0 50]
              (_generateResumeVersionSummary initial
                 [VersionInsight.mk "1.0" 2 50 50 0 50]
                 (Element (VersionInsight.mk "1.0" 2 50 50 0 50))
                 (Element (VersionInsight.mk "1.0" 2 50 50 0 50))))).
  vm_compute. reflexivity.
Defined.

(** ** The comprehensive narrative *)

Lemma append_assoc (a b c : string) : (a ++ b) ++ c = a ++ (b ++ c).
Proof. induction a as [|x a IH]; cbn; [reflexivity | rewrite IH; reflexivity]. Qed.

Lemma join_lines_cons (x : string) (l : list string) :
  l <> [] -> join_lines (x :: l) = x ++ nl ++ join_lines l.
Proof. destruct l; [contradiction | reflexivity]. Qed.

Lemma join_lines_app (l1 l2 : list string) :
  l1 <> [] -> l2 <> [] ->
  join_lines (l1 ++ l2)%list = join_lines l1 ++ nl ++ join_lines l2.
Proof.
  intros H1 H2. induction l1 as [|x l1 IH]; [contradiction|].
  destruct l1 as [|y l1].
  - cbn [app]. apply join_lines_cons. exact H2.
  - change ((x :: y :: l1) ++ l2)%list with (x :: ((y :: l1) ++ l2))%list.
    rewrite join_lines_cons by discriminate.
    rewrite IH by discriminate.
    rewrite (join_lines_cons x (y :: l1)) by discriminate.
    rewrite !append_assoc. reflexivity.
Qed.

(** The report that [getComprehensiveInsights] returns, in terms of the
    three runs it is made of. *)
Lemma comprehensive_shape (now : Z) (table : list Db.application) (h h' : heap)
  (r : ComprehensiveReport) :
  getComprehensiveInsights now table h = (Normal r, h') ->
  exists r1 r2 r3 h1 h2 time_findings,
    getRejectionRateBySource table h = (Normal r1, h1) /\
    getBestPerformingResumeVersion table h1 = (Normal r2, h2) /\
    getAverageResponseTime now table h2 = (Normal r3, h') /\
    response_findings r3 h' = (Normal time_findings, h') /\
    r = mkComprehensiveReport true
          (join_lines (comprehensive_lines h' r1 r2 r3 time_findings))
          (mkDetailedInsights r1 r2 r3).
Proof.
  unfold getComprehensiveInsights. intros H.
  apply bind_normal in H. destruct H as (r1 & h1 & Hrun1 & H).
  apply bind_normal in H. destruct H as (r2 & h2 & Hrun2 & H).
  apply bind_normal in H. destruct H as (r3 & h3 & Hrun3 & H).
  apply bind_normal in H. destruct H as (h4 & h5 & Hget & H).
  apply bind_normal in H. destruct H as (lines & h6 & Hfind & H).
  unfold get_heap in Hget. injection Hget as E1 E2. subst h4 h5.
  apply ret_normal in H. destruct H as [<- <-].
  pose proof (response_analyzer_keeps_realm (Db.completed now table) h2) as Hk.
  unfold getAverageResponseTime in Hrun3. rewrite Hrun3 in Hk. cbn in Hk. subst h3.
  pose proof (response_findings_keeps r3 h2) as Hk. rewrite Hfind in Hk. cbn in Hk.
  subst h6.
  exists r1, r2, r3, h1, h2, lines. repeat split; assumption.
Qed.

(** X10.  The comprehensive report is made of the three analyzers run in
    the order source, resume, response time, each in the realm that the one
    before left; it carries their three reports unchanged, and its narrative
    ends with the heading of the detailed analysis followed by their three
    narratives in that order, each after an empty line. *)
Theorem comprehensive_report_composition (now : Z) (table : list Db.application)
  (h h' : heap) (r : ComprehensiveReport) :
  getComprehensiveInsights now table h = (Normal r, h') ->
  exists h1 h2 head,
    getRejectionRateBySource table h
    = (Normal (rejectionRate (detailedInsights r)), h1) /\
    getBestPerformingResumeVersion table h1
    = (Normal (resumePerformance (detailedInsights r)), h2) /\
    getAverageResponseTime now table h2
    = (Normal (responseTime (detailedInsights r)), h') /\
    comprehensiveSummary r
    = head ++ nl ++ (nl ++ "📈 **Detailed Analysis**:")
           ++ nl ++ (nl ++ rejection_summary (rejectionRate (detailedInsights r)))
           ++ nl ++ (nl ++ resume_summary (resumePerformance (detailedInsights r)))
           ++ nl ++ (nl ++ response_summary (responseTime (detailedInsights r))).
Proof.
  intros H. apply comprehensive_shape in H.
  destruct H as (r1 & r2 & r3 & h1 & h2 & lines & H1 & H2 & H3 & _ & ->).
  cbn [detailedInsights rejectionRate resumePerformance responseTime
       comprehensiveSummary].
  exists h1, h2. eexists. repeat split; try eassumption.
  unfold comprehensive_lines.
  match goal with
  | |- join_lines (List.concat [?l1; ?l2; ?l3; ?l4; ?l5; ?l6; ?l7; ?l8; ?l9]) = _ =>
      change [l1; l2; l3; l4; l5; l6; l7; l8; l9]
        with ([l1; l2; l3; l4; l5; l6; l7; l8] ++ [l9])%list
  end.
  rewrite concat_app. cbn [List.concat]. rewrite (app_nil_r [_; _; _; _]).
  rewrite join_lines_app; [reflexivity | cbn; discriminate | discriminate].
Qed.

(** X10, at the table of scenario A. *)
Lemma comprehensive_report_composition_witness :
  exists r h1 h2 head,
    getRejectionRateBySource Sample.scenario_A initial
    = (Normal (rejectionRate (detailedInsights r)), h1) /\
    getBestPerformingResumeVersion Sample.scenario_A h1
    = (Normal (resumePerformance (detailedInsights r)), h2) /\
    getAverageResponseTime 0 Sample.scenario_A h2
    = (Normal (responseTime (detailedInsights r)), initial) /\
    comprehensiveSummary r
    = head ++ nl ++ (nl ++ "📈 **Detailed Analysis**:")
           ++ nl ++ (nl ++ rejection_summary (rejectionRate (detailedInsights r)))
           ++ nl ++ (nl ++ resume_summary (resumePerformance (detailedInsights r)))
           ++ nl ++ (nl ++ response_summary (responseTime (detailedInsights r))).
Proof.
  eexists.
  eapply (comprehensive_report_composition 0 Sample.scenario_A initial initial).
  vm_compute. reflexivity.
Defined.

Lemma prefix_append (n a b : string) :
  String.prefix n a = true -> String.prefix n (a ++ b) = true.
Proof.
  revert a. induction n as [|c n IH]; intros a; [destruct (a ++ b); reflexivity|].
  destruct a as [|d a]; cbn; [discriminate|].
  destruct (Ascii.ascii_dec c d); [apply IH | discriminate].
Qed.

Lemma prefix_refl (n : string) : String.prefix n n = true.
Proof.
  induction n as [|c n IH]; cbn; [reflexivity|].
  destruct (Ascii.ascii_dec c c); [exact IH | contradiction].
Qed.

Lemma includes_refl (n : string) : includes n n = true.
Proof.
  destruct n as [|c n]; [reflexivity|].
  cbn [includes]. rewrite prefix_refl. reflexivity.
Qed.

Lemma includes_append_l (a b n : string) :
  includes a n = true -> includes (a ++ b) n = true.
Proof.
  induction a as [|c a IH]; cbn [includes].
  - intros H. rewrite orb_false_r in H.
    destruct n; [destruct b; reflexivity | discriminate H].
  - intros H. apply orb_true_iff in H. cbn [String.append includes].
    apply orb_true_iff. destruct H as [H|H].
    + left. apply (prefix_append n (String c a) b H).
    + right. apply IH. exact H.
Qed.

Lemma includes_append_r (a b n : string) :
  includes b n = true -> includes (a ++ b) n = true.
Proof.
  intros H. induction a as [|c a IH]; [exact H|].
  cbn [String.append includes]. rewrite IH. apply orb_true_r.
Qed.

(** A line is part of the text that the lines are joined to. *)
Lemma includes_join_lines (l : list string) (x : string) :
  In x l -> includes (join_lines l) x = true.
Proof.
  induction l as [|y l IH]; [intros []|]. intros Hin.
  destruct l as [|z l].
  - destruct Hin as [->|[]]. apply includes_refl.
  - rewrite join_lines_cons by discriminate. destruct Hin as [->|Hin].
    + apply includes_append_l, includes_refl.
    + apply includes_append_r, includes_append_r, IH. exact Hin.
Qed.

(** X11.  The recommendations of the comprehensive report follow the
    returned data: the narrative carries the strategy advice whenever some
    returned source has a rejection rate above 50 (the rendered rate is read
    back as a number), the resume advice whenever some returned version has a
    success rate below 30, and the follow-up advice whenever the average for
    Interview is above 14 days. *)
Theorem recommendations_follow_data (now : Z) (table : list Db.application)
  (h h' : heap) (r : ComprehensiveReport) :
  getComprehensiveInsights now table h = (Normal r, h') ->
  ((exists e rate,
      In e (insights (rejectionRate (detailedInsights r))) /\
      SourceEntry.rejectionRate e = show_Z rate ++ "%" /\ 50 < rate) ->
   includes (comprehensiveSummary r)
     "🚨 Consider improving your application strategy for sources with high rejection rates."
   = true) /\
  ((exists v,
      In v (versions (resumePerformance (detailedInsights r))) /\
      VersionInsight.successRate v < 30) ->
   includes (comprehensiveSummary r)
     "📝 Review and update low-performing resume versions." = true) /\
  ((exists a days,
      averages (responseTime (detailedInsights r)) = Some a /\
      own_get "Interview" a = Some days /\ 14 < days) ->
   includes (comprehensiveSummary r)
     "⏰ Follow up on applications after 2 weeks if you haven't heard back." = true).
Proof.
  intros H. apply comprehensive_shape in H.
  destruct H as (r1 & r2 & r3 & h1 & h2 & lines & _ & _ & _ & _ & ->).
  cbn [detailedInsights rejectionRate resumePerformance responseTime
       comprehensiveSummary].
  split; [|split].
  - intros (e & rate & Hin & Hrate & Hgt).
    apply includes_join_lines. unfold comprehensive_lines. apply in_concat.
    eexists. split; [do 5 right; left; reflexivity|].
    replace (existsb _ (insights r1)) with true; [left; reflexivity|].
    symmetry. apply existsb_exists. exists e. split; [exact Hin|].
    rewrite Hrate, parseInt_show. cbn [gt_opt]. apply Z.gtb_lt. exact Hgt.
  - intros (v & Hin & Hlt).
    apply includes_join_lines. unfold comprehensive_lines. apply in_concat.
    eexists. split; [do 6 right; left; reflexivity|].
    replace (existsb _ (versions r2)) with true; [left; reflexivity|].
    symmetry. apply existsb_exists. exists v. split; [exact Hin|].
    apply Z.ltb_lt. exact Hlt.
  - intros (a & days & Havg & Hget & Hgt).
    apply includes_join_lines. unfold comprehensive_lines. apply in_concat.
    eexists. split; [do 7 right; left; reflexivity|].
    unfold slow_interviews. rewrite Havg, Hget. cbn [gt_opt].
    replace (days >? 14) with true; [left; reflexivity|].
    symmetry. apply Z.gtb_lt. exact Hgt.
Qed.

(** X11, at a table with a source at rejection rate 100. *)
Lemma recommendations_follow_data_witness :
  exists r,
    getComprehensiveInsights (10 * Sample.ms_per_day) Sample6.struggling initial
    = (Normal r, initial) /\
    includes (comprehensiveSummary r)
      "🚨 Consider improving your application strategy for sources with high rejection rates."
    = true.
Proof.
  assert (Hrun : exists r,
    getComprehensiveInsights (10 * Sample.ms_per_day) Sample6.struggling initial
    = (Normal r, initial)).
  { vm_compute. eexists. reflexivity. }
  destruct Hrun as (r & Hrun).
  exists r. split; [exact Hrun|].
  apply (proj1 (recommendations_follow_data _ _ _ _ r Hrun)).
  vm_compute in Hrun. inversion Hrun; subst r. clear Hrun.
  exists (SourceEntry.mk "Indeed" 2 "100%" 2 "0%"), 100.
  cbn. split; [left; reflexivity|]. split; [reflexivity | lia].
Defined.

(** ** The order of the grouped rows *)

Lemma ascii_compare_lt_trans (a b c : ascii) :
  Ascii.compare a b = Lt -> Ascii.compare b c = Lt -> Ascii.compare a c = Lt.
Proof.
  unfold Ascii.compare. rewrite !N.compare_lt_iff. apply N.lt_trans.
Qed.

Lemma string_compare_lt_trans (s1 s2 s3 : string) :
  String.compare s1 s2 = Lt -> String.compare s2 s3 = Lt -> String.compare s1 s3 = Lt.
Proof.
  revert s2 s3. induction s1 as [|a s1 IH]; intros [|b s2] [|c s3]; cbn;
    try discriminate; try reflexivity.
  destruct (Ascii.compare a b) eqn:Eab; try discriminate;
    destruct (Ascii.compare b c) eqn:Ebc; try discriminate.
  - apply Ascii.compare_eq_iff in Eab. subst b. rewrite Ebc. apply IH.
  - apply Ascii.compare_eq_iff in Eab. subst b. rewrite Ebc. reflexivity.
  - apply Ascii.compare_eq_iff in Ebc. subst c. rewrite Eab. reflexivity.
  - rewrite (ascii_compare_lt_trans a b c Eab Ebc). reflexivity.
Qed.

Lemma string_compare_refl (s : string) : String.compare s s = Eq.
Proof.
  pose proof (String.compare_antisym s s) as H.
  destruct (String.compare s s); [reflexivity | discriminate H | discriminate H].
Qed.

Lemma text_compare_refl (a : option string) : Db.text_compare a a = Eq.
Proof. destruct a; cbn; [apply string_compare_refl | reflexivity]. Qed.

Lemma text_compare_lt_trans (a b c : option string) :
  Db.text_compare a b = Lt -> Db.text_compare b c = Lt -> Db.text_compare a c = Lt.
Proof.
  destruct a, b, c; cbn; try discriminate; try reflexivity.
  apply string_compare_lt_trans.
Qed.

Lemma pair_lt_trans (p q r : option string * option string) :
  pair_lt p q -> pair_lt q r -> pair_lt p r.
Proof.
  destruct p as [p1 p2], q as [q1 q2], r as [r1 r2].
  unfold pair_lt, Db.pair_compare. cbn [fst snd].
  destruct (Db.text_compare p1 q1) eqn:E1; try discriminate;
    destruct (Db.text_compare q1 r1) eqn:E2; try discriminate; intros H1 H2.
  - apply text_compare_eq in E1, E2. subst q1 r1.
    rewrite text_compare_refl. eapply text_compare_lt_trans; eassumption.
  - apply text_compare_eq in E1. subst q1. rewrite E2. reflexivity.
  - apply text_compare_eq in E2. subst r1. rewrite E1. reflexivity.
  - rewrite (text_compare_lt_trans _ _ _ E1 E2). reflexivity.
Qed.

Lemma pair_lt_irrefl (p : option string * option string) : ~ pair_lt p p.
Proof.
  destruct p as [a b]. unfold pair_lt, Db.pair_compare. cbn [fst snd].
  rewrite !text_compare_refl. discriminate.
Qed.

Lemma text_compare_gt_lt (a b : option string) :
  Db.text_compare a b = Gt -> Db.text_compare b a = Lt.
Proof.
  destruct a, b; cbn; try discriminate; try reflexivity.
  rewrite String.compare_antisym. destruct (String.compare s0 s); cbn; congruence.
Qed.

Lemma pair_compare_gt_lt (p q : option string * option string) :
  Db.pair_compare p q = Gt -> pair_lt q p.
Proof.
  destruct p as [p1 p2], q as [q1 q2]. unfold pair_lt, Db.pair_compare. cbn [fst snd].
  destruct (Db.text_compare p1 q1) eqn:E; try discriminate; intros H.
  - apply text_compare_eq in E. subst q1. rewrite text_compare_refl.
    apply text_compare_gt_lt. exact H.
  - rewrite (text_compare_gt_lt _ _ E). reflexivity.
Qed.

Lemma text_eqb_eq (a b : option string) : text_eqb a b = true <-> a = b.
Proof.
  destruct a as [x|], b as [y|]; cbn; try (split; [discriminate | discriminate]).
  - rewrite String.eqb_eq. split; congruence.
  - split; reflexivity.
Qed.

Lemma pair_eqb_eq (p q : option string * option string) :
  pair_eqb p q = true <-> p = q.
Proof.
  destruct p as [a b], q as [c d]. unfold pair_eqb. cbn [fst snd].
  rewrite andb_true_iff, !text_eqb_eq. split; [intros [-> ->]; reflexivity|].
  intros E. inversion E. split; reflexivity.
Qed.

Lemma pair_eqb_refl (p : option string * option string) : pair_eqb p p = true.
Proof. apply pair_eqb_eq. reflexivity. Qed.

(** Every pair of [tally k l] is [k] or a pair of [l]. *)
Lemma tally_pairs (k : option string * option string) (l : list Db.row)
  (P : option string * option string -> Prop) :
  P k -> Forall (fun r => P (pair_of r)) l ->
  Forall (fun r => P (pair_of r)) (Db.tally k l).
Proof.
  intros Hk Hl. apply Forall_forall. intros r Hr.
  apply tally_In_inv in Hr. destruct Hr as [E|(r0 & Hin & Hg & Hs)].
  - unfold pair_of. rewrite E. exact Hk.
  - rewrite Forall_forall in Hl. specialize (Hl r0 Hin).
    unfold pair_of in *. rewrite <- Hg, <- Hs. exact Hl.
Qed.

(** [tally] keeps the rows strictly ascending in their pairs. *)
Lemma tally_sorted (k : option string * option string) (l : list Db.row) :
  StronglySorted (fun r1 r2 => pair_lt (pair_of r1) (pair_of r2)) l ->
  StronglySorted (fun r1 r2 => pair_lt (pair_of r1) (pair_of r2)) (Db.tally k l).
Proof.
  induction l as [|r l IH]; intros Hs; cbn [Db.tally].
  - constructor; constructor.
  - inversion Hs as [|r0 l0 Hl Hr]; subst.
    destruct (Db.pair_compare k (Db.group r, Db.row_status r)) eqn:E.
    + constructor; [exact Hl|]. exact Hr.
    + constructor; [exact Hs|]. constructor.
      * exact E.
      * eapply Forall_impl; [|exact Hr]. cbn. intros r1 H1.
        eapply pair_lt_trans; [exact E | exact H1].
    + constructor; [apply IH; exact Hl|].
      apply (tally_pairs k l (fun p => pair_lt (pair_of r) p)).
      * apply pair_compare_gt_lt. exact E.
      * exact Hr.
Qed.

Lemma group_count_sorted (col : Db.application -> option string)
  (table : list Db.application) :
  StronglySorted (fun r1 r2 => pair_lt (pair_of r1) (pair_of r2))
    (Db.group_count col table).
Proof.
  unfold Db.group_count.
  assert (Hgen : forall acc,
    StronglySorted (fun r1 r2 => pair_lt (pair_of r1) (pair_of r2)) acc ->
    StronglySorted (fun r1 r2 => pair_lt (pair_of r1) (pair_of r2))
      (fold_left (fun acc a => Db.tally (col a, Db.status a) acc) table acc)).
  { induction table as [|a table IH]; intros acc H; [exact H|].
    cbn [fold_left]. apply IH. apply tally_sorted. exact H. }
  apply Hgen. constructor.
Qed.

(** ** What the grouped rows count *)

Lemma pair_count_above (p : option string * option string) (rows : list Db.row) :
  Forall (fun r => pair_lt p (pair_of r)) rows -> pair_count p rows = 0.
Proof.
  induction 1 as [|r rows Hr _ IH]; [reflexivity|]. cbn [pair_count].
  destruct (pair_eqb (pair_of r) p) eqn:E; [|exact IH].
  apply pair_eqb_eq in E. rewrite E in Hr. destruct (pair_lt_irrefl p Hr).
Qed.

Lemma tally_pair_count (k p : option string * option string) (l : list Db.row) :
  StronglySorted (fun r1 r2 => pair_lt (pair_of r1) (pair_of r2)) l ->
  pair_count p (Db.tally k l)
  = pair_count p l + (if pair_eqb k p then 1 else 0).
Proof.
  induction l as [|r l IH]; intros Hs; cbn [Db.tally].
  - cbn [pair_count]. unfold pair_of. cbn [Db.group Db.row_status Db.count].
    destruct k as [k1 k2]. cbn [fst snd]. destruct (pair_eqb (k1, k2) p); reflexivity.
  - inversion Hs as [|r0 l0 Hl Hr]; subst.
    destruct (Db.pair_compare k (Db.group r, Db.row_status r)) eqn:E.
    + apply pair_compare_eq in E. subst k. cbn [pair_count]. unfold pair_of.
      cbn [Db.group Db.row_status Db.count].
      destruct (pair_eqb (Db.group r, Db.row_status r) p); lia.
    + cbn [pair_count]. unfold pair_of at 1. cbn [Db.group Db.row_status Db.count].
      replace (fst k, snd k) with k by (destruct k; reflexivity).
      destruct (pair_eqb k p) eqn:Ek; [|lia].
      apply pair_eqb_eq in Ek. subst p.
      assert (H0 : pair_count k (r :: l) = 0).
      { apply pair_count_above. constructor; [exact E|].
        eapply Forall_impl; [|exact Hr]. cbn. intros r1 H1.
        eapply pair_lt_trans; [exact E | exact H1]. }
      cbn [pair_count] in H0. lia.
    + cbn [pair_count]. rewrite (IH Hl).
      destruct (pair_eqb (pair_of r) p) eqn:Er; [|reflexivity].
      apply pair_eqb_eq in Er. subst p.
      destruct (pair_eqb k (pair_of r)) eqn:Ek; [|lia].
      apply pair_eqb_eq in Ek. subst k. apply pair_compare_gt_lt in E.
      destruct (pair_lt_irrefl _ E).
Qed.

(** The row of a pair counts the applications of that pair. *)
Lemma group_count_pair_count (col : Db.application -> option string)
  (table : list Db.application) (p : option string * option string) :
  pair_count p (Db.group_count col table) = applications_with col p table.
Proof.
  unfold Db.group_count, applications_with.
  assert (Hgen : forall acc,
    StronglySorted (fun r1 r2 => pair_lt (pair_of r1) (pair_of r2)) acc ->
    pair_count p (fold_left (fun acc a => Db.tally (col a, Db.status a) acc) table acc)
    = pair_count p acc
      + Z.of_nat (List.length
                    (filter (fun a => pair_eqb (col a, Db.status a) p) table))).
  { induction table as [|a table IH]; intros acc Hs; cbn [fold_left filter].
    - cbn. lia.
    - rewrite IH by (apply tally_sorted; exact Hs).
      rewrite tally_pair_count by exact Hs.
      destruct (pair_eqb (col a, Db.status a) p); cbn [List.length]; lia. }
  rewrite Hgen by constructor. reflexivity.
Qed.

Lemma tally_key_total (p : option string * option string) (k : string)
  (l : list Db.row) :
  key_total k (Db.tally p l)
  = key_total k l + (if String.eqb (property_key (fst p)) k then 1 else 0).
Proof.
  induction l as [|r l IH]; cbn [Db.tally].
  - cbn. destruct (String.eqb (property_key (fst p)) k); reflexivity.
  - destruct (Db.pair_compare p (Db.group r, Db.row_status r)) eqn:E.
    + apply pair_compare_eq in E. subst p. cbn [key_total Db.group Db.count fst].
      destruct (String.eqb (property_key (Db.group r)) k); lia.
    + cbn [key_total Db.group Db.count].
      destruct (String.eqb (property_key (fst p)) k); lia.
    + cbn [key_total]. rewrite IH. lia.
Qed.

(** The counts of the rows of a key add up to the applications of that key. *)
Lemma group_count_key_total (col : Db.application -> option string)
  (table : list Db.application) (k : string) :
  key_total k (Db.group_count col table) = applications_of col k table.
Proof.
  unfold Db.group_count, applications_of.
  assert (Hgen : forall acc,
    key_total k (fold_left (fun acc a => Db.tally (col a, Db.status a) acc) table acc)
    = key_total k acc
      + Z.of_nat (List.length
                    (filter (fun a => String.eqb (property_key (col a)) k) table))).
  { induction table as [|a table IH]; intros acc; cbn [fold_left filter].
    - cbn. lia.
    - rewrite IH, tally_key_total. cbn [fst].
      destruct (String.eqb (property_key (col a)) k); cbn [List.length]; lia. }
  rewrite Hgen. reflexivity.
Qed.

(** ** Objects as dictionaries *)

Lemma own_get_set_same {A} (k : string) (v : A) (o : list (string * A)) :
  own_get k (own_set k v o) = Some v.
Proof.
  induction o as [|[k' v'] o IH]; cbn.
  - rewrite String.eqb_refl. reflexivity.
  - destruct (String.eqb k k') eqn:E; cbn; rewrite E; [reflexivity | exact IH].
Qed.

Lemma own_get_set_other {A} (k k' : string) (v : A) (o : list (string * A)) :
  k <> k' -> own_get k (own_set k' v o) = own_get k o.
Proof.
  intros Hne. induction o as [|[k0 v0] o IH]; cbn.
  - destruct (String.eqb_spec k k'); [contradiction | reflexivity].
  - destruct (String.eqb_spec k' k0) as [->|Hk0]; cbn.
    + destruct (String.eqb_spec k k0); [contradiction | reflexivity].
    + destruct (String.eqb k k0); [reflexivity | exact IH].
Qed.

Lemma own_set_keys {A} (k : string) (v : A) (o : list (string * A)) :
  map fst (own_set k v o)
  = match own_get k o with
    | Some _ => map fst o
    | None => (map fst o ++ [k])%list
    end.
Proof.
  induction o as [|[k' v'] o IH]; cbn; [reflexivity|].
  destruct (String.eqb k k'); cbn; [reflexivity|].
  rewrite IH. destruct (own_get k o); reflexivity.
Qed.

Lemma own_get_None_keys {A} (k : string) (o : list (string * A)) :
  own_get k o = None -> ~ In k (map fst o).
Proof.
  induction o as [|[k' v'] o IH]; cbn; [intros _ []|].
  destruct (String.eqb_spec k k') as [->|Hne]; [discriminate|].
  intros H [E|Hin]; [congruence | exact (IH H Hin)].
Qed.

Lemma own_set_NoDup {A} (k : string) (v : A) (o : list (string * A)) :
  NoDup (map fst o) -> NoDup (map fst (own_set k v o)).
Proof.
  intros H. rewrite own_set_keys. destruct (own_get k o) eqn:E; [exact H|].
  apply NoDup_app; [exact H | repeat constructor; intros [] |].
  intros x Hx [<-|[]]. exact (own_get_None_keys k o E Hx).
Qed.

Lemma In_own_get {A} (k : string) (v : A) (o : list (string * A)) :
  NoDup (map fst o) -> In (k, v) o -> own_get k o = Some v.
Proof.
  induction o as [|[k' v'] o IH]; cbn; intros Hnd Hin; [destruct Hin|].
  inversion Hnd as [|x l Hnotin Hnd']; subst.
  destruct Hin as [E|Hin].
  - inversion E; subst. rewrite String.eqb_refl. reflexivity.
  - destruct (String.eqb_spec k k') as [->|_]; [|apply IH; assumption].
    exfalso. apply Hnotin. apply (in_map fst) in Hin. exact Hin.
Qed.

Lemma insert_index_permutation {A} (i : Z) (e : string * A)
  (l : list (Z * (string * A))) :
  Permutation.Permutation (map snd (insert_index i e l)) (e :: map snd l).
Proof.
  induction l as [|[j e'] l IH]; cbn; [apply Permutation.Permutation_refl|].
  destruct (i <? j); cbn; [apply Permutation.Permutation_refl|].
  eapply Permutation.perm_trans; [apply Permutation.perm_skip; exact IH|].
  apply Permutation.perm_swap.
Qed.

(** [Object.entries] lists every own property once. *)
Lemma own_entries_permutation {A} (o : list (string * A)) :
  Permutation.Permutation (own_entries o) o.
Proof.
  unfold own_entries. induction o as [|[k v] o IH]; cbn [indexed named];
    [constructor|].
  destruct (array_index k) as [i|].
  - eapply Permutation.perm_trans;
      [apply Permutation.Permutation_app_tail, insert_index_permutation|].
    cbn [app]. apply Permutation.perm_skip. exact IH.
  - eapply Permutation.perm_trans;
      [apply Permutation.Permutation_sym, Permutation.Permutation_middle|].
    apply Permutation.perm_skip. exact IH.
Qed.

(** ** The grouping loop on ordinary keys *)

Lemma organize_step (r : Db.row) (groups : list (string * data)) (s : string) :
  Db.row_status r = Some s -> ordinary_key (property_key (Db.group r)) ->
  organize r groups initial
  = (Normal
       (own_set (property_key (Db.group r))
          (data_put (toLowerCase s) (Db.count r)
             (add_total (Db.count r)
                (match own_get (property_key (Db.group r)) groups with
                 | Some d => d
                 | None => fresh_data
                 end)))
          groups), initial).
Proof.
  intros Hs Hk. unfold organize. cbv zeta. unfold status_key. rewrite Hs.
  destruct (own_get (property_key (Db.group r)) groups) as [d|]; [reflexivity|].
  unfold bind at 1. cbn [get_heap]. unfold ordinary_key in Hk. rewrite Hk.
  reflexivity.
Qed.

Lemma apply_row_same (r : Db.row) (d : data) (s : string) :
  Db.row_status r = Some s ->
  apply_row (property_key (Db.group r)) d r
  = data_put (toLowerCase s) (Db.count r) (add_total (Db.count r) d).
Proof.
  intros Hs. unfold apply_row. rewrite String.eqb_refl, Hs. reflexivity.
Qed.

Lemma apply_row_other (k : string) (r : Db.row) (d : data) :
  property_key (Db.group r) <> k -> apply_row k d r = d.
Proof.
  intros Hne. unfold apply_row.
  destruct (String.eqb_spec (property_key (Db.group r)) k); [contradiction|].
  reflexivity.
Qed.

(** Each group is built from the rows of its key alone, in row order. *)
Lemma forEach_organize_projection (results : list Db.row)
  (groups groups' : list (string * data)) (k : string) :
  Forall (fun r => Db.row_status r <> None /\
                   ordinary_key (property_key (Db.group r))) results ->
  forEach organize results groups initial = (Normal groups', initial) ->
  own_get k groups'
  = match own_get k groups with
    | Some d => Some (apply_rows k results d)
    | None =>
        if existsb (fun r => String.eqb (property_key (Db.group r)) k) results
        then Some (apply_rows k results fresh_data)
        else None
    end.
Proof.
  intros H. revert groups. induction H as [|r rest [Hs Hk] _ IH]; intros groups Hrun.
  - cbn in Hrun. inversion Hrun; subst. cbn. destruct (own_get k _); reflexivity.
  - destruct (Db.row_status r) as [s|] eqn:Es; [|contradiction].
    cbn [forEach] in Hrun. rewrite (bind_step _ _ _ _ _ (organize_step r groups s Es Hk))
      in Hrun.
    rewrite (IH _ Hrun). unfold apply_rows. cbn [fold_left existsb].
    destruct (String.eqb_spec (property_key (Db.group r)) k) as [E|E].
    + rewrite <- E. rewrite own_get_set_same. cbn [orb].
      destruct (own_get (property_key (Db.group r)) groups);
        rewrite (apply_row_same r _ s Es); reflexivity.
    + rewrite own_get_set_other by congruence. cbn [orb].
      destruct (own_get k groups); [|destruct (existsb _ rest)];
        try rewrite (apply_row_other k r _ E); reflexivity.
Qed.

Lemma forEach_organize_NoDup (results : list Db.row)
  (groups groups' : list (string * data)) :
  Forall (fun r => Db.row_status r <> None /\
                   ordinary_key (property_key (Db.group r))) results ->
  NoDup (map fst groups) ->
  forEach organize results groups initial = (Normal groups', initial) ->
  NoDup (map fst groups').
Proof.
  intros H. revert groups. induction H as [|r rest [Hs Hk] _ IH]; intros groups Hnd Hrun.
  - cbn in Hrun. inversion Hrun; subst. exact Hnd.
  - destruct (Db.row_status r) as [s|] eqn:Es; [|contradiction].
    cbn [forEach] in Hrun. rewrite (bind_step _ _ _ _ _ (organize_step r groups s Es Hk))
      in Hrun.
    eapply IH; [|exact Hrun]. apply own_set_NoDup. exact Hnd.
Qed.

(** ** The fields of a group *)

Lemma rejected_field : field_of_status rejected "Rejected".
Proof.
  split; [reflexivity|]. intros s n d Hin. cbn in Hin.
  repeat (destruct Hin as [<-|Hin]; [reflexivity|]). destruct Hin.
Qed.

Lemma interview_field : field_of_status interview "Interview".
Proof.
  split; [reflexivity|]. intros s n d Hin. cbn in Hin.
  repeat (destruct Hin as [<-|Hin]; [reflexivity|]). destruct Hin.
Qed.

Lemma offer_field : field_of_status offer "Offer".
Proof.
  split; [reflexivity|]. intros s n d Hin. cbn in Hin.
  repeat (destruct Hin as [<-|Hin]; [reflexivity|]). destruct Hin.
Qed.

Lemma total_kept (s : string) (n : Z) (d : data) :
  In s statuses -> total (data_put (toLowerCase s) n d) = total d.
Proof.
  intros Hin. cbn in Hin.
  repeat (destruct Hin as [<-|Hin]; [reflexivity|]). destruct Hin.
Qed.

Lemma existsb_above (p : option string * option string) (rows : list Db.row) :
  Forall (fun r => pair_lt p (pair_of r)) rows ->
  existsb (fun r => pair_eqb (pair_of r) p) rows = false.
Proof.
  induction 1 as [|r rows Hr _ IH]; [reflexivity|]. cbn [existsb].
  rewrite IH, orb_false_r.
  destruct (pair_eqb (pair_of r) p) eqn:E; [|reflexivity].
  apply pair_eqb_eq in E. rewrite E in Hr. destruct (pair_lt_irrefl p Hr).
Qed.

Lemma pair_count_absent (p : option string * option string) (rows : list Db.row) :
  existsb (fun r => pair_eqb (pair_of r) p) rows = false -> pair_count p rows = 0.
Proof.
  induction rows as [|r rows IH]; [reflexivity|]. cbn [existsb pair_count].
  intros H. apply orb_false_iff in H. destruct H as [-> H]. exact (IH H).
Qed.

(** The total of a group is the sum of the counts of its rows. *)
Lemma apply_rows_total (k : string) (rows : list Db.row) (d : data) :
  Forall well_kept_row rows ->
  total (apply_rows k rows d) = total d + key_total k rows.
Proof.
  intros H. revert d. induction H as [|r rest Hr _ IH]; intros d.
  - cbn. lia.
  - unfold apply_rows. cbn [fold_left key_total].
    fold (apply_rows k rest (apply_row k d r)). rewrite IH.
    destruct Hr as [_ (s & Hs & Hin)]. unfold apply_row. rewrite Hs.
    destruct (String.eqb (property_key (Db.group r)) k); [|lia].
    rewrite (total_kept s _ _ Hin). cbn [add_total total]. lia.
Qed.

(** A status field of a group holds the count of the one row of that key
    and status, and keeps its value when there is none. *)
Lemma apply_rows_field (f : data -> Z) (S k : string) (rows : list Db.row)
  (d : data) :
  field_of_status f S ->
  Forall well_kept_row rows ->
  StronglySorted (fun r1 r2 => pair_lt (pair_of r1) (pair_of r2)) rows ->
  f (apply_rows k rows d)
  = if existsb (fun r => pair_eqb (pair_of r) (Some k, Some S)) rows
    then pair_count (Some k, Some S) rows
    else f d.
Proof.
  intros [Hadd Hput] Hrows. revert d.
  induction Hrows as [|r rest Hr _ IH]; intros d Hsorted; [reflexivity|].
  inversion Hsorted as [|r0 l0 Hrest Habove]; subst.
  destruct Hr as [(k' & Hg & _) (s & Hs & Hin)].
  unfold apply_rows. cbn [fold_left existsb pair_count].
  fold (apply_rows k rest (apply_row k d r)). rewrite (IH _ Hrest).
  assert (Hpair : pair_of r = (Some k', Some s)).
  { unfold pair_of. rewrite Hg, Hs. reflexivity. }
  assert (Hrow : apply_row k d r
                 = if String.eqb k' k
                   then data_put (toLowerCase s) (Db.count r)
                          (add_total (Db.count r) d)
                   else d).
  { unfold apply_row. rewrite Hg, Hs. reflexivity. }
  assert (Heq : pair_eqb (pair_of r) (Some k, Some S)
                = String.eqb k' k && String.eqb s S).
  { rewrite Hpair. reflexivity. }
  rewrite Hrow, Heq. rewrite Hpair in Habove.
  destruct (String.eqb_spec k' k) as [->|Hk]; cbn [andb orb]; [|reflexivity].
  rewrite (Hput s _ _ Hin), Hadd.
  destruct (String.eqb_spec s S) as [->|HS]; cbn [orb]; [|reflexivity].
  rewrite (existsb_above _ _ Habove). reflexivity.
Qed.

(** ** What the groups hold *)

Lemma group_count_well_kept (col : Db.application -> option string)
  (table : list Db.application) :
  Forall (well_kept col) table -> Forall well_kept_row (Db.group_count col table).
Proof.
  intros H. apply Forall_forall. intros r Hr.
  destruct (group_count_In_inv col table r Hr) as (a & Ha & Hc & Hs).
  rewrite Forall_forall in H. specialize (H a Ha).
  unfold well_kept in H. unfold well_kept_row. rewrite <- Hc, <- Hs. exact H.
Qed.

Lemma well_kept_row_regular (rows : list Db.row) :
  Forall well_kept_row rows ->
  Forall (fun r => Db.row_status r <> None /\
                   ordinary_key (property_key (Db.group r))) rows.
Proof.
  apply Forall_impl. intros r [(k & Hg & Hk) (s & Hs & _)].
  rewrite Hg, Hs. split; [discriminate | exact Hk].
Qed.

Lemma filter_length_pos {A} (f : A -> bool) (l : list A) (a : A) :
  In a l -> f a = true -> 0 < Z.of_nat (List.length (filter f l)).
Proof.
  intros Hin Hf. assert (H : In a (filter f l)) by (apply filter_In; auto).
  destruct (filter f l); [destruct H | cbn [List.length]; lia].
Qed.

(** On a well-kept table the grouping loop returns one group for each key of
    the column, and the group of a key holds the number of its applications
    and, for each of the statuses read later, the number of those with this
    status. *)
Lemma grouped (col : Db.application -> option string)
  (table : list Db.application) :
  Forall (well_kept col) table ->
  exists groups,
    forEach organize (Db.group_count col table) [] initial = (Normal groups, initial) /\
    NoDup (map fst groups) /\
    (forall a, In a table -> exists d, In (property_key (col a), d) groups) /\
    (forall k d, In (k, d) groups ->
       0 < applications_of col k table /\
       total d = applications_of col k table /\
       rejected d = applications_with col (Some k, Some "Rejected") table /\
       interview d = applications_with col (Some k, Some "Interview") table /\
       offer d = applications_with col (Some k, Some "Offer") table).
Proof.
  intros Htable.
  pose proof (group_count_well_kept col table Htable) as Hrows.
  pose proof (well_kept_row_regular _ Hrows) as Hreg.
  pose proof (group_count_sorted col table) as Hsorted.
  destruct (forEach_organize_returns _ [] Hreg) as (groups & Hrun).
  pose proof (forEach_organize_NoDup _ [] groups Hreg (NoDup_nil _) Hrun) as Hnd.
  assert (Hget : forall k,
    own_get k groups
    = if existsb (fun r => String.eqb (property_key (Db.group r)) k)
           (Db.group_count col table)
      then Some (apply_rows k (Db.group_count col table) fresh_data)
      else None).
  { intros k. exact (forEach_organize_projection _ [] groups k Hreg Hrun). }
  exists groups. split; [exact Hrun|]. split; [exact Hnd|]. split.
  - intros a Ha. destruct (group_count_In col table a Ha) as (r & Hr & Hg & _).
    specialize (Hget (property_key (col a))).
    assert (He : existsb (fun r => String.eqb (property_key (Db.group r))
                                     (property_key (col a)))
                   (Db.group_count col table) = true).
    { apply existsb_exists. exists r. split; [exact Hr|].
      rewrite Hg. apply String.eqb_refl. }
    rewrite He in Hget. eexists. apply own_get_In. exact Hget.
  - intros k d Hin. pose proof (In_own_get k d groups Hnd Hin) as Hd.
    rewrite Hget in Hd.
    destruct (existsb _ (Db.group_count col table)) eqn:He; [|discriminate].
    injection Hd as <-.
    apply existsb_exists in He. destruct He as (r & Hr & Hk).
    apply String.eqb_eq in Hk.
    destruct (group_count_In_inv col table r Hr) as (a & Ha & Hc & _).
    assert (Hfield : forall f S, field_of_status f S -> f fresh_data = 0 ->
              f (apply_rows k (Db.group_count col table) fresh_data)
              = applications_with col (Some k, Some S) table).
    { intros f S Hf H0. rewrite (apply_rows_field f S k _ _ Hf Hrows Hsorted).
      rewrite <- group_count_pair_count.
      destruct (existsb _ (Db.group_count col table)) eqn:E; [reflexivity|].
      rewrite (pair_count_absent _ _ E). exact H0. }
    split; [|split; [|split; [|split]]].
    + unfold applications_of. apply (filter_length_pos _ _ a Ha).
      rewrite Hc, Hk. apply String.eqb_refl.
    + rewrite (apply_rows_total k _ _ Hrows), group_count_key_total. cbn. lia.
    + apply (Hfield rejected "Rejected" rejected_field). reflexivity.
    + apply (Hfield interview "Interview" interview_field). reflexivity.
    + apply (Hfield offer "Offer" offer_field). reflexivity.
Qed.

Lemma own_entries_NoDup {A} (o : list (string * A)) :
  NoDup (map fst o) -> NoDup (map fst (own_entries o)).
Proof.
  intros H. eapply Permutation.Permutation_NoDup; [|exact H].
  apply Permutation.Permutation_map, Permutation.Permutation_sym,
    own_entries_permutation.
Qed.

Lemma In_own_entries {A} (e : string * A) (o : list (string * A)) :
  In e o -> In e (own_entries o).
Proof.
  apply Permutation.Permutation_in, Permutation.Permutation_sym,
    own_entries_permutation.
Qed.

(** ** The reports of the grouping analyzers count the applications *)

Lemma filter_length_impl {A} (f g : A -> bool) (l : list A) :
  (forall a, f a = true -> g a = true) ->
  (List.length (filter f l) <= List.length (filter g l))%nat.
Proof.
  intros H. induction l as [|a l IH]; cbn [filter]; [constructor|].
  destruct (f a) eqn:E.
  - rewrite (H a E). cbn [List.length]. lia.
  - destruct (g a); cbn [List.length]; lia.
Qed.

Lemma filter_length_disjoint {A} (f g h : A -> bool) (l : list A) :
  (forall a, f a = true -> h a = true) ->
  (forall a, g a = true -> h a = true) ->
  (forall a, f a = true -> g a = false) ->
  (List.length (filter f l) + List.length (filter g l)
   <= List.length (filter h l))%nat.
Proof.
  intros Hf Hg Hfg. induction l as [|a l IH]; cbn [filter]; [constructor|].
  destruct (f a) eqn:E.
  - rewrite (Hfg a E), (Hf a E). cbn [List.length]. lia.
  - destruct (g a) eqn:E'.
    + rewrite (Hg a E'). cbn [List.length]. lia.
    + destruct (h a); cbn [List.length]; lia.
Qed.

Lemma pair_eqb_key (col : Db.application -> option string) (a : Db.application)
  (k S : string) :
  pair_eqb (col a, Db.status a) (Some k, Some S) = true ->
  String.eqb (property_key (col a)) k = true.
Proof.
  unfold pair_eqb. cbn [fst snd]. intros H. apply andb_true_iff in H.
  destruct H as [H _]. destruct (col a) as [x|]; [exact H | discriminate H].
Qed.

(** The applications of one key and status are among those of the key, and
    these among all. *)
Lemma applications_with_le (col : Db.application -> option string)
  (k S : string) (table : list Db.application) :
  0 <= applications_with col (Some k, Some S) table
       <= applications_of col k table /\
  applications_of col k table <= Z.of_nat (List.length table).
Proof.
  unfold applications_with, applications_of. split; [split|].
  - lia.
  - apply Nat2Z.inj_le, filter_length_impl. intros a. apply pair_eqb_key.
  - apply Nat2Z.inj_le, filter_length_le.
Qed.

Lemma applications_with_disjoint (col : Db.application -> option string)
  (k S1 S2 : string) (table : list Db.application) :
  S1 <> S2 ->
  applications_with col (Some k, Some S1) table
  + applications_with col (Some k, Some S2) table
  <= applications_of col k table.
Proof.
  intros Hne. unfold applications_with, applications_of.
  rewrite <- Nat2Z.inj_add. apply Nat2Z.inj_le, filter_length_disjoint.
  - intros a. apply pair_eqb_key.
  - intros a. apply pair_eqb_key.
  - intros a H. unfold pair_eqb in *. cbn [fst snd] in *.
    apply andb_true_iff in H. destruct H as [_ H].
    destruct (Db.status a) as [s|]; [|discriminate H].
    cbn [text_eqb] in *. apply String.eqb_eq in H. subst s.
    destruct (String.eqb_spec S1 S2) as [E|_]; [contradiction|].
    apply andb_false_r.
Qed.

(** X12.  On a table of fewer than [2 ^ 44] applications that all carry one
    of the five statuses of the dashboard and a source that is an ordinary
    key, the rejection analysis returns in the realm of a fresh process with
    exactly one entry for each source of the table; the entry of a source
    reports the number of applications of that source and the number of them
    that are rejected, and its rates are, each followed by a percent sign,
    [Math.round((rejected / total) * 100)] on these two numbers, evaluated in
    binary64, which is an integer nearest to the exact percentage, and its
    complement to 100. *)
Theorem source_report_counts (table : list Db.application) :
  Forall (well_kept Db.source) table ->
  Z.of_nat (List.length table) < 2 ^ 44 ->
  exists report,
    getRejectionRateBySource table initial = (Normal report, initial) /\
    NoDup (map SourceEntry.source (insights report)) /\
    (forall a, In a table ->
       exists e, In e (insights report) /\
                 Some (SourceEntry.source e) = Db.source a) /\
    (forall e, In e (insights report) ->
       let n := applications_of Db.source (SourceEntry.source e) table in
       let r := applications_with Db.source
                  (Some (SourceEntry.source e), Some "Rejected") table in
       0 < n /\
       SourceEntry.totalApplications e = n /\
       SourceEntry.rejectionCount e = r /\
       exists rate,
         rate = percent r n /\
         nearest_percentage rate r n /\
         SourceEntry.rejectionRate e = show_Z rate ++ "%" /\
         SourceEntry.successRate e = show_Z (100 - rate) ++ "%").
Proof.
  intros Htable Hsize.
  destruct (grouped Db.source table Htable) as (groups & Hrun & Hnd & Hall & Hfields).
  assert (Hreport : exists narrative,
    getRejectionRateBySource table initial
    = (Normal (mkRejectionReport true
                 (map source_entry (map source_insight (own_entries groups)))
                 narrative), initial)).
  { unfold getRejectionRateBySource, rejection_report_of, source_insights,
      Db.by_source, bind. rewrite Hrun. eexists. reflexivity. }
  destruct Hreport as (narrative & Hreport).
  eexists. split; [exact Hreport|]. cbn [insights]. split; [|split].
  - rewrite !map_map.
    rewrite (map_ext _ fst) by (intros [k d]; reflexivity).
    apply own_entries_NoDup. exact Hnd.
  - intros a Ha. destruct (Hall a Ha) as (d & Hd).
    exists (source_entry (source_insight (property_key (Db.source a), d))). split.
    + apply in_map, in_map, In_own_entries. exact Hd.
    + rewrite Forall_forall in Htable.
      destruct (Htable a Ha) as [(k & -> & _) _]. reflexivity.
  - intros e He. apply in_map_iff in He. destruct He as (i & <- & Hi).
    apply in_map_iff in Hi. destruct Hi as ([k d] & <- & Hkd).
    apply own_entries_In in Hkd.
    destruct (Hfields k d Hkd) as (Hpos & Htotal & Hrejected & _).
    cbn [source_insight source_entry SourceEntry.source SourceEntry.totalApplications
         SourceEntry.rejectionCount SourceEntry.rejectionRate SourceEntry.successRate
         SourceInsight.source SourceInsight.totalApplications
         SourceInsight.rejectionCount SourceInsight.rejectionRate
         SourceInsight.successRate].
    rewrite Htotal, Hrejected.
    assert (Hgt : (applications_of Db.source k table >? 0) = true)
      by (apply Z.gtb_lt; lia).
    rewrite Hgt.
    destruct (applications_with_le Db.source k "Rejected" table) as [Hr Hn].
    split; [exact Hpos|]. split; [reflexivity|]. split; [reflexivity|].
    eexists. split; [reflexivity|].
    split; [apply percent_nearest; lia|]. split; reflexivity.
Qed.

(** X12, at forty applications of one source of which 23 are rejected: the
    entry reports 57% and 43%. *)
Lemma source_report_counts_witness :
  exists report,
    getRejectionRateBySource Sample.halfway initial = (Normal report, initial) /\
    NoDup (map SourceEntry.source (insights report)) /\
    (forall a, In a Sample.halfway ->
       exists e, In e (insights report) /\
                 Some (SourceEntry.source e) = Db.source a) /\
    (forall e, In e (insights report) ->
       let n := applications_of Db.source (SourceEntry.source e) Sample.halfway in
       let r := applications_with Db.source
                  (Some (SourceEntry.source e), Some "Rejected") Sample.halfway in
       0 < n /\
       SourceEntry.totalApplications e = n /\
       SourceEntry.rejectionCount e = r /\
       exists rate,
         rate = percent r n /\
         nearest_percentage rate r n /\
         SourceEntry.rejectionRate e = show_Z rate ++ "%" /\
         SourceEntry.successRate e = show_Z (100 - rate) ++ "%").
Proof.
  apply (source_report_counts Sample.halfway).
  - repeat constructor;
      solve [ eexists; split; [reflexivity | reflexivity]
            | eexists; split; [reflexivity | cbn; tauto] ].
  - reflexivity.
Defined.

(** X13.  On a table of fewer than [2 ^ 44] applications that all carry one
    of the five statuses of the dashboard and a resume version that is an
    ordinary key, the resume analysis returns in the realm of a fresh process
    with exactly one entry for each version of the table; the entry of a
    version reports the number of applications sent with it and four rates,
    each [Math.round((count / total) * 100)] evaluated in binary64, which is
    an integer nearest to the exact percentage, for the count of those
    rejected, of those at Interview or Offer, of those at Interview and of
    those at Offer. *)
Theorem resume_report_counts (table : list Db.application) :
  Forall (well_kept Db.resume_version) table ->
  Z.of_nat (List.length table) < 2 ^ 44 ->
  exists report,
    getBestPerformingResumeVersion table initial = (Normal report, initial) /\
    NoDup (map VersionInsight.version (versions report)) /\
    (forall a, In a table ->
       exists v, In v (versions report) /\
                 Some (VersionInsight.version v) = Db.resume_version a) /\
    (forall v, In v (versions report) ->
       let n := applications_of Db.resume_version (VersionInsight.version v) table in
       let at_status S :=
         applications_with Db.resume_version
           (Some (VersionInsight.version v), Some S) table in
       0 < n /\
       VersionInsight.totalApplications v = n /\
       VersionInsight.rejectionRate v = percent (at_status "Rejected") n /\
       nearest_percentage (VersionInsight.rejectionRate v) (at_status "Rejected") n /\
       VersionInsight.successRate v
       = percent (at_status "Interview" + at_status "Offer") n /\
       nearest_percentage (VersionInsight.successRate v)
         (at_status "Interview" + at_status "Offer") n /\
       VersionInsight.interviewRate v = percent (at_status "Interview") n /\
       nearest_percentage (VersionInsight.interviewRate v) (at_status "Interview") n /\
       VersionInsight.offerRate v = percent (at_status "Offer") n /\
       nearest_percentage (VersionInsight.offerRate v) (at_status "Offer") n).
Proof.
  intros Htable Hsize.
  destruct (grouped Db.resume_version table Htable)
    as (groups & Hrun & Hnd & Hall & Hfields).
  assert (Hreport : exists narrative,
    getBestPerformingResumeVersion table initial
    = (Normal (mkResumeReport true (map version_insight (own_entries groups))
                 narrative), initial)).
  { unfold getBestPerformingResumeVersion, resume_report_of, version_insights,
      Db.by_resume_version, bind. rewrite Hrun. eexists. reflexivity. }
  destruct Hreport as (narrative & Hreport).
  eexists. split; [exact Hreport|]. cbn [versions]. split; [|split].
  - rewrite map_map.
    rewrite (map_ext _ fst) by (intros [k d]; reflexivity).
    apply own_entries_NoDup. exact Hnd.
  - intros a Ha. destruct (Hall a Ha) as (d & Hd).
    exists (version_insight (property_key (Db.resume_version a), d)). split.
    + apply in_map, In_own_entries. exact Hd.
    + rewrite Forall_forall in Htable.
      destruct (Htable a Ha) as [(k & -> & _) _]. reflexivity.
  - intros v Hv. apply in_map_iff in Hv. destruct Hv as ([k d] & <- & Hkd).
    apply own_entries_In in Hkd.
    destruct (Hfields k d Hkd) as (Hpos & Htotal & Hrejected & Hinterview & Hoffer).
    cbn [version_insight VersionInsight.version VersionInsight.totalApplications
         VersionInsight.rejectionRate VersionInsight.successRate
         VersionInsight.interviewRate VersionInsight.offerRate].
    rewrite Htotal, Hrejected, Hinterview, Hoffer.
    assert (Hgt : (applications_of Db.resume_version k table >? 0) = true)
      by (apply Z.gtb_lt; lia).
    rewrite Hgt.
    destruct (applications_with_le Db.resume_version k "Rejected" table) as [Hr Hn].
    destruct (applications_with_le Db.resume_version k "Interview" table) as [Hi _].
    destruct (applications_with_le Db.resume_version k "Offer" table) as [Ho _].
    assert (Hio : applications_with Db.resume_version (Some k, Some "Interview") table
                  + applications_with Db.resume_version (Some k, Some "Offer") table
                  <= applications_of Db.resume_version k table)
      by (apply applications_with_disjoint; discriminate).
    split; [exact Hpos|]. split; [reflexivity|].
    repeat split; try reflexivity; apply percent_nearest; lia.
Qed.

(** X13, at forty applications of one version, 20 at Interview, 3 at Offer
    and 17 rejected: the success rate is 57 and the rejection rate 43. *)
Lemma resume_report_counts_witness :
  exists report,
    getBestPerformingResumeVersion Sample.halfway_success initial
    = (Normal report, initial) /\
    NoDup (map VersionInsight.version (versions report)) /\
    (forall a, In a Sample.halfway_success ->
       exists v, In v (versions report) /\
                 Some (VersionInsight.version v) = Db.resume_version a) /\
    (forall v, In v (versions report) ->
       let n := applications_of Db.resume_version (VersionInsight.version v)
                  Sample.halfway_success in
       let at_status S :=
         applications_with Db.resume_version
           (Some (VersionInsight.version v), Some S) Sample.halfway_success in
       0 < n /\
       VersionInsight.totalApplications v = n /\
       VersionInsight.rejectionRate v = percent (at_status "Rejected") n /\
       nearest_percentage (VersionInsight.rejectionRate v) (at_status "Rejected") n /\
       VersionInsight.successRate v
       = percent (at_status "Interview" + at_status "Offer") n /\
       nearest_percentage (VersionInsight.successRate v)
         (at_status "Interview" + at_status "Offer") n /\
       VersionInsight.interviewRate v = percent (at_status "Interview") n /\
       nearest_percentage (VersionInsight.interviewRate v) (at_status "Interview") n /\
       VersionInsight.offerRate v = percent (at_status "Offer") n /\
       nearest_percentage (VersionInsight.offerRate v) (at_status "Offer") n).
Proof.
  apply (resume_report_counts Sample.halfway_success).
  - repeat constructor;
      solve [ eexists; split; [reflexivity | reflexivity]
            | eexists; split; [reflexivity | cbn; tauto] ].
  - reflexivity.
Defined.

(** ** The number in the header of the rejection narrative *)

Lemma own_set_sum_totals (k : string) (v : data) (o : list (string * data)) :
  sum_totals (own_set k v o)
  = sum_totals o + total v
    - match own_get k o with Some d => total d | None => 0 end.
Proof.
  induction o as [|[k' d'] o IH]; cbn.
  - lia.
  - destruct (String.eqb k k'); cbn; [lia|]. fold (sum_totals (own_set k v o)).
    fold (sum_totals o). rewrite IH. lia.
Qed.

Lemma forEach_organize_sum_totals (results : list Db.row)
  (groups groups' : list (string * data)) :
  Forall well_kept_row results ->
  forEach organize results groups initial = (Normal groups', initial) ->
  sum_totals groups' = sum_totals groups + sum_counts results.
Proof.
  intros H. revert groups.
  induction H as [|r rest Hr _ IH]; intros groups Hrun.
  - cbn in Hrun. inversion Hrun; subst. cbn. lia.
  - destruct Hr as [(k & Hg & Hk) (s & Hs & Hin)].
    assert (Hkey : ordinary_key (property_key (Db.group r)))
      by (rewrite Hg; exact Hk).
    cbn [forEach] in Hrun.
    rewrite (bind_step _ _ _ _ _ (organize_step r groups s Hs Hkey)) in Hrun.
    rewrite (IH _ Hrun), own_set_sum_totals, (total_kept s _ _ Hin).
    cbn [add_total total sum_counts fold_right]. fold (sum_counts rest).
    destruct (own_get (property_key (Db.group r)) groups); cbn; lia.
Qed.

Lemma sum_counts_cons (r : Db.row) (l : list Db.row) :
  sum_counts (r :: l) = Db.count r + sum_counts l.
Proof. reflexivity. Qed.

Lemma tally_sum_counts (k : option string * option string) (l : list Db.row) :
  sum_counts (Db.tally k l) = sum_counts l + 1.
Proof.
  induction l as [|r l IH]; cbn [Db.tally]; [reflexivity|].
  destruct (Db.pair_compare k (Db.group r, Db.row_status r));
    rewrite !sum_counts_cons; cbn [Db.count]; [lia | lia |].
  rewrite IH. lia.
Qed.

(** The counts of the grouped rows add up to the size of the table. *)
Lemma group_count_sum_counts (col : Db.application -> option string)
  (table : list Db.application) :
  sum_counts (Db.group_count col table) = Z.of_nat (List.length table).
Proof.
  unfold Db.group_count.
  assert (Hgen : forall acc,
    sum_counts (fold_left (fun acc a => Db.tally (col a, Db.status a) acc) table acc)
    = sum_counts acc + Z.of_nat (List.length table)).
  { induction table as [|a table IH]; intros acc; cbn [fold_left List.length].
    - lia.
    - rewrite IH, tally_sum_counts. lia. }
  rewrite Hgen. reflexivity.
Qed.

Lemma sum_totals_permutation (l1 l2 : list (string * data)) :
  Permutation.Permutation l1 l2 -> sum_totals l1 = sum_totals l2.
Proof.
  induction 1; cbn; try fold (sum_totals l); try fold (sum_totals l');
    solve [lia | congruence].
Qed.

Lemma source_totals_sum (entries : list (string * data)) (sum : Z) :
  fold_left (fun sum i => sum + SourceInsight.totalApplications i)
    (map source_insight entries) sum
  = sum + sum_totals entries.
Proof.
  revert sum. induction entries as [|[k d] entries IH]; intros sum; cbn.
  - lia.
  - fold (sum_totals entries). rewrite IH. cbn. lia.
Qed.

(** X14.  On a table whose applications all carry one of the five statuses
    of the dashboard and a source that is an ordinary key, the narrative of
    the rejection analysis begins with the header line that states the number
    of applications in the table. *)
Theorem rejection_header_counts_table (table : list Db.application) :
  Forall (well_kept Db.source) table ->
  exists report rest,
    getRejectionRateBySource table initial = (Normal report, initial) /\
    rejection_summary report
    = rejection_header (Z.of_nat (List.length table)) ++ nl ++ rest.
Proof.
  intros Htable.
  pose proof (group_count_well_kept Db.source table Htable) as Hrows.
  destruct (forEach_organize_returns _ [] (well_kept_row_regular _ Hrows))
    as (groups & Hrun).
  pose proof (forEach_organize_sum_totals _ [] groups Hrows Hrun) as Hsum.
  rewrite group_count_sum_counts in Hsum. cbn [sum_totals fold_right] in Hsum.
  assert (Hcount : fold_left (fun sum i => sum + SourceInsight.totalApplications i)
                     (map source_insight (own_entries groups)) 0
                   = Z.of_nat (List.length table)).
  { rewrite source_totals_sum,
      (sum_totals_permutation _ _ (own_entries_permutation groups)).
    fold (sum_totals groups). lia. }
  assert (Hreport :
    getRejectionRateBySource table initial
    = (Normal (mkRejectionReport true
                 (map source_entry (map source_insight (own_entries groups)))
                 (_generateRejectionRateSummary initial
                    (map source_insight (own_entries groups))
                    (highestRejection (map source_insight (own_entries groups)))
                    (lowestRejection (map source_insight (own_entries groups))))),
       initial)).
  { unfold getRejectionRateBySource, rejection_report_of, source_insights,
      Db.by_source, bind. rewrite Hrun. reflexivity. }
  assert (Hrest : exists rest,
    _generateRejectionRateSummary initial
      (map source_insight (own_entries groups))
      (highestRejection (map source_insight (own_entries groups)))
      (lowestRejection (map source_insight (own_entries groups)))
    = rejection_header (Z.of_nat (List.length table)) ++ nl ++ rest).
  { unfold _generateRejectionRateSummary. cbv zeta. rewrite Hcount.
    fold (rejection_header (Z.of_nat (List.length table))).
    destruct (List.length (map source_insight (own_entries groups)) =? 0)%nat.
    - eexists. apply join_lines_cons. discriminate.
    - eexists. cbn [List.concat app]. apply join_lines_cons. discriminate. }
  destruct Hrest as (rest & Hrest).
  eexists. exists rest. split; [exact Hreport | exact Hrest].
Qed.

(** X14, at a table of four applications. *)
Lemma rejection_header_counts_table_witness :
  exists report rest,
    getRejectionRateBySource Sample5.mixed initial = (Normal report, initial) /\
    rejection_summary report
    = rejection_header (Z.of_nat (List.length Sample5.mixed)) ++ nl ++ rest.
Proof.
  apply (rejection_header_counts_table Sample5.mixed).
  repeat constructor;
    solve [ eexists; split; [reflexivity | reflexivity]
          | eexists; split; [reflexivity | cbn; tauto] ].
Defined.
